(** * DNS wire-format codec (msg.go): shallow embedding and properties

    The Go source packs and unpacks DNS messages by walking record
    structures with reflection.  This development embeds

    - the name codec ([packDomainName], [unpackDomainName]),
    - the reflective struct walkers ([packStructValue], [unpackStructValue]),
    - the RR framer ([packRR], [unpackRR]) and
    - the message codec ([Pack], [Unpack]),

    and states the properties of the specification over them.

    Conventions.  A Go [byte] is an [ascii]; a Go [string] and a Go
    [[]byte] are both [list byte].  A Go [int] is a [Z]: every offset the
    codec computes stays within the length of the buffer plus 2^16, far
    from the machine bound, so no wrap-around is written for [int]; the
    unsigned 16/32-bit conversions are written out with [mod].  A run-time
    panic (index or slice out of range, failed type assertion) is the
    outcome [Panic]. *)

From Stdlib Require Import ZArith Ascii String List Lia Bool.
Import ListNotations.
Local Open Scope Z_scope.

(** ** Bytes, buffers and outcomes *)

Definition byte := ascii.
Definition gostring := list byte.

Definition b2z (b : byte) : Z := Z.of_N (N_of_ascii b).
(** Go's conversion [byte(x)]: the low eight bits. *)
Definition z2b (z : Z) : byte := ascii_of_N (Z.to_N (z mod 256)).

Definition str (s : string) : gostring := list_ascii_of_string s.
Definition hexbytes (l : list Z) : list byte := map z2b l.

Definition len {A : Type} (l : list A) : Z := Z.of_nat (length l).

(** The outcome of a call: it returns, it panics, or the iterations
    granted to a loop of the embedding are used up (which is shown never
    to happen, see [unpackDomainName_terminates]). *)
Inductive res (A : Type) : Type :=
| Ret (a : A)
| Panic
| OutOfFuel.
Arguments Ret {A} a.
Arguments Panic {A}.
Arguments OutOfFuel {A}.

Definition bind {A B : Type} (c : res A) (k : A -> res B) : res B :=
  match c with
  | Ret a => k a
  | Panic => Panic
  | OutOfFuel => OutOfFuel
  end.

Notation "x <- c ;; k" := (bind c (fun x => k))
  (at level 61, c at next level, right associativity).
Notation "' p <- c ;; k" := (bind c (fun x => let p := x in k))
  (at level 61, p pattern, c at next level, right associativity).

Definition lift {A : Type} (o : option A) : res A :=
  match o with Some a => Ret a | None => Panic end.

(** [msg[i]] : panics outside [0, len(msg)). *)
Definition index {A : Type} (msg : list A) (i : Z) : option A :=
  if i <? 0 then None else nth_error msg (Z.to_nat i).

(** [msg[i] = b]. *)
Definition store (msg : list byte) (i : Z) (b : byte) : option (list byte) :=
  if (0 <=? i) && (i <? len msg)
  then Some (firstn (Z.to_nat i) msg ++ b :: skipn (Z.to_nat (i + 1)) msg)
  else None.

(** [msg[lo:hi]].  The capacity of a buffer is taken to be its length, so
    the slice expression panics unless [0 <= lo <= hi <= len(msg)]. *)
Definition slice {A : Type} (msg : list A) (lo hi : Z) : option (list A) :=
  if (0 <=? lo) && (lo <=? hi) && (hi <=? len msg)
  then Some (firstn (Z.to_nat (hi - lo)) (skipn (Z.to_nat lo) msg))
  else None.

(** [copy(msg[off:off+n], src)] for a destination slice of [n] bytes:
    writes [min(n, len(src))] bytes. *)
Definition copy_into (msg : list byte) (off n : Z) (src : list byte)
  : option (list byte) :=
  match slice msg off (off + n) with
  | None => None
  | Some _ =>
      let w := firstn (Z.to_nat n) src in
      Some (firstn (Z.to_nat off) msg ++ w
              ++ skipn (Z.to_nat off + length w) msg)
  end.

Definition dot : byte := "."%char.
Definition is_dot (b : byte) : bool := Ascii.eqb b dot.

(** ** Name codec *)

(** The inner loop [for j := begin; j < i; j++ { msg[off] = s[j]; off++ }];
    [n] is the number of iterations left, [i - j]. *)
Fixpoint packLabel (n : nat) (s : gostring) (j : Z) (msg : list byte) (off : Z)
  : res (list byte * Z) :=
  match n with
  | O => Ret (msg, off)
  | S n' =>
      b <- lift (index s j) ;;
      msg <- lift (store msg off b) ;;
      packLabel n' s (j + 1) msg (off + 1)
  end.

(** The loop [for i := 0; i < len(s); i++]; [n] is the number of
    iterations left, [len(s) - i].  The boolean is false when the loop
    body executed [return len(msg), false]. *)
Fixpoint packDomainName_loop (n : nat) (s : gostring) (i begin : Z)
    (msg : list byte) (off : Z) : res (list byte * Z * bool) :=
  match n with
  | O => Ret (msg, off, true)
  | S n' =>
      c <- lift (index s i) ;;
      if is_dot c then
        if i - begin >=? 64 then Ret (msg, len msg, false)
        else
          msg <- lift (store msg off (z2b (i - begin))) ;;
          ' (msg, off) <- packLabel (Z.to_nat (i - begin)) s begin msg (off + 1) ;;
          packDomainName_loop n' s (i + 1) (i + 1) msg off
      else packDomainName_loop n' s (i + 1) begin msg off
  end.

(** Add the trailing dot that canonicalises a name. *)
Definition canon (s : gostring) : gostring :=
  match index s (len s - 1) with
  | Some c => if is_dot c then s else s ++ [dot]
  | None => s ++ [dot]
  end.

(** [packDomainName(s, msg, off)]: the buffer after the call, [off1], [ok]. *)
Definition packDomainName (s : gostring) (msg : list byte) (off : Z)
  : res (list byte * Z * bool) :=
  let s := canon s in
  let tot := len s + 1 in
  if off + tot >? len msg then Ret (msg, len msg, false)
  else
    ' (msg, off, ok) <- packDomainName_loop (length s) s 0 0 msg off ;;
    if negb ok then Ret (msg, off, false)
    else if list_eq_dec ascii_dec s [dot] then Ret (msg, off, true)
    else
      msg <- lift (store msg off (z2b 0)) ;;
      Ret (msg, off + 1, true).

(** The variables of the decoding loop. *)
Record nstate : Type := mkNState
  { st_s : gostring; st_off : Z; st_off1 : Z; st_ptr : Z }.

Definition name_fail (msg : list byte) : res (gostring * Z * bool) :=
  Ret ([], len msg, false).

(** One iteration of [Loop:]: either the variables for the next
    iteration or what the function returns. *)
Definition unpackDomainName_body (msg : list byte) (st : nstate)
  : nstate + res (gostring * Z * bool) :=
  let s := st_s st in
  let off := st_off st in
  let off1 := st_off1 st in
  let ptr := st_ptr st in
  if off >=? len msg then inr (name_fail msg)
  else
    match index msg off with
    | None => inr Panic
    | Some cb =>
        let c := b2z cb in
        let off := off + 1 in
        let top := Z.land c 0xC0 in
        if top =? 0x00 then
          if c =? 0x00 then
            (* break Loop, then the code after the loop *)
            inr (Ret (s, (if ptr =? 0 then off else off1), true))
          else if off + c >? len msg then inr (name_fail msg)
          else
            match slice msg off (off + c) with
            | None => inr Panic
            | Some l => inl (mkNState (s ++ l ++ [dot]) (off + c) off1 ptr)
            end
        else if top =? 0xC0 then
          if off >=? len msg then inr (name_fail msg)
          else
            match index msg off with
            | None => inr Panic
            | Some c1 =>
                let off := off + 1 in
                let off1 := if ptr =? 0 then off else off1 in
                let ptr := ptr + 1 in
                if ptr >? 10 then inr (name_fail msg)
                else
                  inl (mkNState s
                         (Z.lor (Z.shiftl (Z.lxor c 0xC0) 8) (b2z c1))
                         off1 ptr)
            end
        else inr (name_fail msg)
    end.

Fixpoint unpackDomainName_loop (fuel : nat) (msg : list byte) (st : nstate)
  : res (gostring * Z * bool) :=
  match fuel with
  | O => OutOfFuel
  | S fuel' =>
      match unpackDomainName_body msg st with
      | inl st' => unpackDomainName_loop fuel' msg st'
      | inr r => r
      end
  end.

(** Iterations that always suffice: at most eleven pointer bytes are
    read, and between two of them every iteration moves forward. *)
Definition name_fuel (msg : list byte) : nat := 12 * (length msg + 1).

Definition unpackDomainName (msg : list byte) (off : Z)
  : res (gostring * Z * bool) :=
  unpackDomainName_loop (name_fuel msg) msg (mkNState [] off 0 0).

(** ** Reflected values

    [packStructValue] and [unpackStructValue] walk a [reflect.StructValue]
    field by field and switch on the dynamic kind of each field and on its
    tag.  A [value] is what reflection shows of a Go value. *)

Inductive UintKind : Type := Uint8 | Uint16 | Uint32 | UintOther.

#[warnings="-register-all"]
Inductive value : Type :=
| UintValue (k : UintKind) (n : Z)
| StringValue (s : gostring)
| SliceValue (elems : list value)
| StructValue (name : string) (fields : list field)
| OtherValue
with field : Type :=
| Field (fname : string) (ftag : string) (fv : value).

Definition field_name (f : field) : string := let (n, _, _) := f in n.
Definition field_value (f : field) : value := let (_, _, v) := f in v.

(** [val.FieldByName(n)]; [None] stands for the nil value, on which the
    type assertion that follows in the source panics. *)
Definition FieldByName (fs : list field) (n : string) : option value :=
  option_map field_value (find (fun f => String.eqb (field_name f) n) fs).

Fixpoint set_field (fs : list field) (n : string) (v : value) : list field :=
  match fs with
  | [] => []
  | Field fn tg fv :: rest =>
      if String.eqb fn n then Field fn tg v :: rest
      else Field fn tg fv :: set_field rest n v
  end.

(** [val.FieldByName("Hdr")], asserted to be a struct, then its field
    [FieldByName("Rdlength")], asserted to be an unsigned integer. *)
Definition hdr_rdlength (fs : list field) : res Z :=
  match FieldByName fs "Hdr" with
  | Some (StructValue _ hfs) =>
      match FieldByName hfs "Rdlength" with
      | Some (UintValue _ n) => Ret n
      | _ => Panic
      end
  | _ => Panic
  end.

(** [val.FieldByName("SignerName")], asserted to be a string. *)
Definition signer_name (fs : list field) : res gostring :=
  match FieldByName fs "SignerName" with
  | Some (StringValue s) => Ret s
  | _ => Panic
  end.

(** [fv.Elem(j)], asserted to be an unsigned integer. *)
Definition elem_uint (elems : list value) (j : Z) : res Z :=
  match index elems j with
  | Some (UintValue _ n) => Ret n
  | _ => Panic
  end.

Definition byte_values (l : list byte) : list value :=
  map (fun b => UintValue Uint8 (b2z b)) l.

(** The functions of Go's standard library that the codec calls. *)
Record GoLib : Type := mkGoLib
  { hex_EncodeToString : list byte -> gostring;
    (** [None] when [hex.DecodeString] returns an error *)
    hex_DecodeString : gostring -> option (list byte);
    hex_DecodedLen : Z -> Z;
    base64_EncodedLen : Z -> Z;
    (** the [EncodedLen] bytes that [Encode] writes *)
    base64_Encode : list byte -> list byte;
    base64_DecodedLen : Z -> Z;
    (** the bytes [Decode] writes to its destination, and whether it
        returns an error *)
    base64_Decode : gostring -> list byte * bool;
    net_IPv4 : byte -> byte -> byte -> byte -> list byte }.

Definition uint16 (z : Z) : Z := z mod 65536.
Definition uint32 (z : Z) : Z := z mod 4294967296.

(** [unpackUint16]: no bounds check of its own. *)
Definition unpackUint16 (msg : list byte) (off : Z) : res (Z * Z) :=
  b0 <- lift (index msg off) ;;
  b1 <- lift (index msg (off + 1)) ;;
  Ret (Z.lor (Z.shiftl (b2z b0) 8) (b2z b1), off + 2).

(** [msg[off] = b0; msg[off+1] = b1; ...] *)
Fixpoint store_bytes (msg : list byte) (off : Z) (bs : list byte)
  : res (list byte) :=
  match bs with
  | [] => Ret msg
  | b :: bs' =>
      msg <- lift (store msg off b) ;;
      store_bytes msg (off + 1) bs'
  end.

Section Codec.

Variable lib : GoLib.

(** *** Packing a struct *)

(** The body of [for j := 0; j < Len(); j++] of the ["OPT"] case. *)
Fixpoint pack_options (elems : list value) (msg : list byte) (off : Z)
  : res (list byte * Z) :=
  match elems with
  | [] => Ret (msg, off)
  | StructValue _ (Field _ _ (UintValue _ c) :: Field _ _ (StringValue data) :: _)
      :: rest =>
      let code := uint16 c in
      msg <- store_bytes msg off
               [z2b (Z.shiftr code 8); z2b code;
                z2b (Z.shiftr (len data) 8); z2b (len data)] ;;
      let off := off + 4 in
      msg <- lift (copy_into msg off (len data) data) ;;
      pack_options rest msg (off + len data)
  | _ => Panic
  end.

(** The loop of the ["AAAA"] case; [n] iterations are left. *)
Fixpoint pack_ip6 (n : nat) (elems : list value) (j : Z) (msg : list byte)
    (off : Z) : res (list byte * Z) :=
  match n with
  | O => Ret (msg, off)
  | S n' =>
      e <- elem_uint elems j ;;
      msg <- lift (store msg off (z2b e)) ;;
      pack_ip6 n' elems (j + 1) msg (off + 1)
  end.

Definition pack_slice (tag : string) (elems : list value) (msg : list byte)
    (off : Z) : res (list byte * Z * bool) :=
  if String.eqb tag "OPT" then
    ' (msg, off) <- pack_options elems msg off ;;
    Ret (msg, off, true)
  else if String.eqb tag "A" then
    if (len elems >? 4) || (off + len elems >? len msg)
    then Ret (msg, len msg, false)
    else
      e0 <- elem_uint elems 0 ;;
      msg <- lift (store msg off (z2b e0)) ;;
      e1 <- elem_uint elems 1 ;;
      msg <- lift (store msg (off + 1) (z2b e1)) ;;
      e2 <- elem_uint elems 2 ;;
      msg <- lift (store msg (off + 2) (z2b e2)) ;;
      e3 <- elem_uint elems 3 ;;
      msg <- lift (store msg (off + 3) (z2b e3)) ;;
      Ret (msg, off + 4, true)
  else if String.eqb tag "AAAA" then
    if (len elems >? 16) || (off + len elems >? len msg)
    then Ret (msg, len msg, false)
    else
      ' (msg, off) <- pack_ip6 16 elems 0 msg off ;;
      Ret (msg, off, true)
  else if String.eqb tag "NSEC3" then Ret (msg, off, true)
  else if String.eqb tag "NSEC" then Ret (msg, off, true)
  else Ret (msg, len msg, false).

Definition pack_uint (k : UintKind) (i : Z) (msg : list byte) (off : Z)
  : res (list byte * Z * bool) :=
  match k with
  | Uint8 =>
      if off + 1 >? len msg then Ret (msg, len msg, false)
      else
        msg <- store_bytes msg off [z2b i] ;;
        Ret (msg, off + 1, true)
  | Uint16 =>
      if off + 2 >? len msg then Ret (msg, len msg, false)
      else
        msg <- store_bytes msg off [z2b (Z.shiftr i 8); z2b i] ;;
        Ret (msg, off + 2, true)
  | Uint32 =>
      if off + 4 >? len msg then Ret (msg, len msg, false)
      else
        msg <- store_bytes msg off
                 [z2b (Z.shiftr i 24); z2b (Z.shiftr i 16);
                  z2b (Z.shiftr i 8); z2b i] ;;
        Ret (msg, off + 4, true)
  | UintOther => Ret (msg, len msg, false)
  end.

Definition pack_string (tag : string) (s : gostring) (msg : list byte)
    (off : Z) : res (list byte * Z * bool) :=
  if String.eqb tag "base64" then
    let b64len := base64_DecodedLen lib (len s) in
    _ <- lift (slice msg off (off + b64len)) ;;
    let (written, err) := base64_Decode lib s in
    if len written >? b64len then Panic
    else
      msg <- lift (copy_into msg off (len written) written) ;;
      if err then Ret (msg, len msg, false)
      else Ret (msg, off + b64len, true)
  else if String.eqb tag "domain-name" then
    ' (msg, off, ok) <- packDomainName s msg off ;;
    if negb ok then Ret (msg, len msg, false)
    else Ret (msg, off, true)
  else if String.eqb tag "hex" then
    match hex_DecodeString lib s with
    | None => Ret (msg, len msg, false)
    | Some h =>
        msg <- lift (copy_into msg off (hex_DecodedLen lib (len s)) h) ;;
        (* the source does not advance [off] here *)
        Ret (msg, off, true)
    end
  else if String.eqb tag "" then
    if (len s >? 255) || (off + 1 + len s >? len msg)
    then Ret (msg, len msg, false)
    else
      msg <- lift (store msg off (z2b (len s))) ;;
      msg <- store_bytes msg (off + 1) s ;;
      Ret (msg, off + 1 + len s, true)
  else Ret (msg, len msg, false).

(** [packStructValue(val, msg, off)]: the buffer after the call, [off1]
    and [ok].  The result of packing a nested struct is assigned to
    [off, ok] and the loop goes on. *)
Fixpoint packStructValue (val : value) (msg : list byte) (off : Z) {struct val}
  : res (list byte * Z * bool) :=
  match val with
  | StructValue _ fs =>
      (fix fields (todo : list field) (msg : list byte) (off : Z) {struct todo}
         : res (list byte * Z * bool) :=
         match todo with
         | [] => Ret (msg, off, true)
         | Field _ tag fv :: rest =>
             r <- match fv with
                  | SliceValue elems => pack_slice tag elems msg off
                  | StructValue _ _ =>
                      ' (msg, off, _) <- packStructValue fv msg off ;;
                      Ret (msg, off, true)
                  | UintValue k i => pack_uint k i msg off
                  | StringValue s => pack_string tag s msg off
                  | OtherValue => Ret (msg, len msg, false)
                  end ;;
             let '(msg, off, ok) := r in
             if ok then fields rest msg off else Ret (msg, len msg, false)
         end) fs msg off
  | _ => Panic
  end.

(** [structValue(any)] asserts that [any] points to a struct. *)
Definition packStruct (any : value) (msg : list byte) (off : Z)
  : res (list byte * Z * bool) :=
  packStructValue any msg off.

(** *** Unpacking a struct *)

Definition unpack_slice (tag : string) (elems : list value) (msg : list byte)
    (off : Z) : res (list value * Z * bool) :=
  if String.eqb tag "A" then
    if off + 4 >? len msg then Ret (elems, len msg, false)
    else
      b0 <- lift (index msg off) ;;
      b1 <- lift (index msg (off + 1)) ;;
      b2 <- lift (index msg (off + 2)) ;;
      b3 <- lift (index msg (off + 3)) ;;
      Ret (byte_values (net_IPv4 lib b0 b1 b2 b3), off + 4, true)
  else if String.eqb tag "AAAA" then
    if off + 16 >? len msg then Ret (elems, len msg, false)
    else
      p <- lift (slice msg off (off + 16)) ;;
      Ret (byte_values p, off + 16, true)
  else if String.eqb tag "OPT" then Ret (elems, off, true)
  else Ret (elems, len msg, false).

Definition unpack_uint (k : UintKind) (old : Z) (msg : list byte) (off : Z)
  : res (Z * Z * bool) :=
  match k with
  | Uint8 =>
      if off + 1 >? len msg then Ret (old, len msg, false)
      else
        b <- lift (index msg off) ;;
        Ret (b2z b, off + 1, true)
  | Uint16 =>
      if off + 2 >? len msg then Ret (old, len msg, false)
      else
        ' (i, off) <- unpackUint16 msg off ;;
        Ret (i, off, true)
  | Uint32 =>
      if off + 4 >? len msg then Ret (old, len msg, false)
      else
        b0 <- lift (index msg off) ;;
        b1 <- lift (index msg (off + 1)) ;;
        b2 <- lift (index msg (off + 2)) ;;
        b3 <- lift (index msg (off + 3)) ;;
        Ret (Z.lor (Z.lor (Z.lor (Z.shiftl (b2z b0) 24) (Z.shiftl (b2z b1) 16))
                      (Z.shiftl (b2z b2) 8)) (b2z b3),
             off + 4, true)
  | UintOther => Ret (old, len msg, false)
  end.

(** The [*reflect.StringValue] case; [name] and [cur] are the name and
    the present fields of the struct being walked. *)
Definition unpack_string (name : string) (cur : list field) (tag : string)
    (old : gostring) (msg : list byte) (off : Z) : res (gostring * Z * bool) :=
  if String.eqb tag "hex" then
    rdlength <- hdr_rdlength cur ;;
    let consumed := if String.eqb name "RR_DS" then 4 else 0 in
    data <- lift (slice msg off (off + rdlength - consumed)) ;;
    Ret (hex_EncodeToString lib data, off + (rdlength - consumed), true)
  else if String.eqb tag "base64" then
    rdlength <- hdr_rdlength cur ;;
    consumed <-
      (if String.eqb name "RR_DNSKEY" then Ret 4
       else if String.eqb name "RR_RRSIG" then
         sn <- signer_name cur ;;
         Ret (18 + (len sn + 1))
       else Ret 0) ;;
    data <- lift (slice msg off (off + rdlength - consumed)) ;;
    Ret (base64_Encode lib data, off + (rdlength - consumed), true)
  else if String.eqb tag "domain-name" then
    ' (s, off, ok) <- unpackDomainName msg off ;;
    if negb ok then Ret (old, len msg, false)
    else Ret (s, off, true)
  else if String.eqb tag "" then
    if off >=? len msg then Ret (old, len msg, false)
    else
      nb <- lift (index msg off) ;;
      if off + 1 + b2z nb >? len msg then Ret (old, len msg, false)
      else
        let n := b2z nb in
        b <- lift (slice msg (off + 1) (off + 1 + n)) ;;
        Ret (b, off + 1 + n, true)
  else Ret (old, len msg, false).

(** [unpackStructValue(val, msg, off)]: the struct after the call (the
    source mutates it in place, also when it fails half way), [off1] and
    [ok].  [done] are the fields already walked, in reverse order. *)
Fixpoint unpackStructValue (val : value) (msg : list byte) (off : Z)
    {struct val} : res (value * Z * bool) :=
  match val with
  | StructValue name fs =>
      (fix fields (done todo : list field) (off : Z) {struct todo}
         : res (value * Z * bool) :=
         match todo with
         | [] => Ret (StructValue name (rev done), off, true)
         | Field fn tag fv :: rest =>
             let cur := rev done ++ todo in
             r <- match fv with
                  | SliceValue elems =>
                      ' (e, off, ok) <- unpack_slice tag elems msg off ;;
                      Ret (SliceValue e, off, ok)
                  | StructValue _ _ =>
                      ' (v, off, _) <- unpackStructValue fv msg off ;;
                      Ret (v, off, true)
                  | UintValue k old =>
                      ' (i, off, ok) <- unpack_uint k old msg off ;;
                      Ret (UintValue k i, off, ok)
                  | StringValue old =>
                      ' (s, off, ok) <- unpack_string name cur tag old msg off ;;
                      Ret (StringValue s, off, ok)
                  | OtherValue => Ret (fv, len msg, false)
                  end ;;
             let '(v, off, ok) := r in
             if ok then fields (Field fn tag v :: done) rest off
             else Ret (StructValue name (rev done ++ Field fn tag v :: rest),
                       len msg, false)
         end) [] fs off
  | _ => Panic
  end.

Definition unpackStruct (any : value) (msg : list byte) (off : Z)
  : res (value * Z * bool) :=
  unpackStructValue any msg off.

End Codec.

(** ** Record layouts

    The record types of the package (the message header, the question,
    the RR header, the RR payloads), the flag masks and the registry
    [rr_mk] are declared in a file of the package other than msg.go. *)

Definition u8 (n : string) : field := Field n "" (UintValue Uint8 0).
Definition u16 (n : string) : field := Field n "" (UintValue Uint16 0).
Definition u32 (n : string) : field := Field n "" (UintValue Uint32 0).
Definition name_field (n : string) : field :=
  Field n "domain-name" (StringValue []).
Definition string_field (n tag : string) : field :=
  Field n tag (StringValue []).

(** Modelled from the spec: the wire header of a message, "id, packed
    flag/bits word, and the four section counts", all 16-bit. *)
Definition Header_zero : value :=
  StructValue "Header"
    [u16 "Id"; u16 "Bits"; u16 "Qdcount"; u16 "Ancount"; u16 "Nscount";
     u16 "Arcount"].

(** Modelled from the spec: a question is "name + 16-bit qtype + 16-bit
    qclass". *)
Definition Question_zero : value :=
  StructValue "Question" [name_field "Name"; u16 "Qtype"; u16 "Qclass"].

(** Modelled from the spec: the RR header is "name, type code, class code,
    TTL (32-bit), rdlength (16-bit)"; msg.go reads its fields [Rrtype] and
    [Rdlength]. *)
Definition RR_Header_fields : list field :=
  [name_field "Name"; u16 "Rrtype"; u16 "Class"; u32 "Ttl"; u16 "Rdlength"].
Definition RR_Header_zero : value := StructValue "RR_Header" RR_Header_fields.

(** Modelled from the spec: the flag masks, "QR=0x8000, AA=0x0400,
    TC=0x0200, RD=0x0100, RA=0x0080, Z=0x0040, AD=0x0020, CD=0x0010". *)
Definition _QR : Z := 0x8000.
Definition _AA : Z := 0x0400.
Definition _TC : Z := 0x0200.
Definition _RD : Z := 0x0100.
Definition _RA : Z := 0x0080.
Definition _Z : Z := 0x0040.
Definition _AD : Z := 0x0020.
Definition _CD : Z := 0x0010.

(** A statically typed access [h.Name] to an unsigned field. *)
Definition uint_field (v : value) (n : string) : Z :=
  match v with
  | StructValue _ fs =>
      match FieldByName fs n with
      | Some (UintValue _ z) => z
      | _ => 0
      end
  | _ => 0
  end.

Definition set_uint_field (v : value) (n : string) (z : Z) : value :=
  match v with
  | StructValue name fs =>
      match FieldByName fs n with
      | Some (UintValue k _) => StructValue name (set_field fs n (UintValue k z))
      | _ => v
      end
  | _ => v
  end.

(** Modelled from the spec: [rr.Header()] is the RR header of a record, the
    record itself for a bare [RR_Header] and its field [Hdr] otherwise
    (the field msg.go looks up by that name). *)
Definition Header (rr : value) : res value :=
  match rr with
  | StructValue name fs =>
      if String.eqb name "RR_Header" then Ret rr
      else lift (FieldByName fs "Hdr")
  | _ => Panic
  end.

(** [rr.Header().Rdlength = z] *)
Definition set_rdlength (rr : value) (z : Z) : value :=
  match rr with
  | StructValue name fs =>
      if String.eqb name "RR_Header" then set_uint_field rr "Rdlength" z
      else
        match FieldByName fs "Hdr" with
        | Some h => StructValue name (set_field fs "Hdr" (set_uint_field h "Rdlength" z))
        | None => rr
        end
  | _ => rr
  end.

(** ** RR framer *)

Section Framer.

Variable lib : GoLib.
(** The registry [rr_mk]: for a type code, the empty record that its
    constructor makes, if the code is registered. *)
Variable rr_mk : Z -> option value.

(** [packRR(rr, msg, off)]; [None] is the nil RR.  The call writes the
    computed [Rdlength] into the record, so the record after the call is
    part of the result. *)
Definition packRR (rr : option value) (msg : list byte) (off : Z)
  : res (option value * list byte * Z * bool) :=
  match rr with
  | None => Ret (None, msg, len msg, false)
  | Some r =>
      h <- Header r ;;
      ' (msg, off1, _) <- packStruct lib h msg off ;;
      ' (msg, off2, ok) <- packStruct lib r msg off ;;
      if negb ok then Ret (rr, msg, len msg, false)
      else
        let r := set_rdlength r (uint16 (off2 - off1)) in
        h <- Header r ;;
        ' (msg, _, _) <- packStruct lib h msg off ;;
        Ret (Some r, msg, off2, true)
  end.

(** [unpackRR(msg, off)]: the record ([None] for nil), [off1], [ok]. *)
Definition unpackRR (msg : list byte) (off : Z)
  : res (option value * Z * bool) :=
  let off0 := off in
  ' (h, off, ok) <- unpackStruct lib RR_Header_zero msg off ;;
  if negb ok then Ret (None, len msg, false)
  else
    let end_ := off + uint_field h "Rdlength" in
    match rr_mk (uint_field h "Rrtype") with
    | None => Ret (Some h, end_, true)
    | Some rr =>
        ' (rr, off, ok) <- unpackStruct lib rr msg off0 ;;
        if negb (off =? end_) then Ret (Some h, end_, true)
        else Ret (Some rr, off, ok)
    end.

(** ** Message codec *)

Record MsgHdr : Type := mkMsgHdr
  { Id : Z;
    Response : bool;
    Opcode : Z;
    Authoritative : bool;
    Truncated : bool;
    RecursionDesired : bool;
    RecursionAvailable : bool;
    Zero : bool;
    AuthenticatedData : bool;
    CheckingDisabled : bool;
    Rcode : Z }.

Record Msg : Type := mkMsg
  { hdr : MsgHdr;
    Question : list value;
    Answer : list (option value);
    Ns : list (option value);
    Extra : list (option value) }.

Definition DefaultMsgSize : Z := 4096.

Definition or_if (b : bool) (mask bits : Z) : Z :=
  if b then Z.lor bits mask else bits.

(** The word [dh.Bits] that [Pack] builds. *)
Definition pack_bits (h : MsgHdr) : Z :=
  let bits := Z.lor (uint16 (Z.shiftl (uint16 (Opcode h)) 11))
                    (uint16 (Rcode h)) in
  let bits := or_if (Response h) _QR bits in
  let bits := or_if (Authoritative h) _AA bits in
  let bits := or_if (Truncated h) _TC bits in
  let bits := or_if (RecursionDesired h) _RD bits in
  let bits := or_if (RecursionAvailable h) _RA bits in
  let bits := or_if (Zero h) _Z bits in
  let bits := or_if (AuthenticatedData h) _AD bits in
  let bits := or_if (CheckingDisabled h) _CD bits in
  bits.

Definition wire_header (id bits qd an ns ar : Z) : value :=
  StructValue "Header"
    [Field "Id" "" (UintValue Uint16 id);
     Field "Bits" "" (UintValue Uint16 bits);
     Field "Qdcount" "" (UintValue Uint16 qd);
     Field "Ancount" "" (UintValue Uint16 an);
     Field "Nscount" "" (UintValue Uint16 ns);
     Field "Arcount" "" (UintValue Uint16 ar)].

(** [for i := 0; i < len(question); i++
      { off, ok = packStruct(&question[i], msg, off) }] *)
Fixpoint pack_questions (qs : list value) (msg : list byte) (off : Z)
    (ok : bool) : res (list byte * Z * bool) :=
  match qs with
  | [] => Ret (msg, off, ok)
  | q :: rest =>
      ' (msg, off, ok) <- packStruct lib q msg off ;;
      pack_questions rest msg off ok
  end.

(** [for i := 0; i < len(rrs); i++ { off, ok = packRR(rrs[i], msg, off) }] *)
Fixpoint pack_rrs (rrs : list (option value)) (msg : list byte) (off : Z)
    (ok : bool) : res (list (option value) * list byte * Z * bool) :=
  match rrs with
  | [] => Ret ([], msg, off, ok)
  | rr :: rest =>
      ' (rr, msg, off, ok) <- packRR rr msg off ;;
      ' (rest, msg, off, ok) <- pack_rrs rest msg off ok ;;
      Ret (rr :: rest, msg, off, ok)
  end.

(** [dns.Pack()]: the message after the call, the bytes ([[]] for nil)
    and [ok]. *)
Definition Pack (dns : Msg) : res (Msg * list byte * bool) :=
  let question := Question dns in
  let answer := Answer dns in
  let ns := Ns dns in
  let extra := Extra dns in
  let dh := wire_header (Id (hdr dns)) (pack_bits (hdr dns))
              (uint16 (len question)) (uint16 (len answer))
              (uint16 (len ns)) (uint16 (len extra)) in
  let msg := repeat (z2b 0) (Z.to_nat DefaultMsgSize) in
  let off := 0 in
  ' (msg, off, ok) <- packStruct lib dh msg off ;;
  ' (msg, off, ok) <- pack_questions question msg off ok ;;
  ' (answer, msg, off, ok) <- pack_rrs answer msg off ok ;;
  ' (ns, msg, off, ok) <- pack_rrs ns msg off ok ;;
  ' (extra, msg, off, ok) <- pack_rrs extra msg off ok ;;
  let dns := mkMsg (hdr dns) question answer ns extra in
  if negb ok then Ret (dns, [], false)
  else
    out <- lift (slice msg 0 off) ;;
    Ret (dns, out, true).

(** [for i := 0; i < len(dns.Question); i++
      { off, ok = unpackStruct(&dns.Question[i], msg, off) }] *)
Fixpoint unpack_questions (qs : list value) (msg : list byte) (off : Z)
    (ok : bool) : res (list value * Z * bool) :=
  match qs with
  | [] => Ret ([], off, ok)
  | q :: rest =>
      ' (q, off, ok) <- unpackStruct lib q msg off ;;
      ' (rest, off, ok) <- unpack_questions rest msg off ok ;;
      Ret (q :: rest, off, ok)
  end.

(** [for i := 0; i < len(rrs); i++ { rrs[i], off, ok = unpackRR(msg, off) }];
    [n] is [len(rrs)]. *)
Fixpoint unpack_rrs (n : nat) (msg : list byte) (off : Z) (ok : bool)
  : res (list (option value) * Z * bool) :=
  match n with
  | O => Ret ([], off, ok)
  | S n' =>
      ' (rr, off, ok) <- unpackRR msg off ;;
      ' (rest, off, ok) <- unpack_rrs n' msg off ok ;;
      Ret (rr :: rest, off, ok)
  end.

(** What [Unpack] writes to the receiver's header: [Zero],
    [AuthenticatedData] and [CheckingDisabled] keep the value they had. *)
Definition unpack_hdr (old : MsgHdr) (id bits : Z) : MsgHdr :=
  mkMsgHdr id
    (negb (Z.land bits _QR =? 0))
    (Z.land (Z.shiftr bits 11) 0xF)
    (negb (Z.land bits _AA =? 0))
    (negb (Z.land bits _TC =? 0))
    (negb (Z.land bits _RD =? 0))
    (negb (Z.land bits _RA =? 0))
    (Zero old)
    (AuthenticatedData old)
    (CheckingDisabled old)
    (Z.land bits 0xF).

(** [dns.Unpack(msg)] on the receiver [dns]: the receiver after the call,
    the returned boolean, and whether the "extra bytes" line was
    printed. *)
Definition Unpack (dns : Msg) (msg : list byte) : res (Msg * bool * bool) :=
  ' (dh, off, ok) <- unpackStruct lib Header_zero msg 0 ;;
  if negb ok then Ret (dns, false, false)
  else
    let h := unpack_hdr (hdr dns) (uint_field dh "Id") (uint_field dh "Bits") in
    let questions := repeat Question_zero (Z.to_nat (uint_field dh "Qdcount")) in
    ' (questions, off, ok) <- unpack_questions questions msg off ok ;;
    ' (answer, off, ok) <-
        unpack_rrs (Z.to_nat (uint_field dh "Ancount")) msg off ok ;;
    ' (ns, off, ok) <-
        unpack_rrs (Z.to_nat (uint_field dh "Nscount")) msg off ok ;;
    ' (extra, off, ok) <-
        unpack_rrs (Z.to_nat (uint_field dh "Arcount")) msg off ok ;;
    let dns := mkMsg h questions answer ns extra in
    if negb ok then Ret (dns, false, false)
    else Ret (dns, true, negb (off =? len msg)).

End Framer.

(** The zero value of [Msg], a fresh receiver for [Unpack]. *)
Definition MsgHdr_zero : MsgHdr :=
  mkMsgHdr 0 false 0 false false false false false false false 0.
Definition Msg_zero : Msg := mkMsg MsgHdr_zero [] [] [] [].

(** ** The library functions and the registry, concretely

    Used where a statement is evaluated on a concrete input. *)

Definition hex_digit (n : Z) : byte := z2b (if n <? 10 then 48 + n else 87 + n).

Fixpoint hex_encode (l : list byte) : gostring :=
  match l with
  | [] => []
  | b :: r => hex_digit (b2z b / 16) :: hex_digit (b2z b mod 16) :: hex_encode r
  end.

Definition hex_val (c : byte) : option Z :=
  let z := b2z c in
  if (48 <=? z) && (z <=? 57) then Some (z - 48)
  else if (97 <=? z) && (z <=? 102) then Some (z - 87)
  else if (65 <=? z) && (z <=? 70) then Some (z - 55)
  else None.

Fixpoint hex_decode (s : gostring) : option (list byte) :=
  match s with
  | [] => Some []
  | a :: b :: r =>
      match hex_val a, hex_val b, hex_decode r with
      | Some x, Some y, Some t => Some (z2b (16 * x + y) :: t)
      | _, _, _ => None
      end
  | _ => None
  end.

Definition b64_char (n : Z) : byte :=
  z2b (if n <? 26 then 65 + n
       else if n <? 52 then 71 + n
       else if n <? 62 then n - 4
       else if n =? 62 then 43 else 47).

Definition b64_pad : byte := "="%char.

Fixpoint b64_encode (l : list byte) : list byte :=
  match l with
  | [] => []
  | [a] =>
      let x := b2z a in
      [b64_char (x / 4); b64_char (x mod 4 * 16); b64_pad; b64_pad]
  | [a; b] =>
      let x := b2z a in
      let y := b2z b in
      [b64_char (x / 4); b64_char (x mod 4 * 16 + y / 16);
       b64_char (y mod 16 * 4); b64_pad]
  | a :: b :: c :: r =>
      let x := b2z a in
      let y := b2z b in
      let z := b2z c in
      b64_char (x / 4) :: b64_char (x mod 4 * 16 + y / 16)
        :: b64_char (y mod 16 * 4 + z / 64) :: b64_char (z mod 64)
        :: b64_encode r
  end.

Definition b64_val (c : byte) : option Z :=
  let z := b2z c in
  if (65 <=? z) && (z <=? 90) then Some (z - 65)
  else if (97 <=? z) && (z <=? 122) then Some (z - 71)
  else if (48 <=? z) && (z <=? 57) then Some (z + 4)
  else if z =? 43 then Some 62
  else if z =? 47 then Some 63
  else None.

Definition is_nil {A : Type} (l : list A) : bool :=
  match l with [] => true | _ => false end.

Fixpoint b64_decode (s : gostring) : list byte * bool :=
  match s with
  | [] => ([], false)
  | a :: b :: c :: d :: r =>
      match b64_val a, b64_val b with
      | Some x, Some y =>
          let b0 := z2b (x * 4 + y / 16) in
          if Ascii.eqb c b64_pad then
            if Ascii.eqb d b64_pad && is_nil r then ([b0], false) else ([], true)
          else
            match b64_val c with
            | Some z =>
                let b1 := z2b (y mod 16 * 16 + z / 4) in
                if Ascii.eqb d b64_pad then
                  if is_nil r then ([b0; b1], false) else ([], true)
                else
                  match b64_val d with
                  | Some w =>
                      let (t, e) := b64_decode r in
                      (b0 :: b1 :: z2b (z mod 4 * 64 + w) :: t, e)
                  | None => ([], true)
                  end
            | None => ([], true)
            end
      | _, _ => ([], true)
      end
  | _ => ([], true)
  end.

(** [net.IPv4(a, b, c, d)]: the sixteen-byte form of an IPv4 address. *)
Definition IPv4 (a b c d : byte) : list byte :=
  repeat (z2b 0) 10 ++ [z2b 0xff; z2b 0xff; a; b; c; d].

Definition golib : GoLib :=
  mkGoLib hex_encode hex_decode (fun n => n / 2)
    (fun n => (n + 2) / 3 * 4) b64_encode (fun n => n / 4 * 3) b64_decode
    IPv4.

Definition rr_struct (name : string) (payload : list field) : value :=
  StructValue name (Field "Hdr" "" RR_Header_zero :: payload).

(** Modelled from the spec: the payload layouts that the data model
    fixes, under the type codes of the RFCs.  The names [RR_DS],
    [RR_DNSKEY], [RR_RRSIG], [Hdr] and [SignerName] are the ones msg.go
    looks up. *)
Definition rr_mk_spec (t : Z) : option value :=
  if t =? 1 then Some (rr_struct "RR_A" [Field "A" "A" (SliceValue [])])
  else if t =? 2 then Some (rr_struct "RR_NS" [name_field "Ns"])
  else if t =? 5 then Some (rr_struct "RR_CNAME" [name_field "Cname"])
  else if t =? 6 then
    Some (rr_struct "RR_SOA"
            [name_field "Ns"; name_field "Mbox"; u32 "Serial"; u32 "Refresh";
             u32 "Retry"; u32 "Expire"; u32 "Minttl"])
  else if t =? 7 then Some (rr_struct "RR_MB" [name_field "Mb"])
  else if t =? 8 then Some (rr_struct "RR_MG" [name_field "Mg"])
  else if t =? 9 then Some (rr_struct "RR_MR" [name_field "Mr"])
  else if t =? 12 then Some (rr_struct "RR_PTR" [name_field "Ptr"])
  else if t =? 15 then Some (rr_struct "RR_MX" [u16 "Pref"; name_field "Mx"])
  else if t =? 28 then
    Some (rr_struct "RR_AAAA" [Field "AAAA" "AAAA" (SliceValue [])])
  else if t =? 33 then
    Some (rr_struct "RR_SRV"
            [u16 "Priority"; u16 "Weight"; u16 "Port"; name_field "Target"])
  else if t =? 35 then
    Some (rr_struct "RR_NAPTR"
            [u16 "Order"; u16 "Preference"; string_field "Flags" "";
             string_field "Service" ""; string_field "Regexp" "";
             name_field "Replacement"])
  else if t =? 43 then
    Some (rr_struct "RR_DS"
            [u16 "KeyTag"; u8 "Algorithm"; u8 "DigestType";
             string_field "Digest" "hex"])
  else if t =? 46 then
    Some (rr_struct "RR_RRSIG"
            [u16 "TypeCovered"; u8 "Algorithm"; u8 "Labels"; u32 "OrigTtl";
             u32 "Expiration"; u32 "Inception"; u16 "KeyTag";
             name_field "SignerName"; string_field "Signature" "base64"])
  else if t =? 48 then
    Some (rr_struct "RR_DNSKEY"
            [u16 "Flags"; u8 "Protocol"; u8 "Algorithm";
             string_field "PubKey" "base64"])
  else None.

Definition question (name : string) (qtype qclass : Z) : value :=
  StructValue "Question"
    [Field "Name" "domain-name" (StringValue (str name));
     Field "Qtype" "" (UintValue Uint16 qtype);
     Field "Qclass" "" (UintValue Uint16 qclass)].

(** ** Notions used in the statements *)

(** *** The decoding loop, step by step *)

Definition name_init (off : Z) : nstate := mkNState [] off 0 0.

(** The variables at the head of the iteration reached after [n] more
    iterations of the decoding loop, when none of them returns. *)
Fixpoint run_body (n : nat) (msg : list byte) (st : nstate) : option nstate :=
  match n with
  | O => Some st
  | S n' =>
      match unpackDomainName_body msg st with
      | inl st' => run_body n' msg st'
      | inr _ => None
      end
  end.

(** The offset of the length byte that follows the one at [off] in a name:
    one iteration of the loop with no pointer followed yet. *)
Definition next_off (msg : list byte) (off : Z) : option Z :=
  match unpackDomainName_body msg (name_init off) with
  | inl st' => Some (st_off st')
  | inr _ => None
  end.

Fixpoint walk (n : nat) (msg : list byte) (off : Z) : option Z :=
  match n with
  | O => Some off
  | S n' =>
      match next_off msg off with
      | Some o => walk n' msg o
      | None => None
      end
  end.

(** The name at [off] runs into a cycle: some length-byte offset [o] of
    the name leads back to itself. *)
Definition pointer_cycle (msg : list byte) (off : Z) : Prop :=
  exists n k o, walk n msg off = Some o /\ walk (S k) msg o = Some o.

Definition is_pointer (b : byte) : Prop := Z.land (b2z b) 0xC0 = 0xC0.

Definition reserved (b : byte) : Prop :=
  Z.land (b2z b) 0xC0 = 0x40 \/ Z.land (b2z b) 0xC0 = 0x80.

Definition name_measure (msg : list byte) (st : nstate) : Z :=
  (11 - st_ptr st) * (len msg + 1)
  + (if (0 <=? st_off st) && (st_off st <? len msg)
     then len msg - st_off st else 0).

(** *** Labels and their encoding *)

(** The labels of a name: the segments that the dots of the canonical
    name end.  [cur] is the segment read so far. *)
Fixpoint split_dots (cur s : gostring) : list gostring :=
  match s with
  | [] => []
  | c :: r =>
      if is_dot c then cur :: split_dots [] r else split_dots (cur ++ [c]) r
  end.

Definition labels (s : gostring) : list gostring := split_dots [] (canon s).

(** Labels on the wire: a length byte, then the bytes of the label. *)
Definition encode_labels (ls : list gostring) : list byte :=
  flat_map (fun l => z2b (len l) :: l) ls.

(** Labels as text: each followed by a dot. *)
Definition join_labels (ls : list gostring) : gostring :=
  flat_map (fun l => l ++ [dot]) ls.

(** The wire encoding of a name, length bytes and terminator included;
    the root name is the terminator alone. *)
Definition wire_name (s : gostring) : list byte :=
  if list_eq_dec ascii_dec (canon s) [dot] then [z2b 0]
  else encode_labels (labels s) ++ [z2b 0].

Definition short (l : gostring) : bool := len l <? 64.

Definition strict_prefix (p s : gostring) : Prop :=
  exists t, t <> [] /\ s = p ++ t.

(** *** Buffers *)

(** [msg] with [bs] written at [off]. *)
Definition write (msg : list byte) (off : Z) (bs : list byte) : list byte :=
  firstn (Z.to_nat off) msg ++ bs ++ skipn (Z.to_nat off + length bs) msg.

(** [m'] is [m] up to [off]: same length, same bytes below [off]. *)
Definition same_below (off : Z) (m m' : list byte) : Prop :=
  len m' = len m /\ firstn (Z.to_nat off) m' = firstn (Z.to_nat off) m.

(** A packing step keeps the buffer below its offset and returns an
    offset between its own and the end of the buffer. *)
Definition pack_frame (r : res (list byte * Z * bool)) (m : list byte)
    (off : Z) : Prop :=
  forall m' off' ok,
    r = Ret (m', off', ok) -> same_below off m m' /\ off <= off' <= len m'.

Definition zero_buf (n : nat) : list byte := repeat (z2b 0) n.

Definition uint_width (k : UintKind) : Z :=
  match k with Uint8 => 1 | Uint16 => 2 | Uint32 => 4 | UintOther => 0 end.

(** *** The struct walkers, loop by loop *)

(** The loop over the fields of [unpackStructValue], on its own. *)
Fixpoint unpack_fields (lib : GoLib) (msg : list byte) (name : string)
    (done todo : list field) (off : Z) {struct todo} : res (value * Z * bool) :=
  match todo with
  | [] => Ret (StructValue name (rev done), off, true)
  | Field fn tag fv :: rest =>
      let cur := rev done ++ todo in
      r <- match fv with
           | SliceValue elems =>
               ' (e, off, ok) <- unpack_slice lib tag elems msg off ;;
               Ret (SliceValue e, off, ok)
           | StructValue _ _ =>
               ' (v, off, _) <- unpackStructValue lib fv msg off ;;
               Ret (v, off, true)
           | UintValue k old =>
               ' (i, off, ok) <- unpack_uint k old msg off ;;
               Ret (UintValue k i, off, ok)
           | StringValue old =>
               ' (s, off, ok) <- unpack_string lib name cur tag old msg off ;;
               Ret (StringValue s, off, ok)
           | OtherValue => Ret (fv, len msg, false)
           end ;;
      let '(v, off, ok) := r in
      if ok then unpack_fields lib msg name (Field fn tag v :: done) rest off
      else Ret (StructValue name (rev done ++ Field fn tag v :: rest),
                len msg, false)
  end.

(** The loop over the fields of [packStructValue], on its own. *)
Fixpoint pack_fields (lib : GoLib) (todo : list field) (msg : list byte)
    (off : Z) {struct todo} : res (list byte * Z * bool) :=
  match todo with
  | [] => Ret (msg, off, true)
  | Field _ tag fv :: rest =>
      r <- match fv with
           | SliceValue elems => pack_slice tag elems msg off
           | StructValue _ _ =>
               ' (msg, off, _) <- packStructValue lib fv msg off ;;
               Ret (msg, off, true)
           | UintValue k i => pack_uint k i msg off
           | StringValue s => pack_string lib tag s msg off
           | OtherValue => Ret (msg, len msg, false)
           end ;;
      let '(msg, off, ok) := r in
      if ok then pack_fields lib rest msg off else Ret (msg, len msg, false)
  end.

(** Induction on reflected values, through the fields of structs. *)
Section ValueInduction.

Variable P : value -> Prop.
Hypothesis P_uint : forall k n, P (UintValue k n).
Hypothesis P_string : forall s, P (StringValue s).
Hypothesis P_slice : forall elems, P (SliceValue elems).
Hypothesis P_other : P OtherValue.
Hypothesis P_struct :
  forall name fs, Forall (fun f => P (field_value f)) fs -> P (StructValue name fs).

Fixpoint value_fields_ind (v : value) : P v :=
  match v with
  | UintValue k n => P_uint k n
  | StringValue s => P_string s
  | SliceValue elems => P_slice elems
  | OtherValue => P_other
  | StructValue name fs =>
      P_struct name fs
        ((fix go (l : list field) : Forall (fun f => P (field_value f)) l :=
            match l with
            | [] => Forall_nil _
            | f :: r =>
                Forall_cons f
                  (match f as f0 return P (field_value f0) with
                   | Field _ _ fv => value_fields_ind fv
                   end)
                  (go r)
            end) fs)
  end.

End ValueInduction.

(** *** Runs of successful calls *)

(** Each declared question, or record, is parsed by a call that returns
    [ok = true], from the offset where the call before it stopped. *)
Section Parses.

Variable lib : GoLib.
Variable rr_mk : Z -> option value.



End Parses.

(** ** Scenarios and inputs *)

Definition s2_bytes : list byte :=
  hexbytes [0x03; 0x66; 0x6f; 0x6f; 0x03; 0x62; 0x61; 0x72; 0x00; 0xC0; 0x00].

Definition s3_bytes : list byte := hexbytes [0xC0; 0x02; 0xC0; 0x00].

Definition s4_bytes (b : Z) : list byte :=
  hexbytes [0x03; 0x66; 0x6f; 0x6f; b; 0x62; 0x00].

Definition label60 : gostring := repeat "a"%char 60 ++ [dot].
(** Five labels of sixty bytes: 306 bytes on the wire. *)
Definition long_name : gostring :=
  label60 ++ label60 ++ label60 ++ label60 ++ label60.

(** A single label of sixty-four bytes. *)
Definition label64_name : gostring := repeat "x"%char 64.

(** An empty label followed by a label of sixty-four bytes. *)
Definition dotdot_long_name : gostring :=
  str "a.." ++ repeat "x"%char 64 ++ [dot].

(** S1: the minimal query and its encoding. *)
Definition s1_msg : Msg :=
  mkMsg (mkMsgHdr 0x1234 false 0 false false true false false false false 0)
    [question "example.com." 1 1] [] [] [].

Definition s1_bytes : list byte :=
  hexbytes [0x12;0x34;0x01;0x00; 0x00;0x01;0x00;0x00; 0x00;0x00;0x00;0x00;
            0x07;0x65;0x78;0x61;0x6d;0x70;0x6c;0x65; 0x03;0x63;0x6f;0x6d;
            0x00; 0x00;0x01; 0x00;0x01].

(** A message whose header has [Zero], [AuthenticatedData] and
    [CheckingDisabled] set, and what it packs to. *)
Definition flags_msg : Msg :=
  mkMsg (mkMsgHdr 7 false 0 false false false false true true true 0)
    [] [] [] [].

Definition flags_bytes : list byte :=
  hexbytes [0;7;0;0x70; 0;0;0;0; 0;0;0;0].

Definition flags_unpacked : Msg :=
  mkMsg (mkMsgHdr 7 false 0 false false false false false false false 0)
    [] [] [] [].

(** A truncated A record: the header declares four payload bytes, two
    follow. *)
Definition a_bytes : list byte :=
  hexbytes [0;0;0;0; 0;0;0;1; 0;0;0;0;
            0; 0;1; 0;1; 0;0;0;0; 0;4; 1;2].

Definition a_header : value :=
  StructValue "RR_Header"
    [Field "Name" "domain-name" (StringValue []);
     Field "Rrtype" "" (UintValue Uint16 1);
     Field "Class" "" (UintValue Uint16 1);
     Field "Ttl" "" (UintValue Uint32 0);
     Field "Rdlength" "" (UintValue Uint16 4)].

(** What [Unpack] leaves in a fresh receiver for the truncated A record. *)
Definition a_unpacked : Msg :=
  mkMsg (mkMsgHdr 0 false 0 false false false false false false false 0)
    [] [Some a_header] [] [].




(** One DS record (type 43) that declares [Rdlength = 0]; four bytes
    follow the RR header. *)
Definition ds_bytes : list byte :=
  hexbytes [0;0;0;0; 0;0;0;1; 0;0;0;0;
            0; 0;43; 0;1; 0;0;0;0; 0;0;
            0;0;0;0].

(** One DS record that declares [Rdlength = 0xFFFF]; six bytes follow
    the RR header. *)
Definition ds_overrun_bytes : list byte :=
  hexbytes [0;0;0;0; 0;0;0;1; 0;0;0;0;
            0; 0;43; 0;1; 0;0;0;0; 0xFF;0xFF;
            0;1;5;1;0xAB;0xCD].

(** A question for [foo.bar.] and one RRSIG record (type 46) whose owner
    and signer names are pointers to the question name; the payload is
    the 18 fixed bytes, the two-byte signer name and a four-byte
    signature, and [Rdlength = 24] says so. *)
Definition rrsig_bytes : list byte :=
  hexbytes [0;0;0;0; 0;1;0;1; 0;0;0;0;
            3;0x66;0x6f;0x6f; 3;0x62;0x61;0x72; 0; 0;1; 0;1;
            0xC0;12; 0;46; 0;1; 0;0;0;0; 0;24;
            0;1; 5; 2; 0;0;0;60; 0;0;0;2; 0;0;0;1; 0;7;
            0xC0;12;
            1;2;3;4].

(** ** Notions used in the further properties *)

(** The byte at an offset, and the big-endian numbers that start there. *)
Definition byte_at (msg : list byte) (i : Z) : Z :=
  match index msg i with Some b => b2z b | None => 0 end.

Definition be16 (msg : list byte) (i : Z) : Z :=
  byte_at msg i * 256 + byte_at msg (i + 1).

Definition be32 (msg : list byte) (i : Z) : Z :=
  ((byte_at msg i * 256 + byte_at msg (i + 1)) * 256 + byte_at msg (i + 2)) * 256
  + byte_at msg (i + 3).

Definition be_uint (k : UintKind) (msg : list byte) (i : Z) : Z :=
  match k with
  | Uint8 => byte_at msg i
  | Uint16 => be16 msg i
  | Uint32 => be32 msg i
  | UintOther => 0
  end.

(** *** Plain records and their wire form

    The records whose fields are unsigned integers, domain names, counted
    strings, IPv6 addresses and records of the same kind: what the codec
    packs without help from the library and reads back without looking
    at [Rdlength]. *)

Definition wire_uint (k : UintKind) (n : Z) : list byte :=
  match k with
  | Uint8 => [z2b n]
  | Uint16 => [z2b (Z.shiftr n 8); z2b n]
  | Uint32 =>
      [z2b (Z.shiftr n 24); z2b (Z.shiftr n 16); z2b (Z.shiftr n 8); z2b n]
  | UintOther => []
  end.

Definition elem_byte (e : value) : byte :=
  match e with UintValue _ n => z2b n | _ => z2b 0 end.

(** The bytes of a record on the wire, field after field. *)
Fixpoint wire_value (v : value) : list byte :=
  match v with
  | StructValue _ fs =>
      flat_map
        (fun f =>
           match f with
           | Field _ tag fv =>
               match fv with
               | UintValue k n => wire_uint k n
               | StringValue s =>
                   if String.eqb tag "domain-name" then wire_name s
                   else z2b (len s) :: s
               | SliceValue elems => map elem_byte elems
               | StructValue _ _ => wire_value fv
               | OtherValue => []
               end
           end) fs
  | _ => []
  end.

Definition wire_field (f : field) : list byte :=
  match f with
  | Field _ tag fv =>
      match fv with
      | UintValue k n => wire_uint k n
      | StringValue s =>
          if String.eqb tag "domain-name" then wire_name s
          else z2b (len s) :: s
      | SliceValue elems => map elem_byte elems
      | StructValue _ _ => wire_value fv
      | OtherValue => []
      end
  end.

(** A name that is canonical, not the root, with labels of 1 to 63
    bytes. *)
Definition good_name (s : gostring) : bool :=
  (if list_eq_dec ascii_dec (canon s) s then true else false)
  && forallb (fun l => (0 <? len l) && (len l <=? 63)) (labels s).

Definition uint_fits (k : UintKind) (n : Z) : bool :=
  match k with
  | UintOther => false
  | _ => (0 <=? n) && (n <? 2 ^ (8 * uint_width k))
  end.

Definition is_byte_value (e : value) : bool :=
  match e with
  | UintValue Uint8 n => (0 <=? n) && (n <? 256)
  | _ => false
  end.

Fixpoint plain (v : value) : bool :=
  match v with
  | StructValue _ fs =>
      forallb
        (fun f =>
           match f with
           | Field _ tag fv =>
               match fv with
               | UintValue k n => uint_fits k n
               | StringValue s =>
                   if String.eqb tag "domain-name" then good_name s
                   else if String.eqb tag "" then len s <=? 255
                   else false
               | SliceValue elems =>
                   String.eqb tag "AAAA" && (len elems =? 16)
                   && forallb is_byte_value elems
               | StructValue _ _ => plain fv
               | OtherValue => false
               end
           end) fs
  | _ => false
  end.

Definition plain_field (f : field) : bool :=
  match f with
  | Field _ tag fv =>
      match fv with
      | UintValue k n => uint_fits k n
      | StringValue s =>
          if String.eqb tag "domain-name" then good_name s
          else if String.eqb tag "" then len s <=? 255
          else false
      | SliceValue elems =>
          String.eqb tag "AAAA" && (len elems =? 16)
          && forallb is_byte_value elems
      | StructValue _ _ => plain fv
      | OtherValue => false
      end
  end.

(** The zero value of the type of a value: what a constructor of the
    registry makes, and what [Unpack] starts from. *)
Fixpoint blank (v : value) : value :=
  match v with
  | UintValue k _ => UintValue k 0
  | StringValue _ => StringValue []
  | SliceValue _ => SliceValue []
  | StructValue name fs =>
      StructValue name
        (map (fun f => match f with Field fn tag fv => Field fn tag (blank fv) end)
           fs)
  | OtherValue => OtherValue
  end.

Definition blank_field (f : field) : field :=
  match f with Field fn tag fv => Field fn tag (blank fv) end.

(** One step of the loops over the fields: the switch on the kind of
    the field. *)
Definition pack_field (lib : GoLib) (tag : string) (fv : value)
    (msg : list byte) (off : Z) : res (list byte * Z * bool) :=
  match fv with
  | SliceValue elems => pack_slice tag elems msg off
  | StructValue _ _ =>
      ' (msg, off, _) <- packStructValue lib fv msg off ;;
      Ret (msg, off, true)
  | UintValue k i => pack_uint k i msg off
  | StringValue s => pack_string lib tag s msg off
  | OtherValue => Ret (msg, len msg, false)
  end.

Definition unpack_field (lib : GoLib) (msg : list byte) (name : string)
    (cur : list field) (tag : string) (fv : value) (off : Z)
  : res (value * Z * bool) :=
  match fv with
  | SliceValue elems =>
      ' (e, off, ok) <- unpack_slice lib tag elems msg off ;;
      Ret (SliceValue e, off, ok)
  | StructValue _ _ =>
      ' (v, off, _) <- unpackStructValue lib fv msg off ;;
      Ret (v, off, true)
  | UintValue k old =>
      ' (i, off, ok) <- unpack_uint k old msg off ;;
      Ret (UintValue k i, off, ok)
  | StringValue old =>
      ' (s, off, ok) <- unpack_string lib name cur tag old msg off ;;
      Ret (StringValue s, off, ok)
  | OtherValue => Ret (fv, len msg, false)
  end.

(** What a plain record is packed to, and read back from. *)
Definition packs_to_wire (lib : GoLib) (v : value) : Prop :=
  plain v = true ->
  forall msg off,
    0 <= off -> off + len (wire_value v) <= len msg ->
    packStructValue lib v msg off
    = Ret (write msg off (wire_value v), off + len (wire_value v), true).

Definition unpacks_from_wire (lib : GoLib) (v : value) : Prop :=
  plain v = true ->
  forall v0 msg off tail,
    blank v0 = blank v ->
    0 <= off ->
    skipn (Z.to_nat off) msg = wire_value v ++ tail ->
    unpackStructValue lib v0 msg off
    = Ret (v, off + len (wire_value v), true).

(** *** Records with an RR header *)

(** An RR header with its five fields set. *)
Definition rr_header (owner : gostring) (t c ttl rd : Z) : value :=
  StructValue "RR_Header"
    [Field "Name" "domain-name" (StringValue owner);
     Field "Rrtype" "" (UintValue Uint16 t);
     Field "Class" "" (UintValue Uint16 c);
     Field "Ttl" "" (UintValue Uint32 ttl);
     Field "Rdlength" "" (UintValue Uint16 rd)].

(** A record: the header in its field [Hdr], then the payload. *)
Definition rr_record (sname : string) (h : value) (payload : list field)
  : value :=
  StructValue sname (Field "Hdr" "" h :: payload).

(** [rr] is a plain record of a registered type whose payload takes
    fewer than 65536 bytes, and [rr'] is [rr] with the length of the
    payload in [Rdlength]. *)
Inductive rdlength_filled (rr_mk : Z -> option value)
  : option value -> option value -> Prop :=
| rdlength_filled_intro :
    forall sname owner t c ttl rd payload mk,
      sname <> "RR_Header"%string ->
      plain (rr_record sname (rr_header owner t c ttl rd) payload) = true ->
      len (flat_map wire_field payload) < 65536 ->
      rr_mk t = Some mk ->
      blank mk = blank (rr_record sname (rr_header owner t c ttl rd) payload) ->
      rdlength_filled rr_mk
        (Some (rr_record sname (rr_header owner t c ttl rd) payload))
        (Some (rr_record sname
                 (rr_header owner t c ttl (len (flat_map wire_field payload)))
                 payload)).

Definition wire_rr (rr : option value) : list byte :=
  match rr with Some r => wire_value r | None => [] end.

(** An MX record for [example.com.], as a caller would build it, with
    [Rdlength] left at zero. *)
Definition mx_record : value :=
  rr_record "RR_MX" (rr_header (str "example.com.") 15 1 3600 0)
    [Field "Pref" "" (UintValue Uint16 10);
     Field "Mx" "domain-name" (StringValue (str "mail.example.com."))].

Definition mx_record_packed : value :=
  rr_record "RR_MX" (rr_header (str "example.com.") 15 1 3600 20)
    [Field "Pref" "" (UintValue Uint16 10);
     Field "Mx" "domain-name" (StringValue (str "mail.example.com."))].

(** The bytes of a message: the header with the four counts, then the
    questions and the three sections of records. *)
Definition Msg_wire (h : MsgHdr) (qs : list value)
    (an ns ex : list (option value)) : list byte :=
  wire_value (wire_header (Id h) (pack_bits h) (len qs) (len an) (len ns)
                (len ex))
  ++ flat_map wire_value qs
  ++ flat_map wire_rr an ++ flat_map wire_rr ns ++ flat_map wire_rr ex.

(** A response carrying the MX record, and the same message once packed:
    nothing changes but [Rdlength]. *)
Definition mx_msg : Msg :=
  mkMsg (mkMsgHdr 0xBEEF true 0 true false true true false false false 0)
    [question "example.com." 15 1] [Some mx_record] [] [].

Definition mx_msg_packed : Msg :=
  mkMsg (mkMsgHdr 0xBEEF true 0 true false true true false false false 0)
    [question "example.com." 15 1] [Some mx_record_packed] [] [].

(** *** Records without raw data

    A record none of whose string fields, at any depth, is tagged
    ["hex"] or ["base64"]: the two encodings that [unpackStructValue]
    reads up to the end of the record data. *)
Fixpoint safe_tags (v : value) : bool :=
  match v with
  | StructValue _ fs =>
      forallb
        (fun f =>
           match f with
           | Field _ tag fv =>
               match fv with
               | StringValue _ =>
                   negb (String.eqb tag "hex") && negb (String.eqb tag "base64")
               | StructValue _ _ => safe_tags fv
               | _ => true
               end
           end) fs
  | _ => false
  end.

Definition safe_field (f : field) : bool :=
  match f with
  | Field _ tag fv =>
      match fv with
      | StringValue _ =>
          negb (String.eqb tag "hex") && negb (String.eqb tag "base64")
      | StructValue _ _ => safe_tags fv
      | _ => true
      end
  end.

(** The registry without the three types that carry raw data (DS,
    RRSIG and DNSKEY). *)
Definition rr_mk_plain (t : Z) : option value :=
  if (t =? 43) || (t =? 46) || (t =? 48) then None else rr_mk_spec t.

(** *** EDNS options

    An element of a slice tagged ["OPT"]: a struct whose first field is
    an unsigned code and whose second is the data, a string. *)
Definition is_option (e : value) : bool :=
  match e with
  | StructValue _ (Field _ _ (UintValue _ _) :: Field _ _ (StringValue _) :: _) =>
      true
  | _ => false
  end.

(** The bytes an option takes: code, length, data. *)
Definition option_len (e : value) : Z :=
  match e with
  | StructValue _ (Field _ _ (UintValue _ _) :: Field _ _ (StringValue data) :: _) =>
      4 + len data
  | _ => 0
  end.

Definition options_len (elems : list value) : Z :=
  fold_right (fun e n => option_len e + n) 0 elems.



(** * Properties *)

(** ** Bytes and buffers *)

Lemma len_nonneg {A : Type} (l : list A) : 0 <= len l.
Proof. unfold len. lia. Qed.

Lemma b2z_range (b : byte) : 0 <= b2z b < 256.
Proof.
  unfold b2z. pose proof (N_ascii_bounded b) as H. lia.
Qed.

Lemma b2z_z2b (z : Z) : 0 <= z < 256 -> b2z (z2b z) = z.
Proof.
  intros H. unfold b2z, z2b.
  rewrite Z.mod_small by lia.
  rewrite N_ascii_embedding by lia.
  apply Z2N.id. lia.
Qed.

Lemma z2b_b2z (b : byte) : z2b (b2z b) = b.
Proof.
  unfold b2z, z2b. pose proof (N_ascii_bounded b) as H.
  rewrite Z.mod_small by lia.
  rewrite N2Z.id. apply ascii_N_embedding.
Qed.

Lemma index_Some_range {A : Type} (l : list A) (i : Z) (x : A) :
  index l i = Some x -> 0 <= i < len l.
Proof.
  unfold index, len. destruct (Z.ltb_spec i 0); [discriminate|].
  intros H0. assert (Hn : nth_error l (Z.to_nat i) <> None) by congruence.
  apply nth_error_Some in Hn. lia.
Qed.

Lemma index_in_range {A : Type} (l : list A) (i : Z) :
  0 <= i < len l -> exists x, index l i = Some x.
Proof.
  unfold index, len. intros H. destruct (Z.ltb_spec i 0); [lia|].
  destruct (nth_error l (Z.to_nat i)) eqn:E; [eauto|].
  apply nth_error_None in E. lia.
Qed.

(** ** The decoding loop of [unpackDomainName] *)

Lemma top_bits_cases (b : byte) :
  (Z.land (b2z b) 0xC0 = 0 /\ 0 <= b2z b < 64)
  \/ (Z.land (b2z b) 0xC0 = 0x40 /\ 64 <= b2z b < 128)
  \/ (Z.land (b2z b) 0xC0 = 0x80 /\ 128 <= b2z b < 192)
  \/ (Z.land (b2z b) 0xC0 = 0xC0 /\ 192 <= b2z b < 256).
Proof.
  destruct b as [[] [] [] [] [] [] [] []]; vm_compute; intuition congruence.
Qed.

Lemma pointer_target (c c1 : byte) :
  is_pointer c ->
  Z.lor (Z.shiftl (Z.lxor (b2z c) 0xC0) 8) (b2z c1)
  = (b2z c - 192) * 256 + b2z c1.
Proof.
  intros Hp.
  assert (Hx : Z.lxor (b2z c) 0xC0 = b2z c - 192).
  { revert Hp. unfold is_pointer.
    destruct c as [[] [] [] [] [] [] [] []]; vm_compute; congruence. }
  rewrite Hx.
  pose proof (top_bits_cases c) as Hc. unfold is_pointer in Hp.
  pose proof (b2z_range c1) as H1.
  assert (Hr : 0 <= b2z c - 192 < 64) by lia.
  rewrite Z.shiftl_mul_pow2 by lia.
  assert (Hl : Z.land ((b2z c - 192) * 2 ^ 8) (b2z c1) = 0).
  { apply Z.bits_inj'. intros n Hn. rewrite Z.land_spec, Z.bits_0.
    destruct (Z.ltb_spec n 8).
    - rewrite Z.mul_pow2_bits_low by lia. reflexivity.
    - rewrite (Z.bits_above_log2 (b2z c1) n); [apply andb_false_r|lia|].
      destruct (Z.eq_dec (b2z c1) 0) as [->|]; [simpl; lia|].
      apply Z.log2_lt_pow2; [lia|].
      apply Z.lt_le_trans with (2 ^ 8); [simpl; lia|].
      apply Z.pow_le_mono_r; lia. }
  rewrite <- (Z.lxor_lor _ _ Hl), <- (Z.add_nocarry_lxor _ _ Hl).
  reflexivity.
Qed.

Ltac body_ifs :=
  repeat match goal with
    | |- context [if ?a >=? ?b then _ else _] => destruct (Z.geb_spec a b)
    | |- context [if ?a >? ?b then _ else _] => destruct (Z.gtb_spec a b)
    | |- context [if ?a =? ?b then _ else _] => destruct (Z.eqb_spec a b)
    end.

(** What an iteration that goes on has done: read a literal label, or
    followed a pointer. *)
Lemma body_inl (msg : list byte) (st st' : nstate) :
  unpackDomainName_body msg st = inl st' ->
  exists cb, index msg (st_off st) = Some cb /\
    ((0 < b2z cb < 64 /\ st_off st + 1 + b2z cb <= len msg /\
      exists l, slice msg (st_off st + 1) (st_off st + 1 + b2z cb) = Some l /\
        st' = mkNState (st_s st ++ l ++ [dot]) (st_off st + 1 + b2z cb)
                (st_off1 st) (st_ptr st))
     \/ (is_pointer cb /\ st_ptr st + 1 <= 10 /\
         exists c1, index msg (st_off st + 1) = Some c1 /\
           st' = mkNState (st_s st) ((b2z cb - 192) * 256 + b2z c1)
                   (if st_ptr st =? 0 then st_off st + 2 else st_off1 st)
                   (st_ptr st + 1))).
Proof.
  unfold unpackDomainName_body, name_fail.
  destruct (Z.geb_spec (st_off st) (len msg)); [discriminate|].
  destruct (index msg (st_off st)) as [cb|] eqn:Ecb; [|discriminate].
  pose proof (top_bits_cases cb) as Htop. pose proof (b2z_range cb) as Hr.
  destruct (Z.eqb_spec (Z.land (b2z cb) 192) 0) as [E0|E0].
  - destruct (Z.eqb_spec (b2z cb) 0); [discriminate|].
    destruct (Z.gtb_spec (st_off st + 1 + b2z cb) (len msg)); [discriminate|].
    destruct (slice msg (st_off st + 1) (st_off st + 1 + b2z cb)) as [l|] eqn:El;
      [|discriminate].
    intros Hinj. injection Hinj as <-. exists cb. split; [first [exact Ecb|reflexivity]|]. left.
    repeat split; try lia. exists l. split; [first [exact El|reflexivity]|reflexivity].
  - destruct (Z.eqb_spec (Z.land (b2z cb) 192) 192) as [E1|E1]; [|discriminate].
    destruct (Z.geb_spec (st_off st + 1) (len msg)); [discriminate|].
    destruct (index msg (st_off st + 1)) as [c1|] eqn:Ec1; [|discriminate].
    destruct (Z.gtb_spec (st_ptr st + 1) 10); [discriminate|].
    rewrite pointer_target by exact E1.
    intros Hinj. injection Hinj as <-. exists cb. split; [first [exact Ecb|reflexivity]|]. right.
    split; [exact E1|]. split; [lia|]. exists c1. split; [first [exact Ec1|reflexivity]|].
    replace (st_off st + 1 + 1) with (st_off st + 2) by lia. reflexivity.
Qed.

Lemma body_inr_fuel (msg : list byte) (st : nstate) r :
  unpackDomainName_body msg st = inr r -> r <> OutOfFuel.
Proof.
  unfold unpackDomainName_body, name_fail.
  repeat match goal with
    | |- context [if ?b then _ else _] => destruct b
    | |- context [match ?o with Some _ => _ | None => _ end] => destruct o
    end; intros Hinj; inversion Hinj; discriminate.
Qed.

Lemma body_reserved (msg : list byte) (st : nstate) (cb : byte) :
  index msg (st_off st) = Some cb -> reserved cb ->
  unpackDomainName_body msg st = inr (name_fail msg).
Proof.
  intros Hi Hres. pose proof (index_Some_range _ _ _ Hi) as Hrange.
  unfold unpackDomainName_body.
  destruct (Z.geb_spec (st_off st) (len msg)); [lia|].
  rewrite Hi. unfold reserved in Hres.
  destruct (Z.eqb_spec (Z.land (b2z cb) 192) 0); [lia|].
  destruct (Z.eqb_spec (Z.land (b2z cb) 192) 192); [lia|].
  reflexivity.
Qed.

Lemma name_measure_nonneg (msg : list byte) (st : nstate) :
  st_ptr st <= 10 -> 0 <= name_measure msg st.
Proof.
  intros Hp. pose proof (len_nonneg msg) as HL. unfold name_measure.
  assert (HX : 0 <= (11 - st_ptr st) * (len msg + 1))
    by (apply Z.mul_nonneg_nonneg; lia).
  destruct (Z.leb_spec 0 (st_off st));
    destruct (Z.ltb_spec (st_off st) (len msg)); cbn [andb]; lia.
Qed.

(** Every iteration that goes on lowers [name_measure]. *)
Lemma body_decreases (msg : list byte) (st st' : nstate) :
  0 <= st_ptr st <= 10 ->
  unpackDomainName_body msg st = inl st' ->
  0 <= st_ptr st' <= 10 /\ 0 <= name_measure msg st' < name_measure msg st.
Proof.
  intros Hp Hb. apply body_inl in Hb. destruct Hb as (cb & Hi & Hb).
  pose proof (index_Some_range _ _ _ Hi) as Hr.
  pose proof (len_nonneg msg) as HL.
  unfold name_measure.
  assert (HX : 0 <= (10 - st_ptr st) * (len msg + 1))
    by (apply Z.mul_nonneg_nonneg; lia).
  pose proof (top_bits_cases cb) as Htop.
  destruct Hb as [(Hc & Hfit & l & _ & ->) | (Hptr & Hcap & c1 & _ & ->)];
    cbn [st_ptr st_off].
  - split; [lia|].
    replace ((11 - st_ptr st) * (len msg + 1))
      with ((10 - st_ptr st) * (len msg + 1) + (len msg + 1)) by ring.
    destruct (Z.leb_spec 0 (st_off st)); [|lia]; destruct (Z.ltb_spec (st_off st) (len msg)); [|lia]; cbn [andb].
    destruct (Z.leb_spec 0 (st_off st + 1 + b2z cb)); destruct (Z.ltb_spec (st_off st + 1 + b2z cb) (len msg)); cbn [andb]; lia.
  - split; [lia|].
    replace ((11 - st_ptr st) * (len msg + 1))
      with ((10 - st_ptr st) * (len msg + 1) + (len msg + 1)) by ring.
    replace ((11 - (st_ptr st + 1)) * (len msg + 1))
      with ((10 - st_ptr st) * (len msg + 1)) by ring.
    unfold is_pointer in Hptr. pose proof (b2z_range c1) as Hc1.
    destruct (Z.leb_spec 0 (st_off st)); [|lia]; destruct (Z.ltb_spec (st_off st) (len msg)); [|lia]; cbn [andb].
    destruct (Z.leb_spec 0 ((b2z cb - 192) * 256 + b2z c1)); destruct (Z.ltb_spec ((b2z cb - 192) * 256 + b2z c1) (len msg)); cbn [andb]; lia.
Qed.

Lemma loop_enough_fuel (msg : list byte) :
  forall fuel st,
    0 <= st_ptr st <= 10 ->
    name_measure msg st < Z.of_nat fuel ->
    unpackDomainName_loop fuel msg st <> OutOfFuel.
Proof.
  induction fuel as [|fuel IH]; intros st Hp Hm.
  - pose proof (name_measure_nonneg msg st). lia.
  - simpl. destruct (unpackDomainName_body msg st) as [st'|r] eqn:Eb.
    + apply (body_decreases _ _ _ Hp) in Eb. destruct Eb as [Hp' Hm'].
      apply IH; [exact Hp'|lia].
    + eapply body_inr_fuel; eauto.
Qed.

Lemma loop_more_fuel (msg : list byte) :
  forall fuel st fuel',
    unpackDomainName_loop fuel msg st <> OutOfFuel ->
    (fuel <= fuel')%nat ->
    unpackDomainName_loop fuel' msg st = unpackDomainName_loop fuel msg st.
Proof.
  induction fuel as [|fuel IH]; intros st fuel' Hr Hle.
  - simpl in Hr. congruence.
  - destruct fuel' as [|fuel']; [lia|]. simpl in *.
    destruct (unpackDomainName_body msg st); [|reflexivity].
    apply IH; [exact Hr|lia].
Qed.

Lemma init_measure (msg : list byte) (off : Z) :
  name_measure msg (name_init off) < Z.of_nat (name_fuel msg).
Proof.
  unfold name_measure, name_fuel, name_init; cbn [st_ptr st_off].
  pose proof (len_nonneg msg) as HL. unfold len in *.
  rewrite Nat2Z.inj_mul, Nat2Z.inj_add.
  destruct (Z.leb_spec 0 off); destruct (Z.ltb_spec off (Z.of_nat (length msg))); cbn [andb]; lia.
Qed.

Lemma unpackDomainName_terminates (msg : list byte) (off : Z) :
  unpackDomainName msg off <> OutOfFuel.
Proof.
  unfold unpackDomainName. apply loop_enough_fuel.
  - simpl. lia.
  - apply init_measure.
Qed.

(** The states the loop goes through. *)
Lemma run_body_invariant (msg : list byte) :
  forall n st st',
    0 <= st_ptr st <= 10 ->
    run_body n msg st = Some st' ->
    0 <= st_ptr st' <= 10
    /\ name_measure msg st' + Z.of_nat n <= name_measure msg st
    /\ 0 <= name_measure msg st'.
Proof.
  induction n as [|n IH]; intros st st' Hp Hr; simpl in Hr.
  - injection Hr as <-. split; [exact Hp|]. split; [lia|].
    apply name_measure_nonneg. lia.
  - destruct (unpackDomainName_body msg st) as [st1|] eqn:Eb; [|discriminate].
    apply (body_decreases _ _ _ Hp) in Eb. destruct Eb as [Hp1 Hm1].
    destruct (IH _ _ Hp1 Hr) as (Hp' & Hm' & H0). repeat split; lia.
Qed.

Lemma loop_run_body (msg : list byte) :
  forall n st st' fuel,
    run_body n msg st = Some st' ->
    unpackDomainName_loop (n + fuel) msg st = unpackDomainName_loop fuel msg st'.
Proof.
  induction n as [|n IH]; intros st st' fuel Hr; simpl in Hr.
  - injection Hr as <-. reflexivity.
  - simpl. destruct (unpackDomainName_body msg st) as [st1|]; [|discriminate].
    apply IH. exact Hr.
Qed.

(** From a state reached from the initial one, the loop has fuel left for
    one more iteration at least. *)
Lemma unpack_from_reached (msg : list byte) (off : Z) (n : nat) (st : nstate) :
  run_body n msg (name_init off) = Some st ->
  exists fuel, unpackDomainName msg off = unpackDomainName_loop (S fuel) msg st.
Proof.
  intros Hr.
  assert (Hp : 0 <= st_ptr (name_init off) <= 10) by (simpl; lia).
  destruct (run_body_invariant _ _ _ _ Hp Hr) as (_ & Hm & H0).
  pose proof (init_measure msg off) as Hi.
  exists (name_fuel msg - n - 1)%nat.
  unfold unpackDomainName.
  replace (name_fuel msg) with (n + S (name_fuel msg - n - 1))%nat at 1 by lia.
  apply loop_run_body. exact Hr.
Qed.

Lemma slice_in_range {A : Type} (l : list A) (lo hi : Z) :
  0 <= lo <= hi -> hi <= len l -> exists x, slice l lo hi = Some x.
Proof.
  intros H1 H2. unfold slice.
  destruct (Z.leb_spec 0 lo); [|lia].
  destruct (Z.leb_spec lo hi); [|lia].
  destruct (Z.leb_spec hi (len l)); [|lia].
  simpl. eauto.
Qed.

Lemma body_literal (msg : list byte) (st : nstate) (cb : byte) :
  index msg (st_off st) = Some cb ->
  0 < b2z cb < 64 ->
  st_off st + 1 + b2z cb <= len msg ->
  exists l, slice msg (st_off st + 1) (st_off st + 1 + b2z cb) = Some l /\
    unpackDomainName_body msg st
    = inl (mkNState (st_s st ++ l ++ [dot]) (st_off st + 1 + b2z cb)
             (st_off1 st) (st_ptr st)).
Proof.
  intros Hi Hc Hfit. pose proof (index_Some_range _ _ _ Hi) as Hr.
  destruct (slice_in_range msg (st_off st + 1) (st_off st + 1 + b2z cb))
    as [l Hl]; [lia|lia|].
  exists l. split; [exact Hl|].
  unfold unpackDomainName_body.
  destruct (Z.geb_spec (st_off st) (len msg)); [lia|].
  rewrite Hi.
  pose proof (top_bits_cases cb) as Htop.
  destruct (Z.eqb_spec (Z.land (b2z cb) 192) 0); [|lia].
  destruct (Z.eqb_spec (b2z cb) 0); [lia|].
  destruct (Z.gtb_spec (st_off st + 1 + b2z cb) (len msg)); [lia|].
  rewrite Hl. reflexivity.
Qed.

Lemma body_pointer (msg : list byte) (st : nstate) (cb c1 : byte) :
  index msg (st_off st) = Some cb ->
  is_pointer cb ->
  index msg (st_off st + 1) = Some c1 ->
  st_ptr st + 1 <= 10 ->
  unpackDomainName_body msg st
  = inl (mkNState (st_s st) ((b2z cb - 192) * 256 + b2z c1)
           (if st_ptr st =? 0 then st_off st + 2 else st_off1 st)
           (st_ptr st + 1)).
Proof.
  intros Hi Hp Hi1 Hcap.
  pose proof (index_Some_range _ _ _ Hi) as Hr.
  pose proof (index_Some_range _ _ _ Hi1) as Hr1.
  unfold unpackDomainName_body.
  destruct (Z.geb_spec (st_off st) (len msg)); [lia|].
  rewrite Hi. unfold is_pointer in Hp.
  destruct (Z.eqb_spec (Z.land (b2z cb) 192) 0); [lia|].
  destruct (Z.eqb_spec (Z.land (b2z cb) 192) 192); [|lia].
  destruct (Z.geb_spec (st_off st + 1) (len msg)); [lia|].
  rewrite Hi1.
  destruct (Z.gtb_spec (st_ptr st + 1) 10); [lia|].
  rewrite pointer_target by exact Hp.
  replace (st_off st + 1 + 1) with (st_off st + 2) by lia. reflexivity.
Qed.

(** What a successful return hands back as [off1]. *)
Lemma body_inr_ok (msg : list byte) (st : nstate) s o1 :
  unpackDomainName_body msg st = inr (Ret (s, o1, true)) ->
  s = st_s st /\ o1 = (if st_ptr st =? 0 then st_off st + 1 else st_off1 st)
  /\ index msg (st_off st) = Some (z2b 0).
Proof.
  unfold unpackDomainName_body, name_fail.
  destruct (Z.geb_spec (st_off st) (len msg)); [discriminate|].
  destruct (index msg (st_off st)) as [cb|] eqn:Ecb; [|discriminate].
  destruct (Z.eqb_spec (Z.land (b2z cb) 192) 0).
  - destruct (Z.eqb_spec (b2z cb) 0) as [Ez|].
    + intros Hinj. injection Hinj as <- <-. repeat split.
      rewrite <- (z2b_b2z cb), Ez. reflexivity.
    + destruct (Z.gtb_spec (st_off st + 1 + b2z cb) (len msg)); [discriminate|].
      destruct (slice msg (st_off st + 1) (st_off st + 1 + b2z cb)); discriminate.
  - destruct (Z.eqb_spec (Z.land (b2z cb) 192) 192); [|discriminate].
    destruct (Z.geb_spec (st_off st + 1) (len msg)); [discriminate|].
    destruct (index msg (st_off st + 1)); [|discriminate].
    destruct (Z.gtb_spec (st_ptr st + 1) 10); discriminate.
Qed.

(** Once a pointer has been followed, [off1] is settled. *)
Lemma loop_keeps_off1 (msg : list byte) :
  forall fuel st s o1,
    1 <= st_ptr st ->
    unpackDomainName_loop fuel msg st = Ret (s, o1, true) ->
    o1 = st_off1 st.
Proof.
  induction fuel as [|fuel IH]; intros st s o1 Hp Hl; simpl in Hl.
  - discriminate.
  - destruct (unpackDomainName_body msg st) as [st'|r] eqn:Eb.
    + apply body_inl in Eb. destruct Eb as (cb & _ & Eb).
      destruct Eb as [(_ & _ & l & _ & ->) | (_ & _ & c1 & _ & ->)];
        apply IH in Hl; cbn [st_ptr st_off1] in *; try lia.
      destruct (Z.eqb_spec (st_ptr st) 0); [lia|exact Hl].
    + subst r. apply body_inr_ok in Eb. destruct Eb as (_ & -> & _).
      destruct (Z.eqb_spec (st_ptr st) 0); [lia|reflexivity].
Qed.

Lemma run_body_snoc (msg : list byte) :
  forall n st st1 st2,
    run_body n msg st = Some st1 ->
    unpackDomainName_body msg st1 = inl st2 ->
    run_body (S n) msg st = Some st2.
Proof.
  induction n as [|n IH]; intros st st1 st2 Hr Hb; simpl in Hr.
  - injection Hr as <-. simpl. rewrite Hb. reflexivity.
  - cbn [run_body].
    destruct (unpackDomainName_body msg st) as [st'|]; [|discriminate].
    eapply IH; eauto.
Qed.

(** *** Walks and cycles *)

(** An iteration from any state reads the same bytes as [next_off]; it
    differs only by the cap on pointers. *)
Lemma next_off_body (msg : list byte) (st : nstate) (o : Z) :
  next_off msg (st_off st) = Some o ->
  unpackDomainName_body msg st = inr (name_fail msg)
  \/ exists st', unpackDomainName_body msg st = inl st' /\ st_off st' = o.
Proof.
  unfold next_off.
  destruct (unpackDomainName_body msg (name_init (st_off st))) as [st0|] eqn:E0;
    [|discriminate].
  intros Hinj. injection Hinj as <-.
  apply body_inl in E0. cbn [name_init st_off st_s st_off1 st_ptr] in E0.
  destruct E0 as (cb & Hi & [(Hc & Hfit & l & Hl & ->) | (Hp & _ & c1 & Hi1 & ->)]).
  - right. destruct (body_literal msg st cb Hi Hc Hfit) as (l' & _ & Hb).
    eexists. split; [exact Hb|]. reflexivity.
  - destruct (Z.gtb_spec (st_ptr st + 1) 10) as [Hcap|Hcap].
    + left. pose proof (index_Some_range _ _ _ Hi) as Hr.
      pose proof (index_Some_range _ _ _ Hi1) as Hr1.
      unfold unpackDomainName_body.
      destruct (Z.geb_spec (st_off st) (len msg)); [lia|].
      rewrite Hi. unfold is_pointer in Hp.
      destruct (Z.eqb_spec (Z.land (b2z cb) 192) 0); [lia|].
      destruct (Z.eqb_spec (Z.land (b2z cb) 192) 192); [|lia].
      destruct (Z.geb_spec (st_off st + 1) (len msg)); [lia|].
      rewrite Hi1.
      destruct (Z.gtb_spec (st_ptr st + 1) 10); [reflexivity|lia].
    + right. eexists. split; [apply (body_pointer msg st cb c1 Hi Hp Hi1); lia|].
      reflexivity.
Qed.

Lemma walk_add (msg : list byte) :
  forall a b off,
    walk (a + b) msg off
    = match walk a msg off with Some o => walk b msg o | None => None end.
Proof.
  induction a as [|a IH]; intros b off; simpl.
  - reflexivity.
  - destruct (next_off msg off); [apply IH|reflexivity].
Qed.

Lemma walk_prefix (msg : list byte) (a b : nat) (off : Z) :
  (a <= b)%nat -> walk b msg off <> None -> walk a msg off <> None.
Proof.
  intros Hle Hb Ha. apply Hb.
  replace b with (a + (b - a))%nat by lia.
  rewrite walk_add, Ha. reflexivity.
Qed.

Lemma period_never_stops (msg : list byte) (k : nat) (o : Z) :
  walk (S k) msg o = Some o -> forall j, walk j msg o <> None.
Proof.
  intros Hper j. induction j as [j IH] using lt_wf_ind.
  destruct (Nat.le_gt_cases j (S k)) as [Hle|Hgt].
  - apply (walk_prefix msg j (S k) o Hle). congruence.
  - replace j with (S k + (j - S k))%nat by lia.
    rewrite walk_add, Hper. apply IH. lia.
Qed.

Lemma cycle_never_stops (msg : list byte) (off : Z) :
  pointer_cycle msg off -> forall m, walk m msg off <> None.
Proof.
  intros (n & k & o & Hn & Hper) m.
  destruct (Nat.le_gt_cases m n) as [Hle|Hgt].
  - apply (walk_prefix msg m n off Hle). congruence.
  - replace m with (n + (m - n))%nat by lia.
    rewrite walk_add, Hn. apply (period_never_stops msg k o Hper).
Qed.

Lemma never_stops_loop (msg : list byte) :
  forall fuel st,
    (forall n, walk n msg (st_off st) <> None) ->
    unpackDomainName_loop fuel msg st = OutOfFuel
    \/ unpackDomainName_loop fuel msg st = name_fail msg.
Proof.
  induction fuel as [|fuel IH]; intros st Hw.
  - left. reflexivity.
  - cbn [unpackDomainName_loop].
    destruct (next_off msg (st_off st)) as [o|] eqn:En.
    + destruct (next_off_body msg st o En) as [Hb | (st' & Hb & Ho)];
        rewrite Hb.
      * right. reflexivity.
      * apply IH. intros n. subst o.
        specialize (Hw (S n)). simpl in Hw. rewrite En in Hw. exact Hw.
    + exfalso. apply (Hw 1%nat). simpl. rewrite En. reflexivity.
Qed.

(** ** The claims on [unpackDomainName] *)

(** C4: [unpackDomainName] returns on every buffer and offset, within
    [name_fuel] iterations; it follows at most ten pointers; and on a name
    that runs into a pointer cycle, such as [C0 02 C0 00] at offset 0, it
    returns [ok = false]. *)
Theorem C4_terminates_and_rejects_cycles :
  (forall msg off,
      unpackDomainName msg off <> OutOfFuel
      /\ (forall fuel, (name_fuel msg <= fuel)%nat ->
            unpackDomainName_loop fuel msg (name_init off)
            = unpackDomainName msg off)
      /\ (forall n st, run_body n msg (name_init off) = Some st ->
            0 <= st_ptr st <= 10)
      /\ (pointer_cycle msg off ->
            unpackDomainName msg off = Ret ([], len msg, false)))
  /\ pointer_cycle s3_bytes 0
  /\ unpackDomainName s3_bytes 0 = Ret ([], 4, false).
Proof.
  split; [|split].
  - intros msg off. pose proof (unpackDomainName_terminates msg off) as Ht.
    split; [exact Ht|]. split; [|split].
    + intros fuel Hle. unfold unpackDomainName in *.
      apply loop_more_fuel; assumption.
    + intros n st Hr.
      apply (run_body_invariant msg n (name_init off) st); [simpl; lia|exact Hr].
    + intros Hc.
      destruct (never_stops_loop msg (name_fuel msg) (name_init off)
                  (cycle_never_stops msg off Hc)) as [Hn|Hn].
      * exfalso. apply Ht. exact Hn.
      * exact Hn.
  - exists 0%nat, 1%nat, 0. split; vm_compute; reflexivity.
  - vm_compute. reflexivity.
Qed.

Lemma C4_witness :
  pointer_cycle s3_bytes 0
  /\ unpackDomainName s3_bytes 0 = Ret ([], len s3_bytes, false).
Proof.
  assert (Hc : pointer_cycle s3_bytes 0).
  { exists 0%nat, 1%nat, 0. split; vm_compute; reflexivity. }
  split; [exact Hc|].
  destruct (proj1 C4_terminates_and_rejects_cycles s3_bytes 0)
    as (_ & _ & _ & Hcyc).
  apply Hcyc. exact Hc.
Defined.

(** C9: when the loop reads, at a label-length position of the name, a
    byte whose top two bits are 01 or 10, [unpackDomainName] returns
    [ok = false]. *)
Theorem C9_reserved_bits_rejected :
  forall msg off n st cb,
    run_body n msg (name_init off) = Some st ->
    index msg (st_off st) = Some cb ->
    reserved cb ->
    unpackDomainName msg off = Ret ([], len msg, false).
Proof.
  intros msg off n st cb Hr Hi Hres.
  destruct (unpack_from_reached msg off n st Hr) as (fuel & ->).
  cbn [unpackDomainName_loop].
  rewrite (body_reserved msg st cb Hi Hres). reflexivity.
Qed.

Lemma C9_witness :
  (reserved (z2b 0x80)
   /\ unpackDomainName (s4_bytes 0x80) 0 = Ret ([], len (s4_bytes 0x80), false))
  /\ (reserved (z2b 0x40)
      /\ unpackDomainName (s4_bytes 0x40) 0
         = Ret ([], len (s4_bytes 0x40), false)).
Proof.
  split; (split; [vm_compute; auto|]).
  - apply (C9_reserved_bits_rejected (s4_bytes 0x80) 0 1%nat
             (mkNState (str "foo.") 4 0 0) (z2b 0x80)).
    + vm_compute. reflexivity.
    + vm_compute. reflexivity.
    + vm_compute. auto.
  - apply (C9_reserved_bits_rejected (s4_bytes 0x40) 0 1%nat
             (mkNState (str "foo.") 4 0 0) (z2b 0x40)).
    + vm_compute. reflexivity.
    + vm_compute. reflexivity.
    + vm_compute. auto.
Defined.

(** ** Writing into a buffer *)

Lemma len_app {A : Type} (a b : list A) : len (a ++ b) = len a + len b.
Proof. unfold len. rewrite length_app. lia. Qed.

Lemma len_cons {A : Type} (x : A) (l : list A) : len (x :: l) = 1 + len l.
Proof. unfold len. simpl length. lia. Qed.

Lemma len_write (msg : list byte) (off : Z) (bs : list byte) :
  0 <= off -> off + len bs <= len msg -> len (write msg off bs) = len msg.
Proof.
  unfold write, len. intros H0 H1.
  rewrite !length_app, length_firstn, length_skipn. lia.
Qed.

Lemma write_nil (msg : list byte) (off : Z) : write msg off [] = msg.
Proof.
  unfold write. simpl. rewrite Nat.add_0_r. apply firstn_skipn.
Qed.

Lemma firstn_length_app {A : Type} (x y : list A) :
  firstn (length x) (x ++ y) = x.
Proof. induction x as [|a x IH]; simpl; [destruct y|rewrite IH]; reflexivity. Qed.

Lemma skipn_length_app {A : Type} (x y : list A) (k : nat) :
  skipn (length x + k) (x ++ y) = skipn k y.
Proof. induction x as [|a x IH]; simpl; [reflexivity|exact IH]. Qed.

Lemma write_write (msg : list byte) (off : Z) (a b : list byte) :
  0 <= off -> off + len a <= len msg ->
  write (write msg off a) (off + len a) b = write msg off (a ++ b).
Proof.
  intros H0 H1. unfold write, len in *.
  assert (Hf : length (firstn (Z.to_nat off) msg) = Z.to_nat off)
    by (rewrite length_firstn; lia).
  set (F := firstn (Z.to_nat off) msg) in *.
  assert (HX : Z.to_nat (off + Z.of_nat (length a)) = length (F ++ a))
    by (rewrite length_app, Hf; lia).
  rewrite HX.
  rewrite (app_assoc F a (skipn _ msg)).
  rewrite firstn_length_app, skipn_length_app, skipn_skipn.
  rewrite <- !app_assoc. do 3 f_equal.
  rewrite ?length_app, ?Hf. f_equal. lia.
Qed.

Lemma store_write (msg : list byte) (off : Z) (b : byte) :
  0 <= off < len msg -> store msg off b = Some (write msg off [b]).
Proof.
  intros H. unfold store, write.
  destruct (Z.leb_spec 0 off); [|lia].
  destruct (Z.ltb_spec off (len msg)); [|lia].
  cbn [andb app length].
  replace (Z.to_nat (off + 1)) with (Z.to_nat off + 1)%nat by lia.
  reflexivity.
Qed.

Lemma skipn_write (msg : list byte) (off : Z) (bs : list byte) :
  0 <= off <= len msg ->
  skipn (Z.to_nat off) (write msg off bs)
  = bs ++ skipn (Z.to_nat off + length bs) msg.
Proof.
  intros H. unfold write, len in *.
  rewrite skipn_app, skipn_all2 by (rewrite length_firstn; lia).
  rewrite length_firstn.
  replace (Z.to_nat off - Nat.min (Z.to_nat off) (length msg))%nat with O by lia.
  reflexivity.
Qed.

Lemma firstn_write (msg : list byte) (off : Z) (bs : list byte) :
  0 <= off <= len msg ->
  firstn (Z.to_nat off) (write msg off bs) = firstn (Z.to_nat off) msg.
Proof.
  intros H. unfold write, len in *.
  rewrite firstn_app, length_firstn.
  replace (Z.to_nat off - Nat.min (Z.to_nat off) (length msg))%nat with O by lia.
  rewrite firstn_O, app_nil_r. apply firstn_all2. rewrite length_firstn. lia.
Qed.

Lemma index_app_here {A : Type} (a : list A) (c : A) (r : list A) :
  index (a ++ c :: r) (len a) = Some c.
Proof.
  unfold index, len. destruct (Z.ltb_spec (Z.of_nat (length a)) 0); [lia|].
  rewrite Nat2Z.id, nth_error_app2, Nat.sub_diag by lia. reflexivity.
Qed.

Lemma index_skipn {A : Type} (l : list A) (i : Z) (c : A) (r : list A) :
  0 <= i -> skipn (Z.to_nat i) l = c :: r -> index l i = Some c.
Proof.
  intros Hi Hs. unfold index. destruct (Z.ltb_spec i 0); [lia|].
  rewrite <- (firstn_skipn (Z.to_nat i) l), Hs.
  assert (Hl : (Z.to_nat i <= length l)%nat).
  { destruct (Nat.le_gt_cases (Z.to_nat i) (length l)); [assumption|].
    rewrite skipn_all2 in Hs by lia. discriminate. }
  rewrite nth_error_app2 by (rewrite length_firstn; lia).
  rewrite length_firstn.
  replace (Z.to_nat i - Nat.min (Z.to_nat i) (length l))%nat with O by lia.
  reflexivity.
Qed.

Lemma same_below_refl (off : Z) (m : list byte) : same_below off m m.
Proof. split; reflexivity. Qed.

Lemma same_below_trans (off : Z) (a b c : list byte) :
  same_below off a b -> same_below off b c -> same_below off a c.
Proof. intros [H1 H2] [H3 H4]. split; congruence. Qed.

Lemma same_below_le (off off' : Z) (a b : list byte) :
  off <= off' -> same_below off' a b -> same_below off a b.
Proof.
  intros Hle [H1 H2]. split; [exact H1|].
  destruct (Z.le_gt_cases off 0) as [Hneg|Hpos].
  - replace (Z.to_nat off) with O by lia. reflexivity.
  - replace (Z.to_nat off) with (Nat.min (Z.to_nat off) (Z.to_nat off')) by lia.
    rewrite <- !firstn_firstn. rewrite H2. reflexivity.
Qed.

Lemma same_below_write (off o : Z) (m bs : list byte) :
  off <= o -> 0 <= o -> o + len bs <= len m -> same_below off m (write m o bs).
Proof.
  intros Hle H0 Hfit. apply (same_below_le off o); [exact Hle|].
  pose proof (len_nonneg bs).
  split; [apply len_write; lia|apply firstn_write; lia].
Qed.

Lemma same_below_store (off i : Z) (m m' : list byte) (b : byte) :
  off <= i -> store m i b = Some m' -> same_below off m m' /\ 0 <= i < len m.
Proof.
  intros Hle Hs.
  assert (Hr : 0 <= i < len m).
  { unfold store in Hs.
    destruct (Z.leb_spec 0 i); destruct (Z.ltb_spec i (len m));
      cbn [andb] in Hs; try discriminate. lia. }
  split; [|exact Hr].
  rewrite store_write in Hs by exact Hr. injection Hs as <-.
  apply same_below_write; [exact Hle|lia|]. unfold len at 1. simpl. lia.
Qed.

Lemma same_below_copy (off o n : Z) (m m' src : list byte) :
  off <= o -> copy_into m o n src = Some m' ->
  same_below off m m' /\ 0 <= o /\ 0 <= n /\ o + n <= len m.
Proof.
  intros Hle Hc. unfold copy_into, slice in Hc.
  destruct (Z.leb_spec 0 o); destruct (Z.leb_spec o (o + n));
    destruct (Z.leb_spec (o + n) (len m)); cbn [andb] in Hc; try discriminate.
  injection Hc as <-. split; [|lia].
  change (same_below off m (write m o (firstn (Z.to_nat n) src))).
  apply same_below_write; [exact Hle|lia|].
  unfold len in *. rewrite length_firstn. lia.
Qed.

Lemma nth_error_firstn_lt {A : Type} :
  forall n (l : list A) i,
    (i < n)%nat -> nth_error (firstn n l) i = nth_error l i.
Proof.
  induction n as [|n IH]; intros [|x l] [|i] H; simpl; try lia; auto.
  apply IH. lia.
Qed.

Lemma same_below_index (off i : Z) (m m' : list byte) :
  same_below off m m' -> 0 <= i < off -> index m' i = index m i.
Proof.
  intros [_ Hf] Hi. unfold index. destruct (Z.ltb_spec i 0); [lia|].
  rewrite <- (nth_error_firstn_lt (Z.to_nat off) m') by lia.
  rewrite <- (nth_error_firstn_lt (Z.to_nat off) m) by lia.
  rewrite Hf. reflexivity.
Qed.

(** ** The encoding loop of [packDomainName] *)

Ltac len_lia :=
  unfold len in *; cbn [encode_labels flat_map] in *;
  repeat progress (rewrite ?length_app in *; cbn [length] in * );
  lia.

Lemma packLabel_spec :
  forall cur pre tail msg off,
    0 <= off -> off + len cur <= len msg ->
    packLabel (length cur) (pre ++ cur ++ tail) (len pre) msg off
    = Ret (write msg off cur, off + len cur).
Proof.
  induction cur as [|c cur IH]; intros pre tail msg off H0 H1.
  - simpl. rewrite write_nil. f_equal. f_equal. len_lia.
  - cbn [packLabel length].
    change ((c :: cur) ++ tail) with (c :: cur ++ tail).
    rewrite index_app_here. cbn [lift bind].
    rewrite store_write by len_lia. cbn [lift bind].
    replace (pre ++ c :: cur ++ tail) with ((pre ++ [c]) ++ cur ++ tail)
      by (rewrite <- app_assoc; reflexivity).
    replace (len pre + 1) with (len (pre ++ [c])) by len_lia.
    rewrite IH.
    + replace (off + 1) with (off + len [c]) by len_lia.
      rewrite write_write by len_lia.
      f_equal. f_equal. len_lia.
    + lia.
    + rewrite len_write by len_lia. len_lia.
Qed.

Lemma encode_labels_len (rest : gostring) :
  forall cur, len (encode_labels (split_dots cur rest)) <= len cur + len rest.
Proof.
  induction rest as [|c rest IH]; intros cur; cbn [split_dots].
  - len_lia.
  - destruct (is_dot c).
    + specialize (IH []). cbn [encode_labels flat_map].
      fold (encode_labels (split_dots [] rest)). len_lia.
    + specialize (IH (cur ++ [c])). len_lia.
Qed.

(** The loop writes the labels that the dots end, as long as they are
    short, and gives up at the first label of 64 bytes or more. *)
Lemma pack_loop_spec :
  forall rest pre cur msg off,
    0 <= off -> off + len cur + len rest <= len msg ->
    exists m, same_below off msg m /\
      packDomainName_loop (length rest) (pre ++ cur ++ rest)
        (len pre + len cur) (len pre) msg off
      = if forallb short (split_dots cur rest)
        then Ret (write msg off (encode_labels (split_dots cur rest)),
                  off + len (encode_labels (split_dots cur rest)), true)
        else Ret (m, len msg, false).
Proof.
  induction rest as [|c rest IH]; intros pre cur msg off H0 H1.
  - exists msg. split; [apply same_below_refl|]. simpl.
    rewrite write_nil. f_equal. f_equal. f_equal. len_lia.
  - cbn [packDomainName_loop length split_dots].
    replace (pre ++ cur ++ c :: rest) with ((pre ++ cur) ++ c :: rest)
      by (rewrite <- app_assoc; reflexivity).
    replace (len pre + len cur) with (len (pre ++ cur)) by len_lia.
    rewrite index_app_here. cbn [lift bind].
    destruct (is_dot c) eqn:Ed.
    + cbn [forallb]. unfold short at 1.
      replace (len (pre ++ cur) - len pre) with (len cur) by len_lia.
      destruct (Z.geb_spec (len cur) 64) as [Hlong|Hshort].
      * destruct (Z.ltb_spec (len cur) 64); [lia|]. cbn [andb].
        exists msg. split; [apply same_below_refl|reflexivity].
      * destruct (Z.ltb_spec (len cur) 64); [|lia]. cbn [andb].
        rewrite store_write by len_lia. cbn [lift bind].
        set (msg1 := write msg off [z2b (len cur)]).
        assert (Hl1 : len msg1 = len msg).
        { apply len_write; len_lia. }
        replace (Z.to_nat (len cur)) with (length cur) by len_lia.
        replace ((pre ++ cur) ++ c :: rest) with (pre ++ cur ++ c :: rest)
          by (rewrite <- app_assoc; reflexivity).
        rewrite packLabel_spec by len_lia. cbn [bind].
        set (msg2 := write msg1 (off + 1) cur).
        assert (Hl2 : len msg2 = len msg).
        { unfold msg2. rewrite len_write; len_lia. }
        assert (Hm2 : msg2 = write msg off (z2b (len cur) :: cur)).
        { unfold msg2, msg1.
          replace (off + 1) with (off + len [z2b (len cur)]) by len_lia.
          rewrite write_write; [reflexivity|lia|len_lia]. }
        destruct (IH (pre ++ cur ++ [c]) [] msg2 (off + 1 + len cur))
          as (m & Hm & Hloop); [len_lia|len_lia|].
        replace ((pre ++ cur ++ [c]) ++ [] ++ rest)
          with (pre ++ cur ++ c :: rest) in Hloop
          by (rewrite <- !app_assoc; reflexivity).
        replace (len (pre ++ cur ++ [c]) + len (@nil byte))
          with (len (pre ++ cur) + 1) in Hloop by len_lia.
        replace (len (pre ++ cur ++ [c])) with (len (pre ++ cur) + 1) in Hloop
          by len_lia.
        exists m. split.
        { apply (same_below_trans off msg msg2 m).
          - rewrite Hm2. apply same_below_write; [lia|lia|len_lia].
          - apply (same_below_le off (off + 1 + len cur)); [len_lia|exact Hm]. }
        rewrite Hloop.
        destruct (forallb short (split_dots [] rest)); [|rewrite Hl2; reflexivity].
        cbn [encode_labels flat_map].
        fold (encode_labels (split_dots [] rest)).
        rewrite Hm2.
        replace (off + 1 + len cur) with (off + len (z2b (len cur) :: cur))
          by len_lia.
        rewrite write_write; [|lia|len_lia].
        change ((z2b (len cur) :: cur) ++ encode_labels (split_dots [] rest))
          with (z2b (len cur) :: cur ++ encode_labels (split_dots [] rest)).
        f_equal. f_equal. f_equal. len_lia.
    + destruct (IH pre (cur ++ [c]) msg off) as (m & Hm & Hloop);
        [len_lia|len_lia|].
      replace (pre ++ (cur ++ [c]) ++ rest) with ((pre ++ cur) ++ c :: rest)
        in Hloop by (rewrite <- !app_assoc; reflexivity).
      replace (len pre + len (cur ++ [c])) with (len (pre ++ cur) + 1) in Hloop
        by len_lia.
      exists m. split; [exact Hm|exact Hloop].
Qed.

Lemma is_dot_true (c : byte) : is_dot c = true <-> c = dot.
Proof. unfold is_dot. apply Ascii.eqb_eq. Qed.

Lemma is_dot_dot : is_dot dot = true.
Proof. reflexivity. Qed.

(** A name either ends with a dot and is canonical, or gets one. *)
Lemma canon_cases (s : gostring) :
  (canon s = s /\ exists r, s = r ++ [dot])
  \/ (canon s = s ++ [dot] /\ forall r, s <> r ++ [dot]).
Proof.
  unfold canon. induction s as [|c r _] using rev_ind.
  - right. split; [reflexivity|]. intros r H. destruct r; discriminate.
  - replace (len (r ++ [c]) - 1) with (len r) by len_lia.
    rewrite index_app_here.
    destruct (is_dot c) eqn:Ed.
    + apply is_dot_true in Ed. subst c. left. split; eauto.
    + right. split; [reflexivity|]. intros r' H.
      apply app_inj_tail in H. destruct H as [_ ->].
      rewrite is_dot_dot in Ed. discriminate.
Qed.

Lemma canon_ends (s : gostring) : exists r, canon s = r ++ [dot].
Proof.
  destruct (canon_cases s) as [(-> & r & Hr) | (-> & _)]; eauto.
Qed.

Lemma encode_labels_app (a b : list gostring) :
  encode_labels (a ++ b) = encode_labels a ++ encode_labels b.
Proof. unfold encode_labels. apply flat_map_app. Qed.

Lemma join_labels_app (a b : list gostring) :
  join_labels (a ++ b) = join_labels a ++ join_labels b.
Proof. unfold join_labels. apply flat_map_app. Qed.

Lemma encode_join_len (ls : list gostring) :
  len (encode_labels ls) = len (join_labels ls).
Proof.
  induction ls as [|l ls IH]; [reflexivity|].
  unfold encode_labels, join_labels, len in *. cbn [flat_map length].
  rewrite !length_app. cbn [length]. lia.
Qed.

(** Joining the labels of a dot-terminated text gives the text back. *)
Lemma join_split (r : gostring) :
  forall cur, join_labels (split_dots cur (r ++ [dot])) = cur ++ r ++ [dot].
Proof.
  induction r as [|c r IH]; intros cur.
  - simpl. rewrite app_nil_r. reflexivity.
  - cbn [app split_dots]. destruct (is_dot c) eqn:Ed.
    + apply is_dot_true in Ed. subst c.
      cbn [join_labels flat_map]. fold (join_labels (split_dots [] (r ++ [dot]))).
      rewrite IH. rewrite <- app_assoc. reflexivity.
    + rewrite IH. rewrite <- app_assoc. reflexivity.
Qed.

Lemma join_labels_canon (s : gostring) : join_labels (labels s) = canon s.
Proof.
  unfold labels. destruct (canon_ends s) as (r & ->). apply join_split.
Qed.

Lemma wire_len_canon (s : gostring) :
  len (encode_labels (labels s)) = len (canon s).
Proof. rewrite encode_join_len, join_labels_canon. reflexivity. Qed.

(** [packDomainName] on a name whose labels are all short, in a buffer
    with room for it. *)
Lemma packDomainName_ok (s : gostring) (msg : list byte) (off : Z) :
  0 <= off ->
  off + len (canon s) + 1 <= len msg ->
  forallb short (labels s) = true ->
  packDomainName s msg off
  = Ret (write msg off (wire_name s), off + len (wire_name s), true).
Proof.
  intros H0 Hroom Hshort. unfold packDomainName.
  destruct (Z.gtb_spec (off + (len (canon s) + 1)) (len msg)); [lia|].
  destruct (pack_loop_spec (canon s) [] [] msg off) as (m & _ & Hloop);
    [lia|len_lia|].
  cbn [app] in Hloop. change (len (@nil byte) + len (@nil byte)) with 0 in Hloop.
  change (len (@nil byte)) with 0 in Hloop.
  rewrite Hloop. fold (labels s). rewrite Hshort. cbn [bind negb].
  unfold wire_name.
  pose proof (wire_len_canon s) as Hlen.
  destruct (list_eq_dec ascii_dec (canon s) [dot]) as [Hroot|Hroot].
  - unfold labels. rewrite Hroot. reflexivity.
  - rewrite store_write.
    + cbn [lift bind].
      rewrite write_write by lia.
      rewrite len_app. change (len [z2b 0]) with 1.
      f_equal. f_equal. f_equal. lia.
    + pose proof (len_nonneg (canon s)).
      rewrite len_write by lia. lia.
Qed.

(** [packDomainName] on a name with a label of 64 bytes or more. *)
Lemma packDomainName_long (s : gostring) (msg : list byte) (off : Z) :
  0 <= off ->
  forallb short (labels s) = false ->
  exists m, packDomainName s msg off = Ret (m, len msg, false).
Proof.
  intros H0 Hlong. unfold packDomainName.
  destruct (Z.gtb_spec (off + (len (canon s) + 1)) (len msg)); [eauto|].
  destruct (pack_loop_spec (canon s) [] [] msg off) as (m & _ & Hloop);
    [lia|len_lia|].
  cbn [app] in Hloop. change (len (@nil byte) + len (@nil byte)) with 0 in Hloop.
  change (len (@nil byte)) with 0 in Hloop.
  rewrite Hloop. fold (labels s). rewrite Hlong. cbn [bind negb].
  eauto.
Qed.

Lemma forallb_short_false (ls : list gostring) :
  Exists (fun l => 63 < len l) ls -> forallb short ls = false.
Proof.
  intros H. induction H as [l ls Hl | l ls _ IH]; cbn [forallb].
  - unfold short. destruct (Z.ltb_spec (len l) 64); [lia|reflexivity].
  - rewrite IH. apply andb_false_r.
Qed.

Lemma forallb_short_true (ls : list gostring) :
  Forall (fun l => len l <= 63) ls -> forallb short ls = true.
Proof.
  intros H. induction H as [|l ls Hl _ IH]; cbn [forallb]; [reflexivity|].
  rewrite IH. unfold short. destruct (Z.ltb_spec (len l) 64); [reflexivity|lia].
Qed.

(** ** The claims on [packDomainName] *)

(** C5, as the code has it: a name with a label of more than 63 bytes is
    refused with [ok = false] and [off1 = len(msg)]; a name whose labels
    are all at most 63 bytes long is packed whenever the buffer has room
    for it, whatever the length of its wire encoding. *)
Theorem C5_label_bound_only :
  forall s msg off,
    0 <= off ->
    (Exists (fun l => 63 < len l) (labels s) ->
     exists m, packDomainName s msg off = Ret (m, len msg, false))
    /\ (Forall (fun l => len l <= 63) (labels s) ->
        off + len (canon s) + 1 <= len msg ->
        packDomainName s msg off
        = Ret (write msg off (wire_name s), off + len (wire_name s), true)).
Proof.
  intros s msg off H0. split.
  - intros Hlong. apply packDomainName_long; [exact H0|].
    apply forallb_short_false. exact Hlong.
  - intros Hshort Hroom. apply packDomainName_ok; [exact H0|exact Hroom|].
    apply forallb_short_true. exact Hshort.
Qed.

Lemma C5_witness :
  Exists (fun l => 63 < len l) (labels label64_name)
  /\ exists m,
      packDomainName label64_name (zero_buf 100) 0
      = Ret (m, len (zero_buf 100), false).
Proof.
  assert (Hl : Exists (fun l => 63 < len l) (labels label64_name)).
  { assert (E : labels label64_name = [label64_name])
      by (vm_compute; reflexivity).
    rewrite E. apply Exists_cons_hd. vm_compute. reflexivity. }
  split; [exact Hl|].
  apply (proj1 (C5_label_bound_only label64_name (zero_buf 100) 0 ltac:(lia))).
  exact Hl.
Defined.

(** C5 as stated fails: a name of five labels of sixty bytes takes 306
    bytes on the wire and is packed with [ok = true]. *)
Lemma C5_counterexample :
  255 < len (wire_name long_name)
  /\ packDomainName long_name (zero_buf 512) 0
     = Ret (write (zero_buf 512) 0 (wire_name long_name), 306, true).
Proof.
  split; vm_compute; reflexivity.
Qed.

(** ** Decoding what [packDomainName] wrote *)

Lemma skipn_Z {A : Type} (l : list A) (off k : Z) :
  0 <= off -> 0 <= k ->
  skipn (Z.to_nat (off + k)) l = skipn (Z.to_nat k) (skipn (Z.to_nat off) l).
Proof.
  intros H0 Hk. rewrite skipn_skipn. f_equal. lia.
Qed.

Lemma skipn_cons_len {A : Type} (l : list A) (off : Z) (x : A) (r : list A) :
  0 <= off -> skipn (Z.to_nat off) l = x :: r ->
  off + 1 + len r = len l.
Proof.
  intros H0 Hs. pose proof (f_equal (@length A) Hs) as Hl.
  rewrite length_skipn in Hl. cbn [length] in Hl. unfold len. lia.
Qed.

Lemma body_zero (msg : list byte) (st : nstate) :
  index msg (st_off st) = Some (z2b 0) ->
  unpackDomainName_body msg st
  = inr (Ret (st_s st,
              (if st_ptr st =? 0 then st_off st + 1 else st_off1 st), true)).
Proof.
  intros Hi. pose proof (index_Some_range _ _ _ Hi) as Hr.
  unfold unpackDomainName_body.
  destruct (Z.geb_spec (st_off st) (len msg)); [lia|].
  rewrite Hi. reflexivity.
Qed.

(** The loop reads back non-empty short labels up to the zero byte. *)
Lemma unpack_labels :
  forall ls msg s off o1 ptr fuel tail,
    Forall (fun l => 0 < len l < 64) ls ->
    0 <= off ->
    skipn (Z.to_nat off) msg = encode_labels ls ++ z2b 0 :: tail ->
    (length ls < fuel)%nat ->
    unpackDomainName_loop fuel msg (mkNState s off o1 ptr)
    = Ret (s ++ join_labels ls,
           (if ptr =? 0 then off + len (encode_labels ls) + 1 else o1), true).
Proof.
  induction ls as [|l ls IH]; intros msg s off o1 ptr fuel tail Hall H0 Hs Hf.
  - destruct fuel as [|fuel]; [simpl in Hf; lia|].
    cbn [unpackDomainName_loop].
    cbn [encode_labels flat_map app] in Hs.
    rewrite body_zero by (apply (index_skipn _ _ _ _ H0 Hs)).
    cbn [st_s st_off st_off1 st_ptr join_labels flat_map].
    rewrite app_nil_r. change (len (encode_labels [])) with 0.
    rewrite Z.add_0_r. reflexivity.
  - destruct fuel as [|fuel]; [simpl in Hf; lia|].
    inversion Hall as [|? ? Hl Hall']; subst.
    cbn [encode_labels flat_map] in Hs. fold (encode_labels ls) in Hs.
    rewrite <- app_assoc, <- app_comm_cons in Hs.
    pose proof (index_skipn _ _ _ _ H0 Hs) as Hi.
    pose proof (skipn_cons_len _ _ _ _ H0 Hs) as Hlen.
    rewrite !len_app, len_cons in Hlen.
    pose proof (len_nonneg (encode_labels ls)). pose proof (len_nonneg tail).
    assert (Hb : b2z (z2b (len l)) = len l) by (apply b2z_z2b; lia).
    assert (Hsk : skipn (Z.to_nat (off + 1)) msg
                  = l ++ encode_labels ls ++ z2b 0 :: tail).
    { rewrite skipn_Z by lia. rewrite Hs. reflexivity. }
    destruct (body_literal msg (mkNState s off o1 ptr) (z2b (len l)))
      as (l' & Hsl & Hbody); cbn [st_s st_off st_off1 st_ptr];
      [exact Hi|lia|lia|].
    cbn [st_s st_off st_off1 st_ptr] in *. rewrite Hb in *.
    assert (l' = l).
    { unfold slice in Hsl.
      destruct ((0 <=? off + 1) && (off + 1 <=? off + 1 + len l)
                && (off + 1 + len l <=? len msg)); [|discriminate].
      injection Hsl as <-. rewrite Hsk.
      replace (Z.to_nat (off + 1 + len l - (off + 1))) with (length l)
        by (unfold len; lia).
      apply firstn_length_app. }
    subst l'.
    cbn [unpackDomainName_loop]. rewrite Hbody.
    rewrite (IH msg (s ++ l ++ [dot]) (off + 1 + len l) o1 ptr fuel tail).
    + cbn [join_labels flat_map encode_labels].
      fold (join_labels ls). fold (encode_labels ls).
      rewrite <- !app_assoc. f_equal. f_equal. f_equal.
      destruct (ptr =? 0); [|reflexivity].
      rewrite len_app, len_cons. lia.
    + exact Hall'.
    + lia.
    + rewrite skipn_Z by lia. rewrite Hsk.
      replace (Z.to_nat (len l)) with (length l + 0)%nat by (unfold len; lia).
      apply skipn_length_app.
    + simpl in Hf. lia.
Qed.

Lemma encode_labels_count (ls : list gostring) :
  (length ls <= length (encode_labels ls))%nat.
Proof.
  induction ls as [|l ls IH]; [simpl; lia|].
  unfold encode_labels in *. cbn [flat_map length].
  rewrite length_app. cbn [length]. lia.
Qed.

(** ** Empty labels *)

Lemma split_has_empty (a b : gostring) :
  forall cur, In [] (split_dots cur (a ++ dot :: dot :: b)).
Proof.
  induction a as [|c a IH]; intros cur.
  - cbn [app split_dots]. rewrite is_dot_dot. right. left. reflexivity.
  - cbn [app split_dots]. destruct (is_dot c); [right|]; apply IH.
Qed.

Lemma first_empty (ls : list gostring) :
  In [] ls ->
  exists pre post, ls = pre ++ [] :: post /\ Forall (fun l => l <> []) pre.
Proof.
  induction ls as [|l ls IH]; intros Hin; [destruct Hin|].
  destruct l as [|c l].
  - exists [], ls. split; [reflexivity|constructor].
  - destruct Hin as [Hin|Hin]; [discriminate|].
    destruct (IH Hin) as (pre & post & -> & Hpre).
    exists ((c :: l) :: pre), post. split; [reflexivity|].
    constructor; [discriminate|exact Hpre].
Qed.

Lemma join_labels_ends (ls : list gostring) :
  ls <> [] -> exists q, join_labels ls = q ++ [dot].
Proof.
  induction ls as [|l ls IH]; intros Hne; [congruence|].
  cbn [join_labels flat_map]. fold (join_labels ls).
  destruct ls as [|l2 ls].
  - exists l. simpl. rewrite app_nil_r. reflexivity.
  - destruct IH as (q & ->); [discriminate|].
    exists ((l ++ [dot]) ++ q). rewrite app_assoc. reflexivity.
Qed.

(** The text before the first empty label is a strict prefix of a name
    that has two dots in a row. *)
Lemma before_empty_label_prefix (s a b : gostring) (pre post : list gostring) :
  s = a ++ dot :: dot :: b ->
  labels s = pre ++ [] :: post ->
  strict_prefix (join_labels pre) s.
Proof.
  intros Hs Hl.
  pose proof (join_labels_canon s) as Hj. rewrite Hl in Hj.
  rewrite join_labels_app in Hj. cbn [join_labels flat_map app] in Hj.
  fold (join_labels post) in Hj. fold (join_labels pre) in Hj.
  destruct (canon_cases s) as [(Hc & _) | (Hc & Hnd)]; rewrite Hc in Hj.
  - exists (dot :: join_labels post). split; [discriminate|]. congruence.
  - destruct post as [|p post].
    + exfalso. cbn [join_labels flat_map] in Hj.
      apply app_inj_tail in Hj. destruct Hj as [Hj _].
      destruct pre as [|p pre].
      * subst s. cbn [join_labels flat_map] in Hj. destruct a; discriminate.
      * destruct (join_labels_ends (p :: pre)) as (q & Hq); [discriminate|].
        apply (Hnd q). congruence.
    + destruct (join_labels_ends (p :: post)) as (q & Hq); [discriminate|].
      rewrite Hq in Hj.
      change (join_labels pre ++ dot :: q ++ [dot])
        with (join_labels pre ++ (dot :: q) ++ [dot]) in Hj.
      rewrite app_assoc in Hj. apply app_inj_tail in Hj. destruct Hj as [Hj _].
      exists (dot :: q). split; [discriminate|]. congruence.
Qed.

Lemma canon_dotdot (a b : gostring) :
  exists b', canon (a ++ dot :: dot :: b) = a ++ dot :: dot :: b'.
Proof.
  destruct (canon_cases (a ++ dot :: dot :: b)) as [(-> & _) | (-> & _)].
  - eauto.
  - exists (b ++ [dot]). rewrite <- app_assoc. reflexivity.
Qed.

(** C10, as the code has it: a name with two dots in a row, whose labels
    are all at most 63 bytes long, is packed with [ok = true] when the
    buffer has room; every label is written as its length byte and its
    bytes, so an empty label is a zero length byte, and decoding the
    packed bytes stops at the first such byte and returns the text before
    the first empty label, a strict prefix of the name. *)
Theorem C10_empty_label_truncates :
  forall s msg off a b,
    s = a ++ dot :: dot :: b ->
    0 <= off ->
    off + len (canon s) + 1 <= len msg ->
    Forall (fun l => len l <= 63) (labels s) ->
    exists pre post m,
      labels s = pre ++ [] :: post
      /\ Forall (fun l => l <> []) pre
      /\ packDomainName s msg off = Ret (m, off + len (canon s) + 1, true)
      /\ m = write msg off
               (encode_labels pre ++ z2b 0 :: encode_labels post ++ [z2b 0])
      /\ index m (off + len (encode_labels pre)) = Some (z2b 0)
      /\ unpackDomainName m off
         = Ret (join_labels pre, off + len (encode_labels pre) + 1, true)
      /\ strict_prefix (join_labels pre) s.
Proof.
  intros s msg off a b Hs H0 Hroom Hshort.
  destruct (canon_dotdot a b) as (b' & Hc). rewrite <- Hs in Hc.
  assert (Hin : In [] (labels s)).
  { unfold labels. rewrite Hc. apply split_has_empty. }
  destruct (first_empty _ Hin) as (pre & post & Hl & Hpre).
  assert (Hroot : canon s <> [dot]).
  { rewrite Hc. destruct a as [|? [|? ?]]; discriminate. }
  assert (Hw : wire_name s
               = encode_labels pre ++ z2b 0 :: encode_labels post ++ [z2b 0]).
  { unfold wire_name.
    destruct (list_eq_dec ascii_dec (canon s) [dot]); [contradiction|].
    rewrite Hl, encode_labels_app. cbn [encode_labels flat_map].
    fold (encode_labels post). rewrite <- app_assoc. reflexivity. }
  assert (Hwl : len (wire_name s) = len (canon s) + 1).
  { unfold wire_name.
    destruct (list_eq_dec ascii_dec (canon s) [dot]); [contradiction|].
    rewrite len_app, wire_len_canon. reflexivity. }
  pose proof (len_nonneg (canon s)) as Hcn.
  pose proof (len_nonneg (encode_labels pre)) as Hpn.
  set (m := write msg off (wire_name s)).
  assert (Hm : len m = len msg) by (apply len_write; lia).
  assert (Hsk : skipn (Z.to_nat off) m
                = encode_labels pre
                    ++ z2b 0 :: (encode_labels post ++ [z2b 0])
                    ++ skipn (Z.to_nat off + length (wire_name s)) msg).
  { unfold m. rewrite skipn_write by lia. rewrite Hw at 1.
    rewrite <- app_assoc. reflexivity. }
  assert (Hfit : off + len (encode_labels pre) < len m).
  { pose proof (f_equal (@length byte) Hsk) as Hlen.
    rewrite length_skipn, length_app in Hlen. cbn [length] in Hlen.
    unfold len. lia. }
  exists pre, post, m. split; [exact Hl|]. split; [exact Hpre|].
  split; [|split; [|split; [|split]]].
  - replace (off + len (canon s) + 1) with (off + len (wire_name s)) by lia.
    apply packDomainName_ok; [exact H0|exact Hroom|].
    apply forallb_short_true. exact Hshort.
  - unfold m. rewrite Hw. reflexivity.
  - eapply index_skipn; [lia|].
    rewrite skipn_Z by lia. rewrite Hsk.
    replace (Z.to_nat (len (encode_labels pre)))
      with (length (encode_labels pre) + 0)%nat by (unfold len; lia).
    rewrite skipn_length_app. reflexivity.
  - unfold unpackDomainName, name_init.
    erewrite unpack_labels; [reflexivity| |exact H0|exact Hsk|].
    + rewrite Hl in Hshort. apply Forall_app in Hshort. destruct Hshort as [Hsp _].
      rewrite Forall_forall in *. intros l Hinl.
      specialize (Hsp l Hinl). specialize (Hpre l Hinl).
      destruct l; [congruence|]. rewrite len_cons in *.
      pose proof (len_nonneg l). lia.
    + pose proof (encode_labels_count pre) as Hcnt.
      assert (Hle : (length (encode_labels pre) < length m)%nat)
        by (unfold len in Hfit; lia).
      unfold name_fuel, gostring in *. lia.
  - apply (before_empty_label_prefix s a b pre post Hs Hl).
Qed.

Lemma C10_witness :
  exists pre post m,
    labels (str "a..b.") = pre ++ [] :: post
    /\ Forall (fun l => l <> []) pre
    /\ packDomainName (str "a..b.") (zero_buf 10) 2
       = Ret (m, 2 + len (canon (str "a..b.")) + 1, true)
    /\ m = write (zero_buf 10) 2
             (encode_labels pre ++ z2b 0 :: encode_labels post ++ [z2b 0])
    /\ index m (2 + len (encode_labels pre)) = Some (z2b 0)
    /\ unpackDomainName m 2
       = Ret (join_labels pre, 2 + len (encode_labels pre) + 1, true)
    /\ strict_prefix (join_labels pre) (str "a..b.").
Proof.
  apply (C10_empty_label_truncates (str "a..b.") (zero_buf 10) 2
           (str "a") (str "b.")).
  - reflexivity.
  - lia.
  - vm_compute. discriminate.
  - assert (E : labels (str "a..b.") = [str "a"; []; str "b"])
      by (vm_compute; reflexivity).
    rewrite E. repeat constructor; vm_compute; discriminate.
Defined.

(** C10 as stated fails: with two dots in a row and room in the buffer,
    a name that also has a label of 64 bytes is refused. *)
Lemma C10_counterexample :
  dotdot_long_name = str "a" ++ dot :: dot :: (repeat "x"%char 64 ++ [dot])
  /\ 0 + len (canon dotdot_long_name) + 1 <= len (zero_buf 100)
  /\ exists m,
      packDomainName dotdot_long_name (zero_buf 100) 0 = Ret (m, 100, false).
Proof.
  split; [reflexivity|]. split; [vm_compute; discriminate|].
  eexists. vm_compute. reflexivity.
Qed.

(** ** The struct walkers *)

Lemma unpackStructValue_eq (lib : GoLib) (name : string) (fs : list field)
    (msg : list byte) (off : Z) :
  unpackStructValue lib (StructValue name fs) msg off
  = unpack_fields lib msg name [] fs off.
Proof.
  cbn [unpackStructValue]. generalize (@nil field) as done. revert off.
  induction fs as [|[fn tag fv] rest IH]; intros off done; [reflexivity|].
  cbn [unpack_fields].
  match goal with
  | |- bind ?c ?k = bind ?c' ?k' => change c' with c; destruct c as [[[v o] ok]| |]
  end; cbn [bind]; try reflexivity.
  destruct ok; [apply IH|reflexivity].
Qed.

Lemma packStructValue_eq (lib : GoLib) (name : string) (fs : list field)
    (msg : list byte) (off : Z) :
  packStructValue lib (StructValue name fs) msg off
  = pack_fields lib fs msg off.
Proof.
  cbn [packStructValue]. revert msg off.
  induction fs as [|[fn tag fv] rest IH]; intros msg off; [reflexivity|].
  cbn [pack_fields].
  match goal with
  | |- bind ?c ?k = bind ?c' ?k' => change c' with c; destruct c as [[[m o] ok]| |]
  end; cbn [bind]; try reflexivity.
  destruct ok; [apply IH|reflexivity].
Qed.

(** ** The claims on [unpackRR] *)

(** C6: once the RR header has been unpacked, with
    [end = offset after the header + Rdlength], [unpackRR] returns the
    bare header, [end] and [ok = true] both when the type code has no
    registered constructor and when unpacking the registered record stops
    at an offset other than [end]. *)
Theorem C6_unpackRR_bare_header :
  forall lib rr_mk msg off h off_h,
    unpackStruct lib RR_Header_zero msg off = Ret (h, off_h, true) ->
    (rr_mk (uint_field h "Rrtype") = None ->
     unpackRR lib rr_mk msg off
     = Ret (Some h, off_h + uint_field h "Rdlength", true))
    /\ (forall mk rr' off' ok',
           rr_mk (uint_field h "Rrtype") = Some mk ->
           unpackStruct lib mk msg off = Ret (rr', off', ok') ->
           off' <> off_h + uint_field h "Rdlength" ->
           unpackRR lib rr_mk msg off
           = Ret (Some h, off_h + uint_field h "Rdlength", true)).
Proof.
  intros lib rr_mk msg off h off_h Hh. unfold unpackRR. rewrite Hh.
  cbn [bind negb]. split.
  - intros ->. reflexivity.
  - intros mk rr' off' ok' -> Hrr Hne. rewrite Hrr. cbn [bind].
    destruct (Z.eqb_spec off' (off_h + uint_field h "Rdlength"));
      [contradiction|reflexivity].
Qed.

Lemma C6_witness :
  unpackStruct golib RR_Header_zero a_bytes 12 = Ret (a_header, 23, true)
  /\ unpackRR golib rr_mk_spec a_bytes 12
     = Ret (Some a_header, 23 + uint_field a_header "Rdlength", true).
Proof.
  assert (Hh : unpackStruct golib RR_Header_zero a_bytes 12
               = Ret (a_header, 23, true)) by (vm_compute; reflexivity).
  split; [exact Hh|].
  eapply (proj2 (C6_unpackRR_bare_header golib rr_mk_spec a_bytes 12
                   a_header 23 Hh)).
  - vm_compute. reflexivity.
  - vm_compute. reflexivity.
  - vm_compute. discriminate.
Defined.

(** ** Failure is sticky *)

Lemma unpack_fields_false (lib : GoLib) (msg : list byte) (name : string) :
  forall todo done off v o,
    unpack_fields lib msg name done todo off = Ret (v, o, false) ->
    o = len msg.
Proof.
  induction todo as [|[fn tag fv] rest IH]; intros done off v o H.
  - discriminate.
  - cbn [unpack_fields] in H.
    match type of H with
    | bind ?c _ = _ => destruct c as [[[v1 o1] ok1]| |]
    end; cbn [bind] in H; try discriminate.
    destruct ok1.
    + eapply IH. exact H.
    + injection H as _ <-. reflexivity.
Qed.

Lemma unpackStructValue_false (lib : GoLib) (val : value) (msg : list byte)
    (off : Z) v o :
  unpackStructValue lib val msg off = Ret (v, o, false) -> o = len msg.
Proof.
  destruct val; try discriminate.
  rewrite unpackStructValue_eq. apply unpack_fields_false.
Qed.




Section Sticky.

Variable lib : GoLib.
Variable rr_mk : Z -> option value.
Variable msg : list byte.


Lemma unpackRR_false (off : Z) rr o :
  unpackRR lib rr_mk msg off = Ret (rr, o, false) -> o = len msg.
Proof.
  unfold unpackRR.
  destruct (unpackStruct lib RR_Header_zero msg off) as [[[h o1] ok1]| |];
    cbn [bind]; try discriminate.
  destruct ok1; cbn [negb].
  - destruct (rr_mk (uint_field h "Rrtype")) as [mk|]; [|discriminate].
    destruct (unpackStruct lib mk msg off) as [[[r o2] ok2]| |] eqn:E;
      cbn [bind]; try discriminate.
    destruct (o2 =? o1 + uint_field h "Rdlength"); cbn [negb];
      [|discriminate].
    intros Hinj. injection Hinj as _ <- ->.
    eapply unpackStructValue_false. exact E.
  - intros Hinj. injection Hinj as _ <-. reflexivity.
Qed.





End Sticky.

(** ** Offsets of a decoded name *)

Lemma body_no_panic (msg : list byte) (st : nstate) :
  0 <= st_off st ->
  unpackDomainName_body msg st <> inr Panic
  /\ (forall st', unpackDomainName_body msg st = inl st' -> 0 <= st_off st').
Proof.
  intros H0. split.
  - unfold unpackDomainName_body, name_fail.
    destruct (Z.geb_spec (st_off st) (len msg)); [discriminate|].
    destruct (index_in_range msg (st_off st)) as (cb & ->); [lia|].
    pose proof (b2z_range cb) as Hc.
    destruct (Z.eqb_spec (Z.land (b2z cb) 192) 0).
    + destruct (Z.eqb_spec (b2z cb) 0); [discriminate|].
      destruct (Z.gtb_spec (st_off st + 1 + b2z cb) (len msg)); [discriminate|].
      destruct (slice_in_range msg (st_off st + 1) (st_off st + 1 + b2z cb))
        as (l & ->); [lia|lia|discriminate].
    + destruct (Z.eqb_spec (Z.land (b2z cb) 192) 192); [|discriminate].
      destruct (Z.geb_spec (st_off st + 1) (len msg)); [discriminate|].
      destruct (index_in_range msg (st_off st + 1)) as (c1 & ->); [lia|].
      destruct (Z.gtb_spec (st_ptr st + 1) 10); discriminate.
  - intros st' Hb. apply body_inl in Hb. destruct Hb as (cb & Hi & Hb).
    pose proof (b2z_range cb) as Hc. pose proof (top_bits_cases cb) as Ht.
    destruct Hb as [(_ & _ & l & _ & ->) | (Hp & _ & c1 & _ & ->)];
      cbn [st_off]; [lia|].
    unfold is_pointer in Hp. pose proof (b2z_range c1). lia.
Qed.

Lemma loop_no_panic (msg : list byte) :
  forall fuel st, 0 <= st_off st -> unpackDomainName_loop fuel msg st <> Panic.
Proof.
  induction fuel as [|fuel IH]; intros st H0; cbn [unpackDomainName_loop].
  - discriminate.
  - destruct (body_no_panic msg st H0) as [Hnp Hpos].
    destruct (unpackDomainName_body msg st) as [st'|r] eqn:Eb.
    + apply IH. apply Hpos. reflexivity.
    + intros ->. apply Hnp. reflexivity.
Qed.

(** A successful call returns an offset past [off], inside the buffer. *)
Lemma loop_ok_bounds (msg : list byte) :
  forall fuel st s o1,
    0 <= st_ptr st ->
    unpackDomainName_loop fuel msg st = Ret (s, o1, true) ->
    if st_ptr st =? 0 then st_off st + 1 <= o1 <= len msg else o1 = st_off1 st.
Proof.
  induction fuel as [|fuel IH]; intros st s o1 Hp Hl;
    cbn [unpackDomainName_loop] in Hl.
  - discriminate.
  - destruct (unpackDomainName_body msg st) as [st'|r] eqn:Eb.
    + apply body_inl in Eb. destruct Eb as (cb & Hi & Eb).
      pose proof (index_Some_range _ _ _ Hi) as Hr.
      destruct Eb as [(Hc & _ & l & _ & ->) | (_ & _ & c1 & Hi1 & ->)];
        apply IH in Hl; cbn [st_ptr st_off st_off1] in *; try lia.
      * destruct (st_ptr st =? 0); [lia|exact Hl].
      * pose proof (index_Some_range _ _ _ Hi1) as Hr1.
        destruct (Z.eqb_spec (st_ptr st) 0) as [E|E].
        -- rewrite E in Hl. cbn in Hl. lia.
        -- destruct (Z.eqb_spec (st_ptr st + 1) 0); [lia|exact Hl].
    + subst r. apply body_inr_ok in Eb. destruct Eb as (_ & -> & Hi).
      pose proof (index_Some_range _ _ _ Hi) as Hr.
      destruct (st_ptr st =? 0); [lia|reflexivity].
Qed.

Lemma unpackDomainName_cases (msg : list byte) (off : Z) :
  0 <= off ->
  unpackDomainName msg off = name_fail msg
  \/ exists s o1, unpackDomainName msg off = Ret (s, o1, true)
                  /\ off + 1 <= o1 <= len msg.
Proof.
  intros H0.
  pose proof (unpackDomainName_terminates msg off) as Ht.
  pose proof (loop_no_panic msg (name_fuel msg) (name_init off) H0) as Hp.
  unfold unpackDomainName in *.
  destruct (unpackDomainName_loop (name_fuel msg) msg (name_init off))
    as [[[s o1] ok]| |] eqn:E;
    [|exfalso; apply Hp; reflexivity|exfalso; apply Ht; exact E].
  destruct ok.
  - right. exists s, o1. split; [exact E|].
    apply (loop_ok_bounds msg _ (name_init off)) in E; [exact E|simpl; lia].
  - left.
    assert (Hf : forall fuel st s o,
               unpackDomainName_loop fuel msg st = Ret (s, o, false) ->
               s = [] /\ o = len msg).
    { clear. induction fuel as [|fuel IH]; intros st s o H;
        cbn [unpackDomainName_loop] in H; [discriminate|].
      destruct (unpackDomainName_body msg st) as [st'|r] eqn:Eb;
        [eapply IH; eauto|].
      subst r. revert Eb. unfold unpackDomainName_body, name_fail.
      repeat match goal with
        | |- context [if ?b then _ else _] => destruct b
        | |- context [match ?o with Some _ => _ | None => _ end] => destruct o
        end; intros Hinj; inversion Hinj; auto. }
    destruct (Hf _ _ _ _ E) as [-> ->]. exact E.
Qed.

Lemma unpack_uint_cases (k : UintKind) (old : Z) (msg : list byte) (off : Z) :
  0 <= off ->
  (exists i, unpack_uint k old msg off = Ret (i, off + uint_width k, true)
             /\ off + uint_width k <= len msg)
  \/ unpack_uint k old msg off = Ret (old, len msg, false).
Proof.
  intros H0. unfold unpack_uint, unpackUint16.
  destruct k; cbn [uint_width]; [| | |right; reflexivity].
  - destruct (Z.gtb_spec (off + 1) (len msg)); [right; reflexivity|left].
    destruct (index_in_range msg off) as (b & ->); [lia|].
    eexists. split; [reflexivity|lia].
  - destruct (Z.gtb_spec (off + 2) (len msg)); [right; reflexivity|left].
    destruct (index_in_range msg off) as (b & ->); [lia|].
    destruct (index_in_range msg (off + 1)) as (b1 & ->); [lia|].
    eexists. split; [reflexivity|lia].
  - destruct (Z.gtb_spec (off + 4) (len msg)); [right; reflexivity|left].
    destruct (index_in_range msg off) as (b & ->); [lia|].
    destruct (index_in_range msg (off + 1)) as (b1 & ->); [lia|].
    destruct (index_in_range msg (off + 2)) as (b2 & ->); [lia|].
    destruct (index_in_range msg (off + 3)) as (b3 & ->); [lia|].
    eexists. split; [reflexivity|lia].
Qed.


(** ** The claims on [Unpack] *)

(** [Unpack] never writes the receiver's [Zero], [AuthenticatedData] and
    [CheckingDisabled]. *)
Lemma Unpack_keeps_Z_AD_CD (lib : GoLib) (rr_mk : Z -> option value)
    (dns : Msg) (msg : list byte) dns' ok logged :
  Unpack lib rr_mk dns msg = Ret (dns', ok, logged) ->
  Zero (hdr dns') = Zero (hdr dns)
  /\ AuthenticatedData (hdr dns') = AuthenticatedData (hdr dns)
  /\ CheckingDisabled (hdr dns') = CheckingDisabled (hdr dns).
Proof.
  unfold Unpack.
  destruct (unpackStruct lib Header_zero msg 0) as [[[dh o0] ok0]| |];
    cbn [bind]; try discriminate.
  destruct ok0; cbn [negb].
  - repeat match goal with
      | |- context [bind ?c _] => destruct c as [[[? ?] ?]| |]; cbn [bind]
      end; try discriminate.
    match goal with |- context [negb ?b] => destruct b end; cbn [negb];
      intros Hinj; injection Hinj as <- _ _; repeat split.
  - intros Hinj. injection Hinj as <- _ _. repeat split.
Qed.

(** C1 fails on the code: a message with [Zero], [AuthenticatedData] and
    [CheckingDisabled] set packs to a header whose flag word has the three
    bits (byte 3 is [0x70]), and unpacking these bytes into a fresh message
    succeeds with the three fields false. *)
Theorem C1_roundtrip_loses_Z_AD_CD :
  Pack golib flags_msg = Ret (flags_msg, flags_bytes, true)
  /\ Unpack golib rr_mk_spec Msg_zero flags_bytes
     = Ret (flags_unpacked, true, false)
  /\ Zero (hdr flags_msg) = true /\ Zero (hdr flags_unpacked) = false
  /\ AuthenticatedData (hdr flags_msg) = true
  /\ AuthenticatedData (hdr flags_unpacked) = false
  /\ CheckingDisabled (hdr flags_msg) = true
  /\ CheckingDisabled (hdr flags_unpacked) = false.
Proof.
  repeat split; vm_compute; reflexivity.
Qed.


(** ** Packing writes at its offset and after *)

Lemma store_bytes_frame (off : Z) :
  forall bs m o m',
    off <= o -> store_bytes m o bs = Ret m' ->
    same_below off m m' /\ (bs = [] \/ (0 <= o /\ o + len bs <= len m)).
Proof.
  induction bs as [|b bs IH]; intros m o m' Hle H; cbn [store_bytes] in H.
  - injection H as <-. split; [apply same_below_refl|left; reflexivity].
  - destruct (store m o b) as [m1|] eqn:Es; cbn [lift bind] in H;
      [|discriminate].
    destruct (same_below_store off o m m1 b Hle Es) as [Hs Hr].
    destruct (IH m1 (o + 1) m' ltac:(lia) H) as [Hs' Hb].
    split; [eapply same_below_trans; eauto|]. right.
    destruct Hs as [Hl _]. destruct Hb as [-> | Hb]; len_lia.
Qed.

Section PackFrame.

Variable lib : GoLib.

Lemma pack_uint_frame (k : UintKind) (i : Z) (m : list byte) (off : Z) :
  0 <= off <= len m -> pack_frame (pack_uint k i m off) m off.
Proof.
  intros H0 m' off' ok. unfold pack_uint.
  destruct k;
    try (match goal with
         | |- context [if ?a >? ?b then _ else _] => destruct (Z.gtb_spec a b)
         end);
    try (intros Hinj; injection Hinj as <- <- <-;
         split; [apply same_below_refl|lia]);
    match goal with
    | |- context [store_bytes ?mm ?o ?bs] =>
        destruct (store_bytes mm o bs) as [m1| |] eqn:Es; cbn [bind];
        try discriminate;
        intros Hinj; injection Hinj as <- <- <-;
        destruct (store_bytes_frame off _ _ _ _ (Z.le_refl off) Es) as [[Hl Hf] _];
        split; [split; assumption|lia]
    end.
Qed.

Lemma pack_options_frame (off : Z) :
  forall elems m o m' o',
    off <= o -> 0 <= o <= len m ->
    pack_options elems m o = Ret (m', o') ->
    same_below off m m' /\ o <= o' <= len m'.
Proof.
  induction elems as [|e elems IH]; intros m o m' o' Hle H0 H;
    cbn [pack_options] in H.
  - injection H as <- <-. split; [apply same_below_refl|lia].
  - destruct e as [| | |name [|[? ? [k c| | | |]] [|[? ? [|data| | |]] fs]]|];
      try discriminate.
    destruct (store_bytes m o _) as [m1| |] eqn:Es; cbn [bind] in H;
      try discriminate.
    destruct (copy_into m1 (o + 4) (len data) data) as [m2|] eqn:Ec;
      cbn [lift bind] in H; [|discriminate].
    destruct (store_bytes_frame off _ _ _ _ Hle Es) as [Hs1 _].
    destruct (same_below_copy off (o + 4) _ m1 m2 data ltac:(lia) Ec)
      as (Hs2 & _ & Hn & Hfit).
    destruct (IH m2 (o + 4 + len data) m' o') as [Hs3 Ho]; [lia| |exact H|].
    + destruct Hs2 as [Hl2 _]. lia.
    + split; [|lia].
      eapply same_below_trans; [exact Hs1|].
      eapply same_below_trans; [exact Hs2|exact Hs3].
Qed.

Lemma pack_ip6_frame (off : Z) (elems : list value) :
  forall n j m o m' o',
    off <= o -> 0 <= o <= len m ->
    pack_ip6 n elems j m o = Ret (m', o') ->
    same_below off m m' /\ o <= o' <= len m'.
Proof.
  induction n as [|n IH]; intros j m o m' o' Hle H0 H; cbn [pack_ip6] in H.
  - injection H as <- <-. split; [apply same_below_refl|lia].
  - destruct (elem_uint elems j) as [e| |]; cbn [bind] in H; try discriminate.
    destruct (store m o (z2b e)) as [m1|] eqn:Es; cbn [lift bind] in H;
      [|discriminate].
    destruct (same_below_store off o m m1 _ Hle Es) as [Hs Hr].
    destruct (IH (j + 1) m1 (o + 1) m' o') as [Hs' Ho]; [lia| |exact H|].
    + destruct Hs as [Hl _]. lia.
    + split; [eapply same_below_trans; eauto|lia].
Qed.

Lemma pack_slice_frame (tag : string) (elems : list value) (m : list byte)
    (off : Z) :
  0 <= off <= len m -> pack_frame (pack_slice tag elems m off) m off.
Proof.
  intros H0 m' off' ok. unfold pack_slice.
  destruct (String.eqb tag "OPT").
  { destruct (pack_options elems m off) as [[m1 o1]| |] eqn:E; cbn [bind];
      try discriminate.
    intros Hinj. injection Hinj as <- <- <-.
    apply (pack_options_frame off _ _ _ _ _ (Z.le_refl off) H0 E). }
  destruct (String.eqb tag "A").
  { destruct ((len elems >? 4) || (off + len elems >? len m)).
    - intros Hinj. injection Hinj as <- <- <-.
      split; [apply same_below_refl|lia].
    - destruct (elem_uint elems 0) as [e0| |]; cbn [bind]; try discriminate.
      destruct (store m off (z2b e0)) as [m1|] eqn:E0; cbn [lift bind];
        [|discriminate].
      destruct (elem_uint elems 1) as [e1| |]; cbn [bind]; try discriminate.
      destruct (store m1 (off + 1) (z2b e1)) as [m2|] eqn:E1; cbn [lift bind];
        [|discriminate].
      destruct (elem_uint elems 2) as [e2| |]; cbn [bind]; try discriminate.
      destruct (store m2 (off + 2) (z2b e2)) as [m3|] eqn:E2; cbn [lift bind];
        [|discriminate].
      destruct (elem_uint elems 3) as [e3| |]; cbn [bind]; try discriminate.
      destruct (store m3 (off + 3) (z2b e3)) as [m4|] eqn:E3; cbn [lift bind];
        [|discriminate].
      intros Hinj. injection Hinj as <- <- <-.
      destruct (same_below_store off off _ _ _ (Z.le_refl off) E0) as [S0 _].
      destruct (same_below_store off (off + 1) _ _ _ ltac:(lia) E1) as [S1 _].
      destruct (same_below_store off (off + 2) _ _ _ ltac:(lia) E2) as [S2 _].
      destruct (same_below_store off (off + 3) _ _ _ ltac:(lia) E3) as [S3 R3].
      assert (S : same_below off m m4).
      { eapply same_below_trans; [exact S0|].
        eapply same_below_trans; [exact S1|].
        eapply same_below_trans; [exact S2|exact S3]. }
      split; [exact S|]. destruct S3 as [L3 _]. lia. }
  destruct (String.eqb tag "AAAA").
  { destruct ((len elems >? 16) || (off + len elems >? len m)).
    - intros Hinj. injection Hinj as <- <- <-.
      split; [apply same_below_refl|lia].
    - destruct (pack_ip6 16 elems 0 m off) as [[m1 o1]| |] eqn:E; cbn [bind];
        try discriminate.
      intros Hinj. injection Hinj as <- <- <-.
      apply (pack_ip6_frame off elems _ _ _ _ _ _ (Z.le_refl off) H0 E). }
  destruct (String.eqb tag "NSEC3").
  { intros Hinj. injection Hinj as <- <- <-.
    split; [apply same_below_refl|lia]. }
  destruct (String.eqb tag "NSEC");
    intros Hinj; injection Hinj as <- <- <-;
    (split; [apply same_below_refl|lia]).
Qed.

Lemma packDomainName_frame (s : gostring) (m : list byte) (off : Z) :
  0 <= off <= len m -> pack_frame (packDomainName s m off) m off.
Proof.
  intros H0 m' off' ok. unfold packDomainName.
  destruct (Z.gtb_spec (off + (len (canon s) + 1)) (len m)).
  { intros Hinj. injection Hinj as <- <- <-.
    split; [apply same_below_refl|lia]. }
  destruct (pack_loop_spec (canon s) [] [] m off) as (m1 & Hm1 & Hloop);
    [lia|len_lia|].
  cbn [app] in Hloop. change (len (@nil byte) + len (@nil byte)) with 0 in Hloop.
  change (len (@nil byte)) with 0 in Hloop.
  rewrite Hloop. fold (labels s).
  pose proof (wire_len_canon s) as Hlen.
  pose proof (len_nonneg (canon s)) as Hcn.
  destruct (forallb short (labels s)); cbn [bind negb].
  - assert (Hs1 : same_below off m (write m off (encode_labels (labels s))))
      by (apply same_below_write; lia).
    destruct (list_eq_dec ascii_dec (canon s) [dot]).
    + intros Hinj. injection Hinj as <- <- <-.
      split; [exact Hs1|]. destruct Hs1 as [L _]. lia.
    + rewrite store_write by (rewrite len_write by lia; lia).
      cbn [lift bind]. intros Hinj. injection Hinj as <- <- <-.
      rewrite write_write by lia.
      assert (Hl : len (encode_labels (labels s) ++ [z2b 0])
                   = len (canon s) + 1)
        by (rewrite len_app, Hlen; reflexivity).
      split; [apply same_below_write; lia|].
      rewrite len_write by lia. lia.
  - intros Hinj. injection Hinj as <- <- <-.
    split; [exact Hm1|]. destruct Hm1 as [L _]. lia.
Qed.

Lemma pack_string_frame (tag : string) (s : gostring) (m : list byte)
    (off : Z) :
  0 <= off <= len m -> pack_frame (pack_string lib tag s m off) m off.
Proof.
  intros H0 m' off' ok. unfold pack_string.
  destruct (String.eqb tag "base64").
  { destruct (slice m off (off + base64_DecodedLen lib (len s))) as [x|] eqn:Esl;
      cbn [lift bind]; [|discriminate].
    assert (Hb : 0 <= base64_DecodedLen lib (len s)
                 /\ off + base64_DecodedLen lib (len s) <= len m).
    { unfold slice in Esl.
      destruct (Z.leb_spec 0 off);
        destruct (Z.leb_spec off (off + base64_DecodedLen lib (len s)));
        destruct (Z.leb_spec (off + base64_DecodedLen lib (len s)) (len m));
        cbn [andb] in Esl; try discriminate. lia. }
    destruct (base64_Decode lib s) as [written err].
    destruct (len written >? base64_DecodedLen lib (len s)); [discriminate|].
    destruct (copy_into m off (len written) written) as [m1|] eqn:Ec;
      cbn [lift bind]; [|discriminate].
    destruct (same_below_copy off off _ _ _ _ (Z.le_refl off) Ec) as ([L F] & _).
    destruct err; intros Hinj; injection Hinj as <- <- <-;
      (split; [split; assumption|lia]). }
  destruct (String.eqb tag "domain-name").
  { destruct (packDomainName s m off) as [[[m1 o1] ok1]| |] eqn:E; cbn [bind];
      try discriminate.
    destruct (packDomainName_frame s m off H0 _ _ _ E) as [Hs Ho].
    destruct ok1; cbn [negb]; intros Hinj; injection Hinj as <- <- <-;
      (split; [exact Hs|]); destruct Hs as [L _]; lia. }
  destruct (String.eqb tag "hex").
  { destruct (hex_DecodeString lib s) as [h|].
    - destruct (copy_into m off (hex_DecodedLen lib (len s)) h) as [m1|] eqn:Ec;
        cbn [lift bind]; [|discriminate].
      destruct (same_below_copy off off _ _ _ _ (Z.le_refl off) Ec) as ([L F] & _).
      intros Hinj. injection Hinj as <- <- <-.
      split; [split; assumption|lia].
    - intros Hinj. injection Hinj as <- <- <-.
      split; [apply same_below_refl|lia]. }
  destruct (String.eqb tag "").
  { destruct ((len s >? 255) || (off + 1 + len s >? len m)) eqn:Echk.
    - intros Hinj. injection Hinj as <- <- <-.
      split; [apply same_below_refl|lia].
    - apply orb_false_iff in Echk. destruct Echk as [_ Hfit].
      destruct (Z.gtb_spec (off + 1 + len s) (len m)); [discriminate|].
      destruct (store m off (z2b (len s))) as [m1|] eqn:Es; cbn [lift bind];
        [|discriminate].
      destruct (store_bytes m1 (off + 1) s) as [m2| |] eqn:Eb; cbn [bind];
        try discriminate.
      intros Hinj. injection Hinj as <- <- <-.
      destruct (same_below_store off off _ _ _ (Z.le_refl off) Es) as [S1 _].
      destruct (store_bytes_frame off s m1 (off + 1) m2 ltac:(lia) Eb) as [S2 _].
      assert (S : same_below off m m2) by (eapply same_below_trans; eauto).
      split; [exact S|]. destruct S as [L _]. pose proof (len_nonneg s). lia. }
  intros Hinj. injection Hinj as <- <- <-.
  split; [apply same_below_refl|lia].
Qed.

Lemma pack_fields_frame :
  forall fs,
    Forall (fun f => forall m off, 0 <= off <= len m ->
                      pack_frame (packStructValue lib (field_value f) m off) m off)
           fs ->
    forall m off, 0 <= off <= len m -> pack_frame (pack_fields lib fs m off) m off.
Proof.
  induction fs as [|[fn tag fv] rest IH]; intros Hall m off H0 m' off' ok;
    cbn [pack_fields].
  - intros Hinj. injection Hinj as <- <- <-.
    split; [apply same_below_refl|lia].
  - inversion Hall as [|? ? Hfv Hrest]; subst. cbn [field_value] in Hfv.
    assert (Hstep : pack_frame
              (match fv with
               | UintValue k i => pack_uint k i m off
               | StringValue s => pack_string lib tag s m off
               | SliceValue elems => pack_slice tag elems m off
               | StructValue _ _ =>
                   ' (msg, off, _) <- packStructValue lib fv m off ;;
                   Ret (msg, off, true)
               | OtherValue => Ret (m, len m, false)
               end) m off).
    { destruct fv as [k i|s|elems|name fs|].
      - apply pack_uint_frame. exact H0.
      - apply pack_string_frame. exact H0.
      - apply pack_slice_frame. exact H0.
      - intros m1 o1 ok1.
        destruct (packStructValue lib (StructValue name fs) m off)
          as [[[m2 o2] ok2]| |] eqn:E; cbn [bind]; try discriminate.
        intros Hinj. injection Hinj as <- <- <-.
        apply (Hfv m off H0 _ _ _ E).
      - intros m1 o1 ok1 Hinj. injection Hinj as <- <- <-.
        split; [apply same_below_refl|lia]. }
    match goal with
    | |- bind ?c _ = _ -> _ => destruct c as [[[m1 o1] ok1]| |] eqn:E
    end; cbn [bind]; try discriminate.
    destruct (Hstep _ _ _ eq_refl) as [S1 O1].
    destruct ok1.
    + intros Hrec.
      destruct (IH Hrest m1 o1 ltac:(lia) _ _ _ Hrec) as [S2 O2].
      split; [|lia].
      eapply same_below_trans; [exact S1|].
      apply (same_below_le off o1); [lia|exact S2].
    + intros Hinj. injection Hinj as <- <- <-.
      split; [exact S1|]. lia.
Qed.

Lemma packStructValue_frame (val : value) :
  forall m off, 0 <= off <= len m ->
    pack_frame (packStructValue lib val m off) m off.
Proof.
  induction val as [k n|s|elems| |name fs IH] using value_fields_ind;
    intros m off H0; try (intros m' off' ok; discriminate).
  rewrite packStructValue_eq. apply pack_fields_frame; assumption.
Qed.

End PackFrame.

Section PackMessage.

Variable lib : GoLib.

Lemma packRR_frame (rr : option value) (m : list byte) (off : Z) :
  0 <= off <= len m ->
  forall rr' m' off' ok,
    packRR lib rr m off = Ret (rr', m', off', ok) ->
    same_below off m m' /\ off <= off' <= len m'.
Proof.
  intros H0 rr' m' off' ok. unfold packRR, packStruct.
  destruct rr as [r|].
  - destruct (Header r) as [h| |]; cbn [bind]; try discriminate.
    destruct (packStructValue lib h m off) as [[[m1 o1] ok1]| |] eqn:E1;
      cbn [bind]; try discriminate.
    destruct (packStructValue_frame lib h m off H0 _ _ _ E1) as [S1 _].
    assert (H1 : 0 <= off <= len m1) by (destruct S1 as [L _]; lia).
    destruct (packStructValue lib r m1 off) as [[[m2 o2] ok2]| |] eqn:E2;
      cbn [bind]; try discriminate.
    destruct (packStructValue_frame lib r m1 off H1 _ _ _ E2) as [S2 O2].
    assert (S12 : same_below off m m2) by (eapply same_below_trans; eauto).
    destruct ok2; cbn [negb].
    + destruct (Header (set_rdlength r (uint16 (o2 - o1)))) as [h'| |];
        cbn [bind]; try discriminate.
      assert (H2 : 0 <= off <= len m2) by (destruct S12 as [L _]; lia).
      destruct (packStructValue lib h' m2 off) as [[[m3 o3] ok3]| |] eqn:E3;
        cbn [bind]; try discriminate.
      destruct (packStructValue_frame lib h' m2 off H2 _ _ _ E3) as [S3 _].
      intros Hinj. injection Hinj as _ <- <- _.
      split; [eapply same_below_trans; eauto|].
      destruct S3 as [L _]. lia.
    + intros Hinj. injection Hinj as _ <- <- _.
      split; [exact S12|]. lia.
  - intros Hinj. injection Hinj as _ <- <- _.
    split; [apply same_below_refl|lia].
Qed.

Lemma pack_questions_frame :
  forall qs m off ok0,
    0 <= off <= len m ->
    pack_frame (pack_questions lib qs m off ok0) m off.
Proof.
  induction qs as [|q qs IH]; intros m off ok0 H0 m' off' ok;
    cbn [pack_questions].
  - intros Hinj. injection Hinj as <- <- _.
    split; [apply same_below_refl|lia].
  - unfold packStruct.
    destruct (packStructValue lib q m off) as [[[m1 o1] ok1]| |] eqn:E1;
      cbn [bind]; try discriminate.
    destruct (packStructValue_frame lib q m off H0 _ _ _ E1) as [S1 O1].
    intros Hrec.
    destruct (IH m1 o1 ok1 ltac:(lia) _ _ _ Hrec) as [S2 O2].
    split; [|lia].
    eapply same_below_trans; [exact S1|].
    apply (same_below_le off o1); [lia|exact S2].
Qed.

Lemma pack_rrs_frame :
  forall rrs m off ok0,
    0 <= off <= len m ->
    forall rrs' m' off' ok,
      pack_rrs lib rrs m off ok0 = Ret (rrs', m', off', ok) ->
      same_below off m m' /\ off <= off' <= len m'.
Proof.
  induction rrs as [|rr rrs IH]; intros m off ok0 H0 rrs' m' off' ok;
    cbn [pack_rrs].
  - intros Hinj. injection Hinj as _ <- <- _.
    split; [apply same_below_refl|lia].
  - destruct (packRR lib rr m off) as [[[[r1 m1] o1] ok1]| |] eqn:E1;
      cbn [bind]; try discriminate.
    destruct (packRR_frame rr m off H0 _ _ _ _ E1) as [S1 O1].
    destruct (pack_rrs lib rrs m1 o1 ok1) as [[[[r2 m2] o2] ok2]| |] eqn:E2;
      cbn [bind]; try discriminate.
    destruct (IH m1 o1 ok1 ltac:(lia) _ _ _ _ E2) as [S2 O2].
    intros Hinj. injection Hinj as _ <- <- _.
    split; [|lia].
    eapply same_below_trans; [exact S1|].
    apply (same_below_le off o1); [lia|exact S2].
Qed.

(** A 16-bit field is written high byte first. *)
Lemma pack_fields_u16 (fn tag : string) (i : Z) (rest : list field)
    (m : list byte) (off : Z) :
  0 <= off -> off + 2 <= len m ->
  pack_fields lib (Field fn tag (UintValue Uint16 i) :: rest) m off
  = pack_fields lib rest (write m off [z2b (Z.shiftr i 8); z2b i]) (off + 2).
Proof.
  intros H0 Hfit. cbn [pack_fields pack_uint].
  destruct (Z.gtb_spec (off + 2) (len m)); [lia|].
  cbn [store_bytes].
  rewrite store_write by lia. cbn [lift bind].
  rewrite store_write by (rewrite len_write by len_lia; lia).
  cbn [lift bind].
  replace (off + 1) with (off + len [z2b (Z.shiftr i 8)]) by len_lia.
  rewrite write_write by len_lia.
  reflexivity.
Qed.

Lemma nth_error_skipn_add {A : Type} :
  forall n (l : list A) k, nth_error (skipn n l) k = nth_error l (n + k).
Proof.
  induction n as [|n IH]; intros [|x l] k; simpl; auto.
  destruct k; reflexivity.
Qed.

Lemma index_write_at (m : list byte) (o k : Z) (bs : list byte) :
  0 <= o -> o + len bs <= len m -> 0 <= k < len bs ->
  index (write m o bs) (o + k) = index bs k.
Proof.
  intros H0 Hfit Hk. unfold index.
  destruct (Z.ltb_spec (o + k) 0); [lia|]. destruct (Z.ltb_spec k 0); [lia|].
  replace (Z.to_nat (o + k)) with (Z.to_nat o + Z.to_nat k)%nat by lia.
  rewrite <- nth_error_skipn_add.
  rewrite skipn_write by (pose proof (len_nonneg bs); lia).
  apply nth_error_app1. unfold len in Hk. lia.
Qed.

End PackMessage.

(** ** The claims on [Pack] *)

Lemma or_if_lor (b : bool) (mask bits : Z) :
  or_if b mask bits = Z.lor bits (if b then mask else 0).
Proof. destruct b; [reflexivity|]. symmetry. apply Z.lor_0_r. Qed.

Lemma Pack_flag_bytes (lib : GoLib) (dns dns' : Msg) (out : list byte) :
  Pack lib dns = Ret (dns', out, true) ->
  index out 2 = Some (z2b (Z.shiftr (pack_bits (hdr dns)) 8))
  /\ index out 3 = Some (z2b (pack_bits (hdr dns))).
Proof.
  unfold Pack, packStruct, wire_header.
  set (m0 := repeat (z2b 0) (Z.to_nat DefaultMsgSize)).
  assert (L0 : len m0 = 4096).
  { unfold m0, len. rewrite repeat_length. reflexivity. }
  set (bits := pack_bits (hdr dns)).
  rewrite packStructValue_eq.
  rewrite pack_fields_u16 by lia.
  set (m1 := write m0 0 _).
  assert (L1 : len m1 = 4096).
  { unfold m1. rewrite len_write; [exact L0|lia|rewrite L0; len_lia]. }
  rewrite pack_fields_u16 by lia.
  set (m2 := write m1 (0 + 2) [z2b (Z.shiftr bits 8); z2b bits]).
  assert (L2 : len m2 = 4096).
  { unfold m2. rewrite len_write; [exact L1|lia|rewrite L1; len_lia]. }
  assert (I2 : index m2 2 = Some (z2b (Z.shiftr bits 8))).
  { unfold m2. apply (index_write_at m1 (0 + 2) 0); [lia|len_lia|len_lia]. }
  assert (I3 : index m2 3 = Some (z2b bits)).
  { unfold m2. apply (index_write_at m1 (0 + 2) 1); [lia|len_lia|len_lia]. }
  clearbody m2. clear m1 L1.
  match goal with
  | |- context [pack_fields lib ?fs m2 ?o] =>
      rewrite <- (packStructValue_eq lib "Header" fs m2 o);
      destruct (packStructValue lib (StructValue "Header" fs) m2 o)
        as [[[m3 o3] ok3]| |] eqn:E3; cbn [bind]; try discriminate;
      destruct (packStructValue_frame lib _ m2 o ltac:(lia) _ _ _ E3) as [S3 O3]
  end.
  destruct (pack_questions lib (Question dns) m3 o3 ok3)
    as [[[m4 o4] ok4]| |] eqn:E4; cbn [bind]; try discriminate.
  destruct (pack_questions_frame lib _ m3 o3 ok3 ltac:(lia) _ _ _ E4) as [S4 O4].
  destruct (pack_rrs lib (Answer dns) m4 o4 ok4)
    as [[[[r5 m5] o5] ok5]| |] eqn:E5; cbn [bind]; try discriminate.
  destruct (pack_rrs_frame lib _ m4 o4 ok4 ltac:(lia) _ _ _ _ E5) as [S5 O5].
  destruct (pack_rrs lib (Ns dns) m5 o5 ok5)
    as [[[[r6 m6] o6] ok6]| |] eqn:E6; cbn [bind]; try discriminate.
  destruct (pack_rrs_frame lib _ m5 o5 ok5 ltac:(lia) _ _ _ _ E6) as [S6 O6].
  destruct (pack_rrs lib (Extra dns) m6 o6 ok6)
    as [[[[r7 m7] o7] ok7]| |] eqn:E7; cbn [bind]; try discriminate.
  destruct (pack_rrs_frame lib _ m6 o6 ok6 ltac:(lia) _ _ _ _ E7) as [S7 O7].
  destruct ok7; cbn [negb]; [|discriminate].
  destruct (slice m7 0 o7) as [o|] eqn:Esl; cbn [lift bind]; [|discriminate].
  intros Hinj. injection Hinj as _ <-.
  assert (S : same_below 4 m2 m7).
  { apply (same_below_trans 4 m2 m3 m7); [apply (same_below_le 4 (0 + 2 + 2)); [lia|exact S3]|].
    apply (same_below_trans 4 m3 m4 m7); [apply (same_below_le 4 o3); [lia|exact S4]|].
    apply (same_below_trans 4 m4 m5 m7); [apply (same_below_le 4 o4); [lia|exact S5]|].
    apply (same_below_trans 4 m5 m6 m7); [apply (same_below_le 4 o5); [lia|exact S6]|].
    apply (same_below_le 4 o6); [lia|exact S7]. }
  assert (Ho : forall i, 0 <= i < 4 -> index o i = index m7 i).
  { intros i Hi. unfold slice in Esl.
    destruct ((0 <=? 0) && (0 <=? o7) && (o7 <=? len m7)); [|discriminate].
    injection Esl as <-. cbn [skipn Z.to_nat]. unfold index.
    destruct (Z.ltb_spec i 0); [lia|].
    apply nth_error_firstn_lt. lia. }
  rewrite !Ho by lia.
  rewrite !(same_below_index 4 _ m2 m7 S) by lia.
  split; assumption.
Qed.

Lemma pack_bits_layout (h : MsgHdr) :
  0 <= Opcode h < 16 -> 0 <= Rcode h < 16 ->
  pack_bits h
  = Z.lor (Z.lor (Z.lor (Z.lor (Z.lor (Z.lor (Z.lor (Z.lor
      (Z.lor (Z.shiftl (Opcode h) 11) (Rcode h))
      (if Response h then 0x8000 else 0))
      (if Authoritative h then 0x0400 else 0))
      (if Truncated h then 0x0200 else 0))
      (if RecursionDesired h then 0x0100 else 0))
      (if RecursionAvailable h then 0x0080 else 0))
      (if Zero h then 0x0040 else 0))
      (if AuthenticatedData h then 0x0020 else 0))
      (if CheckingDisabled h then 0x0010 else 0).
Proof.
  intros Ho Hr. unfold pack_bits. rewrite !or_if_lor.
  unfold uint16, _QR, _AA, _TC, _RD, _RA, _Z, _AD, _CD.
  rewrite (Z.mod_small (Opcode h)) by lia.
  rewrite (Z.mod_small (Rcode h)) by lia.
  rewrite Z.shiftl_mul_pow2 by lia.
  rewrite (Z.mod_small (Opcode h * 2 ^ 11)) by lia.
  reflexivity.
Qed.

(** C7: the message of S1 packs to the 29 bytes of the scenario; the flag
    word is [(opcode << 11) | rcode] with the masks QR=0x8000, AA=0x0400,
    TC=0x0200, RD=0x0100, RA=0x0080, Z=0x0040, AD=0x0020, CD=0x0010 ORed
    in; and every packed message carries it at bytes 2 and 3, high byte
    first. *)
Theorem C7_minimal_query_and_flag_word :
  (forall lib, Pack lib s1_msg = Ret (s1_msg, s1_bytes, true))
  /\ (forall lib dns dns' out,
         Pack lib dns = Ret (dns', out, true) ->
         index out 2 = Some (z2b (Z.shiftr (pack_bits (hdr dns)) 8))
         /\ index out 3 = Some (z2b (pack_bits (hdr dns))))
  /\ (forall h,
         0 <= Opcode h < 16 -> 0 <= Rcode h < 16 ->
         pack_bits h
         = Z.lor (Z.lor (Z.lor (Z.lor (Z.lor (Z.lor (Z.lor (Z.lor
             (Z.lor (Z.shiftl (Opcode h) 11) (Rcode h))
             (if Response h then 0x8000 else 0))
             (if Authoritative h then 0x0400 else 0))
             (if Truncated h then 0x0200 else 0))
             (if RecursionDesired h then 0x0100 else 0))
             (if RecursionAvailable h then 0x0080 else 0))
             (if Zero h then 0x0040 else 0))
             (if AuthenticatedData h then 0x0020 else 0))
             (if CheckingDisabled h then 0x0010 else 0)).
Proof.
  split; [|split].
  - intros lib. vm_compute. reflexivity.
  - apply Pack_flag_bytes.
  - apply pack_bits_layout.
Qed.

Lemma C7_witness :
  (index s1_bytes 2 = Some (z2b (Z.shiftr (pack_bits (hdr s1_msg)) 8))
   /\ index s1_bytes 3 = Some (z2b (pack_bits (hdr s1_msg))))
  /\ pack_bits (hdr s1_msg) = 0x0100.
Proof.
  destruct C7_minimal_query_and_flag_word as (Hs1 & Hbytes & Hbits).
  split.
  - apply (Hbytes golib s1_msg s1_msg s1_bytes). apply Hs1.
  - rewrite Hbits; [reflexivity|simpl; lia|simpl; lia].
Defined.

(** ** [Unpack] does bounded work *)

Ltac no_fuel_cases :=
  repeat match goal with
    | |- context [if ?b then _ else _] => destruct b
    | |- context [lift ?o] => destruct o; cbn [lift bind]
    | |- context [let (_, _) := ?p in _] => destruct p
    end;
  try discriminate.

Section BoundedWork.

Variable lib : GoLib.
Variable rr_mk : Z -> option value.

Lemma unpack_slice_fuel tag elems msg off :
  unpack_slice lib tag elems msg off <> OutOfFuel.
Proof. unfold unpack_slice. no_fuel_cases. Qed.

Lemma unpack_uint_fuel k old msg off :
  unpack_uint k old msg off <> OutOfFuel.
Proof. unfold unpack_uint, unpackUint16. destruct k; no_fuel_cases. Qed.

Lemma unpack_string_fuel name cur tag old msg off :
  unpack_string lib name cur tag old msg off <> OutOfFuel.
Proof.
  unfold unpack_string, hdr_rdlength, signer_name.
  destruct (String.eqb tag "hex").
  { destruct (FieldByName cur "Hdr") as [[| | |? hfs|]|]; cbn [bind];
      try discriminate.
    destruct (FieldByName hfs "Rdlength") as [[| | | |]|]; cbn [bind];
      try discriminate.
    no_fuel_cases. }
  destruct (String.eqb tag "base64").
  { destruct (FieldByName cur "Hdr") as [[| | |? hfs|]|]; cbn [bind];
      try discriminate.
    destruct (FieldByName hfs "Rdlength") as [[| | | |]|]; cbn [bind];
      try discriminate.
    destruct (String.eqb name "RR_DNSKEY"); cbn [bind]; [no_fuel_cases|].
    destruct (String.eqb name "RR_RRSIG"); cbn [bind]; [|no_fuel_cases].
    destruct (FieldByName cur "SignerName") as [[| | | |]|]; cbn [bind];
      try discriminate.
    no_fuel_cases. }
  destruct (String.eqb tag "domain-name").
  { pose proof (unpackDomainName_terminates msg off) as Ht.
    destruct (unpackDomainName msg off) as [[[s o] ok]| |]; cbn [bind];
      [destruct ok; discriminate|discriminate|congruence]. }
  no_fuel_cases.
Qed.

Lemma unpack_fields_fuel (msg : list byte) (name : string) :
  forall todo,
    Forall (fun f => forall off,
                unpackStructValue lib (field_value f) msg off <> OutOfFuel) todo ->
    forall done off, unpack_fields lib msg name done todo off <> OutOfFuel.
Proof.
  induction todo as [|[fn tag fv] rest IH]; intros Hall done off;
    cbn [unpack_fields]; [discriminate|].
  inversion Hall as [|? ? Hfv Hrest]; subst. cbn [field_value] in Hfv.
  assert (Hstep :
    match fv with
    | UintValue k old =>
        ' (i, off, ok) <- unpack_uint k old msg off ;;
        Ret (UintValue k i, off, ok)
    | StringValue old =>
        ' (s, off, ok) <- unpack_string lib name
                            (rev done ++ Field fn tag fv :: rest) tag old msg off ;;
        Ret (StringValue s, off, ok)
    | SliceValue elems =>
        ' (e, off, ok) <- unpack_slice lib tag elems msg off ;;
        Ret (SliceValue e, off, ok)
    | StructValue _ _ =>
        ' (v, off, _) <- unpackStructValue lib fv msg off ;;
        Ret (v, off, true)
    | OtherValue => Ret (fv, len msg, false)
    end <> OutOfFuel).
  { destruct fv as [k old|old|elems|sname fs|].
    - pose proof (unpack_uint_fuel k old msg off).
      destruct (unpack_uint k old msg off) as [[[? ?] ?]| |]; cbn [bind];
        congruence.
    - pose proof (unpack_string_fuel name
                    (rev done ++ Field fn tag (StringValue old) :: rest)
                    tag old msg off).
      destruct (unpack_string lib name _ tag old msg off) as [[[? ?] ?]| |];
        cbn [bind]; congruence.
    - pose proof (unpack_slice_fuel tag elems msg off).
      destruct (unpack_slice lib tag elems msg off) as [[[? ?] ?]| |];
        cbn [bind]; congruence.
    - specialize (Hfv off).
      destruct (unpackStructValue lib (StructValue sname fs) msg off)
        as [[[? ?] ?]| |]; cbn [bind]; congruence.
    - discriminate. }
  match goal with
  | |- bind ?c _ <> _ => destruct c as [[[v o] ok]| |]
  end; cbn [bind]; try congruence.
  destruct ok; [apply IH; exact Hrest|discriminate].
Qed.

Lemma unpackStructValue_fuel (msg : list byte) (val : value) :
  forall off, unpackStructValue lib val msg off <> OutOfFuel.
Proof.
  induction val as [k n|s|elems| |name fs IH] using value_fields_ind;
    intros off; try discriminate.
  rewrite unpackStructValue_eq. apply unpack_fields_fuel. exact IH.
Qed.

Lemma unpackRR_fuel (msg : list byte) (off : Z) :
  unpackRR lib rr_mk msg off <> OutOfFuel.
Proof.
  unfold unpackRR, unpackStruct.
  pose proof (unpackStructValue_fuel msg RR_Header_zero off) as Hh.
  destruct (unpackStructValue lib RR_Header_zero msg off) as [[[h o] ok]| |];
    cbn [bind]; [|discriminate|congruence].
  destruct ok; cbn [negb]; [|discriminate].
  destruct (rr_mk (uint_field h "Rrtype")) as [mk|]; [|discriminate].
  pose proof (unpackStructValue_fuel msg mk off) as Hr.
  destruct (unpackStructValue lib mk msg off) as [[[r o2] ok2]| |];
    cbn [bind]; [|discriminate|congruence].
  destruct (negb (o2 =? o + uint_field h "Rdlength")); discriminate.
Qed.

Lemma unpack_rrs_fuel (msg : list byte) :
  forall n off ok, unpack_rrs lib rr_mk n msg off ok <> OutOfFuel.
Proof.
  induction n as [|n IH]; intros off ok; cbn [unpack_rrs]; [discriminate|].
  pose proof (unpackRR_fuel msg off) as Hr.
  destruct (unpackRR lib rr_mk msg off) as [[[rr o] ok1]| |]; cbn [bind];
    [|discriminate|congruence].
  specialize (IH o ok1).
  destruct (unpack_rrs lib rr_mk n msg o ok1) as [[[rest o2] ok2]| |];
    cbn [bind]; [discriminate|discriminate|congruence].
Qed.

Lemma unpack_questions_fuel (msg : list byte) :
  forall qs off ok, unpack_questions lib qs msg off ok <> OutOfFuel.
Proof.
  induction qs as [|q qs IH]; intros off ok; cbn [unpack_questions];
    [discriminate|].
  unfold unpackStruct.
  pose proof (unpackStructValue_fuel msg q off) as Hq.
  destruct (unpackStructValue lib q msg off) as [[[q' o] ok1]| |]; cbn [bind];
    [|discriminate|congruence].
  specialize (IH o ok1).
  destruct (unpack_questions lib qs msg o ok1) as [[[rest o2] ok2]| |];
    cbn [bind]; [discriminate|discriminate|congruence].
Qed.

(** [Unpack] returns or panics on every buffer: the only loop that is not
    bounded by a count from the header is the one of [unpackDomainName]. *)
Lemma Unpack_bounded_work (dns : Msg) (msg : list byte) :
  Unpack lib rr_mk dns msg <> OutOfFuel.
Proof.
  unfold Unpack, unpackStruct.
  pose proof (unpackStructValue_fuel msg Header_zero 0) as Hh.
  destruct (unpackStructValue lib Header_zero msg 0) as [[[dh o0] ok0]| |];
    cbn [bind]; [|discriminate|congruence].
  destruct ok0; cbn [negb]; [|discriminate].
  match goal with
  | |- context [unpack_questions lib ?qs msg o0 true] =>
      pose proof (unpack_questions_fuel msg qs o0 true) as Hq;
      destruct (unpack_questions lib qs msg o0 true) as [[[qs' o1] ok1]| |]
  end; cbn [bind]; [|discriminate|congruence].
  match goal with
  | |- context [unpack_rrs lib rr_mk ?n msg o1 ok1] =>
      pose proof (unpack_rrs_fuel msg n o1 ok1) as Ha;
      destruct (unpack_rrs lib rr_mk n msg o1 ok1) as [[[an o2] ok2]| |]
  end; cbn [bind]; [|discriminate|congruence].
  match goal with
  | |- context [unpack_rrs lib rr_mk ?n msg o2 ok2] =>
      pose proof (unpack_rrs_fuel msg n o2 ok2) as Hn;
      destruct (unpack_rrs lib rr_mk n msg o2 ok2) as [[[ns o3] ok3]| |]
  end; cbn [bind]; [|discriminate|congruence].
  match goal with
  | |- context [unpack_rrs lib rr_mk ?n msg o3 ok3] =>
      pose proof (unpack_rrs_fuel msg n o3 ok3) as He;
      destruct (unpack_rrs lib rr_mk n msg o3 ok3) as [[[ex o4] ok4]| |]
  end; cbn [bind]; [|discriminate|congruence].
  destruct ok4; discriminate.
Qed.

End BoundedWork.

(** C2 fails on the code.  [Unpack] does return or panic on every buffer,
    with bounded work; but the slice expressions of the [hex] and
    [base64] cases are not guarded: a DS record with [Rdlength = 0], a DS
    record whose [Rdlength] runs past the end of the buffer, and an RRSIG
    record whose decoded signer name is longer than its two wire bytes
    each make [Unpack] panic. *)
Theorem C2_unpack_panics :
  (forall lib rr_mk dns msg, Unpack lib rr_mk dns msg <> OutOfFuel)
  /\ Unpack golib rr_mk_spec Msg_zero ds_bytes = Panic
  /\ Unpack golib rr_mk_spec Msg_zero ds_overrun_bytes = Panic
  /\ Unpack golib rr_mk_spec Msg_zero rrsig_bytes = Panic.
Proof.
  split; [exact Unpack_bounded_work|].
  repeat split; vm_compute; reflexivity.
Qed.

(** * Further properties of the codec *)

(** ** Names: round trip, root name, trailing dot *)

Lemma canon_idempotent (s : gostring) : canon (canon s) = canon s.
Proof.
  destruct (canon_ends s) as (r & Hr). rewrite Hr.
  destruct (canon_cases (r ++ [dot])) as [(Hc & _) | (_ & Hn)];
    [exact Hc|].
  exfalso. apply (Hn r). reflexivity.
Qed.

(** X17: the trailing dot is optional: a name and its canonical form
    pack alike, and the canonical form is stable. *)
Theorem X17_trailing_dot_optional :
  forall s msg off,
    canon (canon s) = canon s
    /\ packDomainName (canon s) msg off = packDomainName s msg off
    /\ (forall r, s = r ++ [dot] -> canon s = s)
    /\ ((forall r, s <> r ++ [dot]) -> canon s = s ++ [dot]).
Proof.
  intros s msg off. split; [apply canon_idempotent|]. split.
  - unfold packDomainName. rewrite canon_idempotent. reflexivity.
  - split.
    + intros r Hr. destruct (canon_cases s) as [(Hc & _) | (_ & Hn)];
        [exact Hc|]. exfalso. apply (Hn r Hr).
    + intros Hn. destruct (canon_cases s) as [(_ & r & Hr) | (Hc & _)];
        [|exact Hc]. exfalso. apply (Hn r Hr).
Qed.

Lemma X17_witness :
  canon (str "example.com") = str "example.com" ++ [dot].
Proof.
  apply (proj2 (proj2 (proj2
           (X17_trailing_dot_optional (str "example.com") [] 0)))).
  intros r Hr. apply (f_equal (@rev byte)) in Hr.
  rewrite rev_app_distr in Hr. vm_compute in Hr. discriminate.
Defined.

(** X1: a name whose labels are all between 1 and 63 bytes long, packed
    into a buffer with room, is read back by [unpackDomainName] in its
    canonical form, and both calls stop at the same offset. *)
Theorem X1_name_roundtrip :
  forall s msg off,
    0 <= off ->
    off + len (canon s) + 1 <= len msg ->
    Forall (fun l => 0 < len l <= 63) (labels s) ->
    exists m,
      packDomainName s msg off = Ret (m, off + len (canon s) + 1, true)
      /\ m = write msg off (encode_labels (labels s) ++ [z2b 0])
      /\ unpackDomainName m off = Ret (canon s, off + len (canon s) + 1, true).
Proof.
  intros s msg off H0 Hroom Hall.
  assert (Hshort : forallb short (labels s) = true).
  { apply forallb_short_true. eapply Forall_impl; [|exact Hall].
    cbn beta. intros l Hl. lia. }
  assert (Hroot : canon s <> [dot]).
  { intros Hc. unfold labels in Hall. rewrite Hc in Hall. cbn in Hall.
    inversion Hall as [|? ? Hl _]. unfold len in Hl. simpl in Hl. lia. }
  assert (Hw : wire_name s = encode_labels (labels s) ++ [z2b 0]).
  { unfold wire_name.
    destruct (list_eq_dec ascii_dec (canon s) [dot]); [contradiction|].
    reflexivity. }
  pose proof (wire_len_canon s) as Hlen.
  pose proof (len_nonneg (canon s)) as Hcn.
  exists (write msg off (wire_name s)).
  split; [|split].
  - rewrite packDomainName_ok by assumption.
    rewrite Hw at 2. rewrite len_app, Hlen.
    change (len [z2b 0]) with 1. rewrite Z.add_assoc. reflexivity.
  - rewrite Hw. reflexivity.
  - set (m := write msg off (wire_name s)).
    assert (Hsk : skipn (Z.to_nat off) m
                  = encode_labels (labels s)
                      ++ z2b 0 :: skipn (Z.to_nat off + length (wire_name s)) msg).
    { unfold m. rewrite skipn_write by lia. rewrite Hw at 1.
      rewrite <- app_assoc. reflexivity. }
    assert (Hfit : (length (encode_labels (labels s)) < length m)%nat).
    { pose proof (f_equal (@length byte) Hsk) as Hl.
      rewrite length_skipn, length_app in Hl. cbn [length] in Hl. lia. }
    unfold unpackDomainName, name_init.
    erewrite unpack_labels; [| |exact H0|exact Hsk|].
    + cbn [app]. rewrite join_labels_canon, Hlen. reflexivity.
    + eapply Forall_impl; [|exact Hall]. cbn beta. intros l Hl. lia.
    + pose proof (encode_labels_count (labels s)) as Hcnt.
      unfold name_fuel, gostring in *. lia.
Qed.

Lemma X1_witness :
  exists m,
    packDomainName (str "example.com") (zero_buf 20) 3
    = Ret (m, 3 + len (canon (str "example.com")) + 1, true)
    /\ m = write (zero_buf 20) 3
             (encode_labels (labels (str "example.com")) ++ [z2b 0])
    /\ unpackDomainName m 3
       = Ret (canon (str "example.com"),
              3 + len (canon (str "example.com")) + 1, true).
Proof.
  apply X1_name_roundtrip.
  - lia.
  - vm_compute. discriminate.
  - assert (E : labels (str "example.com") = [str "example"; str "com"])
      by (vm_compute; reflexivity).
    rewrite E. repeat constructor; vm_compute; congruence.
Defined.

(** X2: the root name ([""] or ["."]) is packed as a single zero byte,
    yet refused unless two bytes are free; and that byte decodes to the
    empty string, not to ["."]. *)
Theorem X2_root_name :
  forall s msg off,
    canon s = [dot] ->
    0 <= off ->
    (off + 2 <= len msg ->
     packDomainName s msg off = Ret (write msg off [z2b 0], off + 1, true)
     /\ unpackDomainName (write msg off [z2b 0]) off = Ret ([], off + 1, true))
    /\ (len msg < off + 2 ->
        packDomainName s msg off = Ret (msg, len msg, false)).
Proof.
  intros s msg off Hc H0. split.
  - intros Hroom.
    assert (Hl : labels s = [[]]) by (unfold labels; rewrite Hc; reflexivity).
    split.
    + rewrite packDomainName_ok.
      * unfold wire_name.
        destruct (list_eq_dec ascii_dec (canon s) [dot]); [|contradiction].
        reflexivity.
      * exact H0.
      * rewrite Hc. change (len [dot]) with 1. lia.
      * rewrite Hl. reflexivity.
    + unfold unpackDomainName, name_init.
      erewrite (unpack_labels [] _ [] off 0 0); [|constructor|exact H0| |].
      * cbn [app join_labels flat_map encode_labels Z.eqb].
        change (len (@nil byte)) with 0. rewrite Z.add_0_r. reflexivity.
      * rewrite skipn_write by lia. reflexivity.
      * unfold name_fuel. simpl. lia.
  - intros Hshort. unfold packDomainName. rewrite Hc.
    change (len [dot] + 1) with 2.
    destruct (Z.gtb_spec (off + 2) (len msg)); [reflexivity|lia].
Qed.

Lemma X2_witness :
  (packDomainName (str ".") (zero_buf 4) 2 = Ret (write (zero_buf 4) 2 [z2b 0], 2 + 1, true)
   /\ unpackDomainName (write (zero_buf 4) 2 [z2b 0]) 2 = Ret ([], 2 + 1, true))
  /\ packDomainName [] (zero_buf 4) 3 = Ret (zero_buf 4, len (zero_buf 4), false).
Proof.
  split.
  - apply (proj1 (X2_root_name (str ".") (zero_buf 4) 2 eq_refl ltac:(lia))).
    vm_compute. discriminate.
  - apply (proj2 (X2_root_name [] (zero_buf 4) 3 eq_refl ltac:(lia))).
    vm_compute. reflexivity.
Defined.

(** ** Names: what a decoded name looks like, and where decoding stops *)

Lemma slice_len {A : Type} (l x : list A) (lo hi : Z) :
  slice l lo hi = Some x -> len x = hi - lo /\ 0 <= lo <= hi /\ hi <= len l.
Proof.
  unfold slice.
  destruct (Z.leb_spec 0 lo); destruct (Z.leb_spec lo hi);
    destruct (Z.leb_spec hi (len l)); cbn [andb]; try discriminate.
  intros Hinj. injection Hinj as <-. split; [|lia].
  unfold len in *. rewrite length_firstn, length_skipn. lia.
Qed.

Lemma loop_false (msg : list byte) :
  forall fuel st s o,
    unpackDomainName_loop fuel msg st = Ret (s, o, false) ->
    s = [] /\ o = len msg.
Proof.
  induction fuel as [|fuel IH]; intros st s o H;
    cbn [unpackDomainName_loop] in H; [discriminate|].
  destruct (unpackDomainName_body msg st) as [st'|r] eqn:Eb;
    [eapply IH; eauto|].
  subst r. revert Eb. unfold unpackDomainName_body, name_fail.
  repeat match goal with
    | |- context [if ?b then _ else _] => destruct b
    | |- context [match ?o with Some _ => _ | None => _ end] => destruct o
    end; intros Hinj; inversion Hinj; auto.
Qed.

Lemma loop_labels (msg : list byte) :
  forall fuel st s o1,
    (exists ls, st_s st = join_labels ls
                /\ Forall (fun l => 0 < len l <= 63) ls) ->
    unpackDomainName_loop fuel msg st = Ret (s, o1, true) ->
    exists ls, s = join_labels ls /\ Forall (fun l => 0 < len l <= 63) ls.
Proof.
  induction fuel as [|fuel IH]; intros st s o1 Hinv Hl;
    cbn [unpackDomainName_loop] in Hl; [discriminate|].
  destruct (unpackDomainName_body msg st) as [st'|r] eqn:Eb.
  - apply (IH st' s o1); [|exact Hl].
    destruct Hinv as (ls & Hs & Hall).
    apply body_inl in Eb. destruct Eb as (cb & _ & Eb).
    destruct Eb as [(Hc & _ & l & Hsl & ->) | (_ & _ & c1 & _ & ->)];
      cbn [st_s].
    + apply slice_len in Hsl. destruct Hsl as [Hlen _].
      exists (ls ++ [l]). split.
      * rewrite join_labels_app, Hs. cbn [join_labels flat_map].
        rewrite app_nil_r. reflexivity.
      * apply Forall_app. split; [exact Hall|]. constructor; [lia|constructor].
    + exists ls. split; assumption.
  - subst r. apply body_inr_ok in Eb. destruct Eb as (-> & _ & _).
    exact Hinv.
Qed.

(** X16: a decoded name is made of labels of 1 to 63 bytes, each followed
    by a dot (the empty string when there is no label). *)
Theorem X16_decoded_name_shape :
  forall msg off s o1,
    unpackDomainName msg off = Ret (s, o1, true) ->
    exists ls, s = join_labels ls /\ Forall (fun l => 0 < len l <= 63) ls.
Proof.
  intros msg off s o1 H. unfold unpackDomainName in H.
  apply (loop_labels msg _ _ _ _) in H; [exact H|].
  exists []. split; [reflexivity|constructor].
Qed.

Lemma X16_witness :
  exists ls, str "foo.bar." = join_labels ls
             /\ Forall (fun l => 0 < len l <= 63) ls.
Proof.
  apply (X16_decoded_name_shape s2_bytes 9 (str "foo.bar.") 11).
  vm_compute. reflexivity.
Defined.

(** X4: from a non-negative offset [unpackDomainName] never panics: it
    either fails with [("", len(msg), false)] or succeeds with an offset
    past [off] and inside the buffer.  From a negative offset it
    panics. *)
Theorem X4_unpackDomainName_safe :
  forall msg off,
    (0 <= off ->
     unpackDomainName msg off = Ret ([], len msg, false)
     \/ exists s o1, unpackDomainName msg off = Ret (s, o1, true)
                     /\ off + 1 <= o1 <= len msg)
    /\ (off < 0 -> unpackDomainName msg off = Panic).
Proof.
  intros msg off. split.
  - apply unpackDomainName_cases.
  - intros Hneg. unfold unpackDomainName, name_fuel.
    replace (12 * (length msg + 1))%nat with (S (12 * length msg + 11)) by lia.
    cbn [unpackDomainName_loop]. unfold unpackDomainName_body.
    cbn [name_init st_off]. pose proof (len_nonneg msg).
    destruct (Z.geb_spec off (len msg)); [lia|].
    unfold index. destruct (Z.ltb_spec off 0); [reflexivity|lia].
Qed.

Lemma X4_witness :
  (unpackDomainName s2_bytes 9 = Ret ([], len s2_bytes, false)
   \/ exists s o1, unpackDomainName s2_bytes 9 = Ret (s, o1, true)
                   /\ 9 + 1 <= o1 <= len s2_bytes)
  /\ unpackDomainName s2_bytes (-1) = Panic.
Proof.
  split.
  - apply (proj1 (X4_unpackDomainName_safe s2_bytes 9)). lia.
  - apply (proj2 (X4_unpackDomainName_safe s2_bytes (-1))). lia.
Defined.

(** ** The failure convention *)

Lemma packDomainName_false (s : gostring) (msg : list byte) (off : Z) m o :
  0 <= off ->
  packDomainName s msg off = Ret (m, o, false) ->
  o = len msg /\ len m = len msg.
Proof.
  intros H0. unfold packDomainName.
  destruct (Z.gtb_spec (off + (len (canon s) + 1)) (len msg)).
  { intros Hinj. injection Hinj as <- <-. split; reflexivity. }
  destruct (pack_loop_spec (canon s) [] [] msg off) as (m1 & Hm1 & Hloop);
    [lia|len_lia|].
  cbn [app] in Hloop. change (len (@nil byte) + len (@nil byte)) with 0 in Hloop.
  change (len (@nil byte)) with 0 in Hloop.
  rewrite Hloop.
  destruct (forallb short (split_dots [] (canon s))); cbn [bind negb].
  - destruct (list_eq_dec ascii_dec (canon s) [dot]); [discriminate|].
    destruct (store _ _ _); cbn [lift bind]; discriminate.
  - intros Hinj. injection Hinj as <- <-. destruct Hm1 as [L _].
    split; [reflexivity|exact L].
Qed.

Lemma pack_fields_false (lib : GoLib) :
  forall fs msg off m o,
    pack_fields lib fs msg off = Ret (m, o, false) -> o = len m.
Proof.
  induction fs as [|[fn tag fv] rest IH]; intros msg off m o H;
    cbn [pack_fields] in H; [discriminate|].
  match type of H with
  | bind ?c _ = _ => destruct c as [[[m1 o1] ok1]| |]
  end; cbn [bind] in H; try discriminate.
  destruct ok1; [eapply IH; exact H|].
  injection H as <- <-. reflexivity.
Qed.

Lemma packStructValue_false (lib : GoLib) (val : value) (msg : list byte)
    (off : Z) m o :
  packStructValue lib val msg off = Ret (m, o, false) -> o = len m.
Proof.
  destruct val; try discriminate.
  rewrite packStructValue_eq. apply pack_fields_false.
Qed.

Lemma packRR_false (lib : GoLib) (rr : option value) (msg : list byte)
    (off : Z) rr' m o :
  packRR lib rr msg off = Ret (rr', m, o, false) -> o = len m.
Proof.
  unfold packRR, packStruct. destruct rr as [r|].
  - destruct (Header r) as [h| |]; cbn [bind]; try discriminate.
    destruct (packStructValue lib h msg off) as [[[m1 o1] ok1]| |];
      cbn [bind]; try discriminate.
    destruct (packStructValue lib r m1 off) as [[[m2 o2] ok2]| |];
      cbn [bind]; try discriminate.
    destruct ok2; cbn [negb].
    + destruct (Header _) as [h'| |]; cbn [bind]; try discriminate.
      destruct (packStructValue lib h' m2 off) as [[[m3 o3] ok3]| |];
        cbn [bind]; discriminate.
    + intros Hinj. injection Hinj as _ <- <-. reflexivity.
  - intros Hinj. injection Hinj as _ <- <-. reflexivity.
Qed.

(** X3: the convention the source states for all its packers and
    unpackers: a call that returns [ok = false] returns [len(msg)] as its
    offset; packing never changes the length of the buffer. *)
Theorem X3_failure_returns_len :
  forall lib rr_mk (msg : list byte) (off : Z),
    (forall s o, unpackDomainName msg off = Ret (s, o, false) ->
                 s = [] /\ o = len msg)
    /\ (forall v v' o, unpackStructValue lib v msg off = Ret (v', o, false) ->
                       o = len msg)
    /\ (forall rr o, unpackRR lib rr_mk msg off = Ret (rr, o, false) ->
                     o = len msg)
    /\ (0 <= off <= len msg ->
        (forall s m o ok, packDomainName s msg off = Ret (m, o, ok) ->
                          len m = len msg /\ (ok = false -> o = len msg))
        /\ (forall v m o ok, packStructValue lib v msg off = Ret (m, o, ok) ->
                             len m = len msg /\ (ok = false -> o = len msg))
        /\ (forall rr rr' m o ok, packRR lib rr msg off = Ret (rr', m, o, ok) ->
                                  len m = len msg /\ (ok = false -> o = len msg))).
Proof.
  intros lib rr_mk msg off. split; [|split; [|split]].
  - intros s o H. unfold unpackDomainName in H. eapply loop_false. exact H.
  - intros v v' o H. eapply unpackStructValue_false. exact H.
  - intros rr o H. eapply unpackRR_false. exact H.
  - intros H0. split; [|split].
    + intros s m o ok H.
      destruct (packDomainName_frame s msg off H0 _ _ _ H) as [[L _] _].
      split; [exact L|]. intros ->.
      apply packDomainName_false in H; [tauto|lia].
    + intros v m o ok H.
      destruct (packStructValue_frame lib v msg off H0 _ _ _ H) as [[L _] _].
      split; [exact L|]. intros ->.
      apply packStructValue_false in H. lia.
    + intros rr rr' m o ok H.
      destruct (packRR_frame lib rr msg off H0 _ _ _ _ H) as [[L _] _].
      split; [exact L|]. intros ->.
      apply packRR_false in H. lia.
Qed.

Lemma X3_witness :
  len (zero_buf 8) = len (zero_buf 8)
  /\ (false = false -> 8 = len (zero_buf 8)).
Proof.
  destruct (X3_failure_returns_len golib rr_mk_spec (zero_buf 8) 3)
    as (_ & _ & _ & Hpack).
  destruct (Hpack ltac:(vm_compute; split; discriminate)) as (Hname & _ & _).
  apply (Hname label64_name (zero_buf 8) 8 false).
  vm_compute. reflexivity.
Defined.

(** ** Big-endian fields *)

Lemma lor_shiftl_small (a b n : Z) :
  0 <= n -> 0 <= b < 2 ^ n -> Z.lor (Z.shiftl a n) b = a * 2 ^ n + b.
Proof.
  intros Hn Hb. rewrite Z.shiftl_mul_pow2 by lia.
  assert (Hl : Z.land (a * 2 ^ n) b = 0).
  { apply Z.bits_inj'. intros i Hi. rewrite Z.land_spec, Z.bits_0.
    destruct (Z.ltb_spec i n).
    - rewrite Z.mul_pow2_bits_low by lia. reflexivity.
    - destruct (Z.eq_dec b 0) as [->|];
        [rewrite Z.bits_0; apply andb_false_r|].
      rewrite (Z.bits_above_log2 b i); [apply andb_false_r|lia|].
      apply Z.log2_lt_pow2; [lia|].
      apply Z.lt_le_trans with (2 ^ n); [lia|].
      apply Z.pow_le_mono_r; lia. }
  rewrite <- (Z.lxor_lor _ _ Hl), <- (Z.add_nocarry_lxor _ _ Hl).
  reflexivity.
Qed.

Lemma lor_add_mul (x a b n : Z) :
  x = a * 2 ^ n -> 0 <= n -> 0 <= b < 2 ^ n -> Z.lor x b = x + b.
Proof.
  intros -> Hn Hb. rewrite <- lor_shiftl_small by assumption.
  rewrite Z.shiftl_mul_pow2 by lia. reflexivity.
Qed.

Lemma byte_at_index (msg : list byte) (i : Z) (b : byte) :
  index msg i = Some b -> byte_at msg i = b2z b.
Proof. unfold byte_at. intros ->. reflexivity. Qed.

Lemma byte_at_range (msg : list byte) (i : Z) : 0 <= byte_at msg i < 256.
Proof.
  unfold byte_at. destruct (index msg i) as [b|]; [apply b2z_range|lia].
Qed.

(** A field of 8, 16 or 32 bits that fits is read big-endian. *)
Lemma unpack_uint_spec (k : UintKind) (old : Z) (msg : list byte) (off : Z) :
  0 <= off -> k <> UintOther -> off + uint_width k <= len msg ->
  unpack_uint k old msg off = Ret (be_uint k msg off, off + uint_width k, true).
Proof.
  intros H0 Hk Hfit. unfold unpack_uint, unpackUint16, be_uint, be16, be32.
  destruct k; cbn [uint_width] in *; [| | |congruence].
  - destruct (Z.gtb_spec (off + 1) (len msg)); [lia|].
    destruct (index_in_range msg off) as (b & Hb); [lia|].
    rewrite Hb, (byte_at_index _ _ _ Hb). reflexivity.
  - destruct (Z.gtb_spec (off + 2) (len msg)); [lia|].
    destruct (index_in_range msg off) as (b0 & Hb0); [lia|].
    destruct (index_in_range msg (off + 1)) as (b1 & Hb1); [lia|].
    rewrite Hb0, Hb1, (byte_at_index _ _ _ Hb0), (byte_at_index _ _ _ Hb1).
    cbn [lift bind].
    rewrite lor_shiftl_small by (pose proof (b2z_range b1); lia).
    reflexivity.
  - destruct (Z.gtb_spec (off + 4) (len msg)); [lia|].
    destruct (index_in_range msg off) as (b0 & Hb0); [lia|].
    destruct (index_in_range msg (off + 1)) as (b1 & Hb1); [lia|].
    destruct (index_in_range msg (off + 2)) as (b2 & Hb2); [lia|].
    destruct (index_in_range msg (off + 3)) as (b3 & Hb3); [lia|].
    rewrite Hb0, Hb1, Hb2, Hb3.
    rewrite (byte_at_index _ _ _ Hb0), (byte_at_index _ _ _ Hb1),
      (byte_at_index _ _ _ Hb2), (byte_at_index _ _ _ Hb3).
    cbn [lift bind].
    pose proof (b2z_range b0). pose proof (b2z_range b1).
    pose proof (b2z_range b2). pose proof (b2z_range b3).
    rewrite !Z.shiftl_mul_pow2 by lia.
    change (2 ^ 24) with 16777216. change (2 ^ 16) with 65536.
    change (2 ^ 8) with 256.
    rewrite (lor_add_mul _ (b2z b0) (b2z b1 * 65536) 24);
      [|reflexivity|lia|simpl; lia].
    rewrite (lor_add_mul _ (b2z b0 * 256 + b2z b1) (b2z b2 * 256) 16);
      [|simpl; lia|lia|simpl; lia].
    rewrite (lor_add_mul _ ((b2z b0 * 256 + b2z b1) * 256 + b2z b2) (b2z b3) 8);
      [|simpl; lia|lia|simpl; lia].
    do 3 f_equal. lia.
Qed.

Lemma unpack_uint_short (k : UintKind) (old : Z) (msg : list byte) (off : Z) :
  len msg < off + uint_width k \/ k = UintOther ->
  unpack_uint k old msg off = Ret (old, len msg, false).
Proof.
  intros H. unfold unpack_uint.
  destruct k; cbn [uint_width] in H;
    try (match goal with
         | |- context [if ?a >? ?b then _ else _] => destruct (Z.gtb_spec a b)
         end);
    try reflexivity; destruct H; try lia; discriminate.
Qed.

Lemma be_uint_range (k : UintKind) (msg : list byte) (i : Z) :
  0 <= be_uint k msg i < 2 ^ (8 * uint_width k).
Proof.
  unfold be_uint, be16, be32.
  pose proof (byte_at_range msg i). pose proof (byte_at_range msg (i + 1)).
  pose proof (byte_at_range msg (i + 2)). pose proof (byte_at_range msg (i + 3)).
  destruct k; cbn [uint_width]; simpl; lia.
Qed.

(** ** Fixed-width fields inside a record *)

Lemma unpack_fields_uint_ok (lib : GoLib) (msg : list byte) (name : string)
    (done : list field) (fn tag : string) (k : UintKind) (old : Z)
    (rest : list field) (off : Z) :
  0 <= off -> k <> UintOther -> off + uint_width k <= len msg ->
  unpack_fields lib msg name done (Field fn tag (UintValue k old) :: rest) off
  = unpack_fields lib msg name
      (Field fn tag (UintValue k (be_uint k msg off)) :: done) rest
      (off + uint_width k).
Proof.
  intros H0 Hk Hfit. cbn [unpack_fields].
  rewrite unpack_uint_spec by assumption. reflexivity.
Qed.

Lemma unpack_fields_uint_short (lib : GoLib) (msg : list byte) (name : string)
    (done : list field) (fn tag : string) (k : UintKind) (old : Z)
    (rest : list field) (off : Z) :
  len msg < off + uint_width k \/ k = UintOther ->
  unpack_fields lib msg name done (Field fn tag (UintValue k old) :: rest) off
  = Ret (StructValue name (rev done ++ Field fn tag (UintValue k old) :: rest),
         len msg, false).
Proof.
  intros H. cbn [unpack_fields].
  rewrite unpack_uint_short by assumption. reflexivity.
Qed.

(** The twelve bytes of the message header, read as six 16-bit words. *)
Lemma unpack_Header_ok (lib : GoLib) (msg : list byte) :
  12 <= len msg ->
  unpackStruct lib Header_zero msg 0
  = Ret (wire_header (be16 msg 0) (be16 msg 2) (be16 msg 4) (be16 msg 6)
           (be16 msg 8) (be16 msg 10), 12, true).
Proof.
  intros H. unfold unpackStruct, Header_zero, u16.
  rewrite unpackStructValue_eq.
  do 6 (rewrite unpack_fields_uint_ok;
        [|cbn [uint_width]; lia|discriminate|cbn [uint_width]; lia]).
  reflexivity.
Qed.

Lemma unpack_Header_short (lib : GoLib) (msg : list byte) :
  len msg < 12 ->
  exists v, unpackStruct lib Header_zero msg 0 = Ret (v, len msg, false).
Proof.
  intros H. unfold unpackStruct, Header_zero, u16.
  rewrite unpackStructValue_eq.
  do 6 (match goal with
        | |- context [unpack_fields _ _ _ _ (Field _ _ (UintValue Uint16 _) :: _) ?o] =>
            destruct (Z_lt_le_dec (len msg) (o + 2));
            [rewrite unpack_fields_uint_short by (left; cbn [uint_width] in *; lia);
             eexists; reflexivity
            |rewrite unpack_fields_uint_ok;
             [|cbn [uint_width] in *; lia|discriminate|cbn [uint_width] in *; lia]]
        end).
  cbn [uint_width] in *. exfalso. lia.
Qed.

(** The RR header: a name, then ten bytes read as type, class, TTL and
    data length. *)
Lemma unpack_RR_Header_ok (lib : GoLib) (msg : list byte) (off : Z) h off_h :
  0 <= off ->
  unpackStruct lib RR_Header_zero msg off = Ret (h, off_h, true) ->
  exists s o1,
    unpackDomainName msg off = Ret (s, o1, true)
    /\ off + 1 <= o1
    /\ off_h = o1 + 10
    /\ off_h <= len msg
    /\ h = StructValue "RR_Header"
             [Field "Name" "domain-name" (StringValue s);
              Field "Rrtype" "" (UintValue Uint16 (be16 msg o1));
              Field "Class" "" (UintValue Uint16 (be16 msg (o1 + 2)));
              Field "Ttl" "" (UintValue Uint32 (be32 msg (o1 + 4)));
              Field "Rdlength" "" (UintValue Uint16 (be16 msg (o1 + 8)))].
Proof.
  intros H0. unfold unpackStruct, RR_Header_zero.
  rewrite unpackStructValue_eq.
  cbn [unpack_fields RR_Header_fields name_field u16 u32]. unfold unpack_string.
  cbn [String.eqb Ascii.eqb Bool.eqb].
  destruct (unpackDomainName_cases msg off H0) as [-> | (s & o1 & -> & Ho1)];
    [discriminate|].
  cbn [bind negb]. fold (u16 "Rrtype").
  change (fun x => ?f x) with f.
  intros H. exists s, o1. split; [reflexivity|]. split; [lia|].
  revert H.
  destruct (Z_lt_le_dec (len msg) (o1 + 2)).
  { rewrite unpack_uint_short by (left; cbn [uint_width]; lia). discriminate. }
  rewrite unpack_uint_spec by (cbn [uint_width]; first [lia|discriminate]).
  cbn [bind uint_width be_uint].
  destruct (Z_lt_le_dec (len msg) (o1 + 2 + 2)).
  { rewrite unpack_uint_short by (left; cbn [uint_width]; lia). discriminate. }
  rewrite unpack_uint_spec by (cbn [uint_width]; first [lia|discriminate]).
  cbn [bind uint_width be_uint].
  destruct (Z_lt_le_dec (len msg) (o1 + 2 + 2 + 4)).
  { rewrite unpack_uint_short by (left; cbn [uint_width]; lia). discriminate. }
  rewrite unpack_uint_spec by (cbn [uint_width]; first [lia|discriminate]).
  cbn [bind uint_width be_uint].
  destruct (Z_lt_le_dec (len msg) (o1 + 2 + 2 + 4 + 2)).
  { rewrite unpack_uint_short by (left; cbn [uint_width]; lia). discriminate. }
  rewrite unpack_uint_spec by (cbn [uint_width]; first [lia|discriminate]).
  cbn [bind uint_width be_uint rev app].
  intros H. injection H as <- <-.
  replace (o1 + 2 + 2) with (o1 + 4) by lia.
  replace (o1 + 4 + 4) with (o1 + 8) by lia.
  split; [lia|]. split; [lia|]. reflexivity.
Qed.

(** ** Packing: the frame *)

(** X5: packing a record at [off] leaves the length of the buffer and
    every byte below [off] as they were, and returns an offset between
    [off] and the end of the buffer, whether it succeeds or not; the same
    holds of [packRR], which packs its record three times. *)
Theorem X5_pack_keeps_buffer_below :
  forall lib msg off,
    0 <= off <= len msg ->
    (forall val m off' ok,
        packStructValue lib val msg off = Ret (m, off', ok) ->
        len m = len msg
        /\ (forall i, 0 <= i < off -> index m i = index msg i)
        /\ off <= off' <= len msg)
    /\ (forall rr rr' m off' ok,
           packRR lib rr msg off = Ret (rr', m, off', ok) ->
           len m = len msg
           /\ (forall i, 0 <= i < off -> index m i = index msg i)
           /\ off <= off' <= len msg).
Proof.
  intros lib msg off Hoff. split.
  - intros val m off' ok E.
    destruct (packStructValue_frame lib val msg off Hoff m off' ok E)
      as (Hs & Hb).
    split; [exact (proj1 Hs)|]. split.
    + intros i Hi. apply (same_below_index off); assumption.
    + rewrite <- (proj1 Hs). exact Hb.
  - intros rr rr' m off' ok E.
    destruct (packRR_frame lib rr msg off Hoff rr' m off' ok E) as (Hs & Hb).
    split; [exact (proj1 Hs)|]. split.
    + intros i Hi. apply (same_below_index off); assumption.
    + rewrite <- (proj1 Hs). exact Hb.
Qed.

Lemma X5_witness :
  len (write (zero_buf 8) 3 (wire_uint Uint16 0x0102)) = len (zero_buf 8)
  /\ (forall i, 0 <= i < 3 ->
        index (write (zero_buf 8) 3 (wire_uint Uint16 0x0102)) i
        = index (zero_buf 8) i)
  /\ 3 <= 5 <= len (zero_buf 8).
Proof.
  apply (proj1 (X5_pack_keeps_buffer_below golib (zero_buf 8) 3
                  ltac:(vm_compute; split; discriminate))
           (StructValue "T" [Field "F" "" (UintValue Uint16 0x0102)])
           (write (zero_buf 8) 3 (wire_uint Uint16 0x0102)) 5 true).
  vm_compute. reflexivity.
Defined.

(** ** Nested records *)

(** X6: a failure inside a nested record is not reported by [ok].  The
    walkers assign the result of the recursive call to [off, ok] and go
    on with the next field, so a record whose only field is a nested
    record returns [ok = true] whatever the nested call returned; the
    failure shows in the offset alone. *)
Theorem X6_nested_failure_not_reported :
  forall lib name fn tag n' fs' msg off,
    (forall m o ok,
        packStructValue lib (StructValue n' fs') msg off = Ret (m, o, ok) ->
        packStructValue lib
          (StructValue name [Field fn tag (StructValue n' fs')]) msg off
        = Ret (m, o, true))
    /\ (forall v o ok,
           unpackStructValue lib (StructValue n' fs') msg off = Ret (v, o, ok) ->
           unpackStructValue lib
             (StructValue name [Field fn tag (StructValue n' fs')]) msg off
           = Ret (StructValue name [Field fn tag v], o, true)).
Proof.
  intros lib name fn tag n' fs' msg off. split.
  - intros m o ok E.
    rewrite (packStructValue_eq lib name). cbn [pack_fields].
    rewrite E. reflexivity.
  - intros v o ok E.
    rewrite (unpackStructValue_eq lib name). cbn [unpack_fields].
    rewrite E. reflexivity.
Qed.

Lemma X6_witness :
  packStructValue golib
    (StructValue "RR_X" [Field "Hdr" "" RR_Header_zero]) (zero_buf 1) 0
  = Ret (zero_buf 1, 1, true)
  /\ unpackStructValue golib
       (StructValue "RR_X" [Field "Hdr" "" RR_Header_zero]) (zero_buf 1) 0
     = Ret (StructValue "RR_X" [Field "Hdr" "" RR_Header_zero], 1, true).
Proof.
  split.
  - apply (proj1 (X6_nested_failure_not_reported golib "RR_X" "Hdr" ""
                    "RR_Header" RR_Header_fields (zero_buf 1) 0)
             (zero_buf 1) 1 false).
    vm_compute. reflexivity.
  - apply (proj2 (X6_nested_failure_not_reported golib "RR_X" "Hdr" ""
                    "RR_Header" RR_Header_fields (zero_buf 1) 0)
             RR_Header_zero 1 false).
    vm_compute. reflexivity.
Defined.

(** ** [Unpack]: what the header decides *)

Lemma land_pow2_testbit (z n : Z) :
  0 <= n -> Z.land z (2 ^ n) = if Z.testbit z n then 2 ^ n else 0.
Proof.
  intros Hn. apply Z.bits_inj'. intros m Hm.
  rewrite Z.land_spec, Z.pow2_bits_eqb by lia.
  destruct (Z.eqb_spec n m) as [->|Hne].
  - destruct (Z.testbit z m) eqn:E.
    + rewrite Z.pow2_bits_eqb, Z.eqb_refl by lia. reflexivity.
    + rewrite Z.bits_0. reflexivity.
  - rewrite andb_false_r.
    destruct (Z.testbit z n).
    + rewrite Z.pow2_bits_eqb by lia.
      destruct (Z.eqb_spec n m); [contradiction|reflexivity].
    + rewrite Z.bits_0. reflexivity.
Qed.

Lemma mask_testbit (z n : Z) :
  0 <= n -> negb (Z.land z (2 ^ n) =? 0) = Z.testbit z n.
Proof.
  intros Hn. rewrite land_pow2_testbit by assumption.
  destruct (Z.testbit z n); [|reflexivity].
  assert (0 < 2 ^ n) by (apply Z.pow_pos_nonneg; lia).
  destruct (Z.eqb_spec (2 ^ n) 0); [lia|reflexivity].
Qed.

(** The header that [Unpack] writes, bit by bit. *)
Lemma unpack_hdr_bits (old : MsgHdr) (id bits : Z) :
  unpack_hdr old id bits
  = mkMsgHdr id (Z.testbit bits 15) ((bits / 2048) mod 16)
      (Z.testbit bits 10) (Z.testbit bits 9) (Z.testbit bits 8)
      (Z.testbit bits 7) (Zero old) (AuthenticatedData old)
      (CheckingDisabled old) (bits mod 16).
Proof.
  unfold unpack_hdr, _QR, _AA, _TC, _RD, _RA.
  change 0x8000 with (2 ^ 15). change 0x0400 with (2 ^ 10).
  change 0x0200 with (2 ^ 9). change 0x0100 with (2 ^ 8).
  change 0x0080 with (2 ^ 7).
  rewrite !mask_testbit by lia.
  change 0xF with (Z.ones 4). rewrite !Z.land_ones by lia.
  rewrite Z.shiftr_div_pow2 by lia. reflexivity.
Qed.

Lemma unpack_questions_length (lib : GoLib) :
  forall qs msg off ok qs' o ok',
    unpack_questions lib qs msg off ok = Ret (qs', o, ok') ->
    length qs' = length qs.
Proof.
  induction qs as [|q qs IH]; intros msg off ok qs' o ok' E; cbn in E.
  - injection E as <- _ _. reflexivity.
  - destruct (unpackStruct lib q msg off) as [[[q1 o1] k1]| |]; cbn in E;
      try discriminate.
    destruct (unpack_questions lib qs msg o1 k1) as [[[r o2] k2]| |] eqn:Er;
      cbn in E; try discriminate.
    injection E as <- _ _. cbn. f_equal. eapply IH. exact Er.
Qed.

Lemma unpack_rrs_length (lib : GoLib) (rr_mk : Z -> option value) :
  forall n msg off ok rrs o ok',
    unpack_rrs lib rr_mk n msg off ok = Ret (rrs, o, ok') ->
    length rrs = n.
Proof.
  induction n as [|n IH]; intros msg off ok rrs o ok' E; cbn in E.
  - injection E as <- _ _. reflexivity.
  - destruct (unpackRR lib rr_mk msg off) as [[[r1 o1] k1]| |]; cbn in E;
      try discriminate.
    destruct (unpack_rrs lib rr_mk n msg o1 k1) as [[[r o2] k2]| |] eqn:Er;
      cbn in E; try discriminate.
    injection E as <- _ _. cbn. f_equal. eapply IH. exact Er.
Qed.

Lemma uint_field_wire_header (id bits qd an ns ar : Z) :
  uint_field (wire_header id bits qd an ns ar) "Id" = id
  /\ uint_field (wire_header id bits qd an ns ar) "Bits" = bits
  /\ uint_field (wire_header id bits qd an ns ar) "Qdcount" = qd
  /\ uint_field (wire_header id bits qd an ns ar) "Ancount" = an
  /\ uint_field (wire_header id bits qd an ns ar) "Nscount" = ns
  /\ uint_field (wire_header id bits qd an ns ar) "Arcount" = ar.
Proof. repeat split. Qed.

(** [Unpack] on a buffer that holds a header, call by call. *)
Lemma Unpack_inv (lib : GoLib) (rr_mk : Z -> option value) (dns : Msg)
    (msg : list byte) dns' ok lg :
  12 <= len msg ->
  Unpack lib rr_mk dns msg = Ret (dns', ok, lg) ->
  exists qs o1 k1 an o2 k2 ns o3 k3 ex o4,
    unpack_questions lib (repeat Question_zero (Z.to_nat (be16 msg 4))) msg 12 true
    = Ret (qs, o1, k1)
    /\ unpack_rrs lib rr_mk (Z.to_nat (be16 msg 6)) msg o1 k1 = Ret (an, o2, k2)
    /\ unpack_rrs lib rr_mk (Z.to_nat (be16 msg 8)) msg o2 k2 = Ret (ns, o3, k3)
    /\ unpack_rrs lib rr_mk (Z.to_nat (be16 msg 10)) msg o3 k3 = Ret (ex, o4, ok)
    /\ dns' = mkMsg (unpack_hdr (hdr dns) (be16 msg 0) (be16 msg 2)) qs an ns ex
    /\ lg = ok && negb (o4 =? len msg).
Proof.
  intros Hlen. unfold Unpack. rewrite unpack_Header_ok by assumption.
  cbn [bind negb].
  destruct (uint_field_wire_header (be16 msg 0) (be16 msg 2) (be16 msg 4)
              (be16 msg 6) (be16 msg 8) (be16 msg 10))
    as (-> & -> & -> & -> & -> & ->).
  destruct (unpack_questions lib _ msg 12 true) as [[[qs o1] k1]| |] eqn:Eq;
    cbn [bind]; try discriminate.
  destruct (unpack_rrs lib rr_mk _ msg o1 k1) as [[[an o2] k2]| |] eqn:Ea;
    cbn [bind]; try discriminate.
  destruct (unpack_rrs lib rr_mk _ msg o2 k2) as [[[ns o3] k3]| |] eqn:En;
    cbn [bind]; try discriminate.
  destruct (unpack_rrs lib rr_mk _ msg o3 k3) as [[[ex o4] k4]| |] eqn:Ee;
    cbn [bind]; try discriminate.
  intros E. exists qs, o1, k1, an, o2, k2, ns, o3, k3, ex, o4.
  destruct k4; cbn [negb] in E; injection E as <- <- <-;
    repeat split; first [assumption|reflexivity].
Qed.

(** X8: a buffer of fewer than twelve bytes holds no header: [Unpack]
    returns false and leaves the receiver as it was. *)
Theorem X8_Unpack_short_buffer :
  forall lib rr_mk dns msg,
    len msg < 12 ->
    Unpack lib rr_mk dns msg = Ret (dns, false, false).
Proof.
  intros lib rr_mk dns msg H. unfold Unpack.
  destruct (unpack_Header_short lib msg H) as (v & ->). reflexivity.
Qed.

Lemma X8_witness :
  Unpack golib rr_mk_spec flags_msg (zero_buf 11) = Ret (flags_msg, false, false).
Proof.
  apply X8_Unpack_short_buffer. vm_compute. reflexivity.
Defined.

(** X18: on a buffer of twelve bytes or more, whatever follows them and
    whether or not [Unpack] then succeeds, the receiver gets its [Id] from
    bytes 0-1, its flags, [Opcode] and [Rcode] from the bits of the word
    at bytes 2-3, and sections of as many entries as the four counts at
    bytes 4-11 declare (up to 65535 each), even when the buffer ends
    right after the header. *)
Theorem X18_Unpack_header_decides :
  forall lib rr_mk dns msg dns' ok lg,
    12 <= len msg ->
    Unpack lib rr_mk dns msg = Ret (dns', ok, lg) ->
    let bits := be16 msg 2 in
    Id (hdr dns') = be16 msg 0
    /\ Response (hdr dns') = Z.testbit bits 15
    /\ Opcode (hdr dns') = (bits / 2048) mod 16
    /\ Authoritative (hdr dns') = Z.testbit bits 10
    /\ Truncated (hdr dns') = Z.testbit bits 9
    /\ RecursionDesired (hdr dns') = Z.testbit bits 8
    /\ RecursionAvailable (hdr dns') = Z.testbit bits 7
    /\ Rcode (hdr dns') = bits mod 16
    /\ len (Question dns') = be16 msg 4
    /\ len (Answer dns') = be16 msg 6
    /\ len (Ns dns') = be16 msg 8
    /\ len (Extra dns') = be16 msg 10.
Proof.
  intros lib rr_mk dns msg dns' ok lg Hlen E bits.
  destruct (Unpack_inv lib rr_mk dns msg dns' ok lg Hlen E)
    as (qs & o1 & k1 & an & o2 & k2 & ns & o3 & k3 & ex & o4
        & Eq & Ea & En & Ee & -> & _).
  rewrite unpack_hdr_bits. cbn [hdr Id Response Opcode Authoritative Truncated
    RecursionDesired RecursionAvailable Rcode Question Answer Ns Extra].
  apply unpack_questions_length in Eq. rewrite repeat_length in Eq.
  apply unpack_rrs_length in Ea. apply unpack_rrs_length in En.
  apply unpack_rrs_length in Ee.
  pose proof (be_uint_range Uint16 msg 4) as R4.
  pose proof (be_uint_range Uint16 msg 6) as R6.
  pose proof (be_uint_range Uint16 msg 8) as R8.
  pose proof (be_uint_range Uint16 msg 10) as R10.
  cbn [be_uint] in *.
  unfold len. rewrite Eq, Ea, En, Ee.
  repeat split; try reflexivity; apply Z2Nat.id; lia.
Qed.

Lemma X18_witness :
  let bits := be16 a_bytes 2 in
  Id (hdr a_unpacked) = be16 a_bytes 0
  /\ Response (hdr a_unpacked) = Z.testbit bits 15
  /\ Opcode (hdr a_unpacked) = (bits / 2048) mod 16
  /\ Authoritative (hdr a_unpacked) = Z.testbit bits 10
  /\ Truncated (hdr a_unpacked) = Z.testbit bits 9
  /\ RecursionDesired (hdr a_unpacked) = Z.testbit bits 8
  /\ RecursionAvailable (hdr a_unpacked) = Z.testbit bits 7
  /\ Rcode (hdr a_unpacked) = bits mod 16
  /\ len (Question a_unpacked) = be16 a_bytes 4
  /\ len (Answer a_unpacked) = be16 a_bytes 6
  /\ len (Ns a_unpacked) = be16 a_bytes 8
  /\ len (Extra a_unpacked) = be16 a_bytes 10.
Proof.
  apply (X18_Unpack_header_decides golib rr_mk_spec Msg_zero a_bytes
           a_unpacked true true).
  - vm_compute. discriminate.
  - vm_compute. reflexivity.
Defined.

(** ** [unpackRR]: where the next record starts *)

(** X19: when [unpackRR] returns, either it failed on the header (nil
    record, offset [len(msg)], false) or the owner name was decoded up to
    some [on], the ten bytes after it lie in the buffer, and the offset
    returned is [on + 10] plus the 16-bit length at [on + 8]: the
    declared length alone decides where the next record starts, so that
    offset can lie up to 65535 bytes past the end of the buffer.  The
    record returned is then never nil. *)
Theorem X19_unpackRR_next_offset :
  forall lib rr_mk msg off rr o1 ok,
    0 <= off ->
    unpackRR lib rr_mk msg off = Ret (rr, o1, ok) ->
    (rr = None /\ o1 = len msg /\ ok = false)
    \/ (exists s on,
          unpackDomainName msg off = Ret (s, on, true)
          /\ off + 1 <= on /\ on + 10 <= len msg
          /\ o1 = on + 10 + be16 msg (on + 8)
          /\ 0 <= be16 msg (on + 8) < 65536
          /\ rr <> None).
Proof.
  intros lib rr_mk msg off rr o1 ok H0. unfold unpackRR.
  destruct (unpackStruct lib RR_Header_zero msg off) as [[[h oh] k]| |] eqn:Eh;
    cbn [bind]; try discriminate.
  destruct k; cbn [negb].
  2:{ intros E. injection E as <- <- <-. left. repeat split. }
  destruct (unpack_RR_Header_ok lib msg off h oh H0 Eh)
    as (s & on & En & Hon & -> & Hfit & ->).
  match goal with
  | |- context [uint_field ?v "Rdlength"] =>
      change (uint_field v "Rdlength") with (be16 msg (on + 8))
  end.
  pose proof (be_uint_range Uint16 msg (on + 8)) as Hr. cbn in Hr.
  intros E. right. exists s, on.
  split; [exact En|]. split; [lia|]. split; [lia|].
  revert E.
  match goal with |- context [rr_mk ?t] => destruct (rr_mk t) as [mk|] end.
  - destruct (unpackStruct lib mk msg off) as [[[r o] k]| |]; cbn [bind];
      try discriminate.
    destruct (Z.eqb_spec o (on + 10 + be16 msg (on + 8))) as [->|Hne];
      cbn [negb]; intros E; injection E as <- <- <-;
      (split; [reflexivity|split; [lia|discriminate]]).
  - intros E; injection E as <- <- <-.
    split; [reflexivity|split; [lia|discriminate]].
Qed.

Lemma X19_witness :
  (Some a_header = None /\ 23 + uint_field a_header "Rdlength" = len a_bytes
   /\ true = false)
  \/ (exists s on,
        unpackDomainName a_bytes 12 = Ret (s, on, true)
        /\ 12 + 1 <= on /\ on + 10 <= len a_bytes
        /\ 23 + uint_field a_header "Rdlength" = on + 10 + be16 a_bytes (on + 8)
        /\ 0 <= be16 a_bytes (on + 8) < 65536
        /\ Some a_header <> None).
Proof.
  apply (X19_unpackRR_next_offset golib rr_mk_spec a_bytes 12).
  - lia.
  - vm_compute. reflexivity.
Defined.

(** ** Plain records: the wire form, written and read back *)

Lemma wire_value_struct (name : string) (fs : list field) :
  wire_value (StructValue name fs) = flat_map wire_field fs.
Proof. reflexivity. Qed.

Lemma plain_struct (name : string) (fs : list field) :
  plain (StructValue name fs) = forallb plain_field fs.
Proof. reflexivity. Qed.

Lemma blank_struct (name : string) (fs : list field) :
  blank (StructValue name fs) = StructValue name (map blank_field fs).
Proof. reflexivity. Qed.

Lemma store_bytes_write :
  forall bs msg off,
    0 <= off -> off + len bs <= len msg ->
    store_bytes msg off bs = Ret (write msg off bs).
Proof.
  induction bs as [|b bs IH]; intros msg off H0 Hfit; cbn [store_bytes].
  - rewrite write_nil. reflexivity.
  - rewrite len_cons in Hfit. pose proof (len_nonneg bs) as Hn.
    rewrite store_write by lia. cbn [lift bind].
    assert (L : len (write msg off [b]) = len msg).
    { apply len_write; [lia|]. change (len [b]) with 1. lia. }
    rewrite IH by lia.
    f_equal. apply (write_write msg off [b] bs); [lia|].
    change (len [b]) with 1. lia.
Qed.

Lemma index_skipn_app {A : Type} (l : list A) (off : Z) (pre : list A) (c : A)
    (r : list A) :
  0 <= off -> skipn (Z.to_nat off) l = pre ++ c :: r ->
  index l (off + len pre) = Some c.
Proof.
  intros H0 E. unfold index. pose proof (len_nonneg pre) as Hn.
  destruct (Z.ltb_spec (off + len pre) 0); [lia|].
  replace (Z.to_nat (off + len pre)) with (Z.to_nat off + length pre)%nat
    by (unfold len; lia).
  rewrite <- nth_error_skipn_add, E.
  rewrite nth_error_app2 by lia. rewrite Nat.sub_diag. reflexivity.
Qed.

Lemma skipn_app_fit {A : Type} (l : list A) (off : Z) (x : A) (w tail : list A) :
  0 <= off -> skipn (Z.to_nat off) l = (x :: w) ++ tail ->
  off + len (x :: w) + len tail = len l.
Proof.
  intros H0 E. cbn [app] in E.
  pose proof (skipn_cons_len l off x (w ++ tail) H0 E) as H.
  rewrite len_app in H. rewrite len_cons. lia.
Qed.

Lemma skipn_skip_app {A : Type} (l : list A) (off : Z) (w tail : list A) :
  0 <= off -> skipn (Z.to_nat off) l = w ++ tail ->
  skipn (Z.to_nat (off + len w)) l = tail.
Proof.
  intros H0 E. rewrite skipn_Z by (try apply len_nonneg; lia). rewrite E.
  unfold len. rewrite Nat2Z.id.
  rewrite <- (Nat.add_0_r (length w)). rewrite skipn_length_app. reflexivity.
Qed.

Lemma b2z_z2b_mod (z : Z) : b2z (z2b z) = z mod 256.
Proof.
  assert (E : z2b z = z2b (z mod 256)).
  { unfold z2b. rewrite Z.mod_mod by lia. reflexivity. }
  rewrite E. apply b2z_z2b. apply Z.mod_pos_bound. lia.
Qed.

Lemma byte_at_skipn (msg : list byte) (off : Z) (pre : list byte) (c : byte)
    (r : list byte) :
  0 <= off -> skipn (Z.to_nat off) msg = pre ++ c :: r ->
  byte_at msg (off + len pre) = b2z c.
Proof.
  intros H0 E. unfold byte_at. rewrite (index_skipn_app _ _ _ _ _ H0 E).
  reflexivity.
Qed.

(** *** Unsigned integers *)

Lemma wire_uint_len (k : UintKind) (n : Z) : len (wire_uint k n) = uint_width k.
Proof. destruct k; reflexivity. Qed.

Lemma uint_fits_range (k : UintKind) (n : Z) :
  uint_fits k n = true -> k <> UintOther /\ 0 <= n < 2 ^ (8 * uint_width k).
Proof.
  unfold uint_fits. destruct k; try discriminate;
    intros H; apply andb_prop in H; destruct H as [H1 H2];
    apply Z.leb_le in H1; apply Z.ltb_lt in H2;
    (split; [discriminate|split; assumption]).
Qed.

Lemma pack_uint_wire (k : UintKind) (n : Z) (msg : list byte) (off : Z) :
  0 <= off -> k <> UintOther -> off + uint_width k <= len msg ->
  pack_uint k n msg off
  = Ret (write msg off (wire_uint k n), off + uint_width k, true).
Proof.
  intros H0 Hk Hfit. unfold pack_uint.
  destruct k; cbn [uint_width wire_uint] in *; [| | |congruence];
    match goal with
    | |- context [if ?a >? ?b then _ else _] =>
        destruct (Z.gtb_spec a b); [lia|]
    end;
    rewrite store_bytes_write by (try len_lia; lia); reflexivity.
Qed.

Lemma be_uint_wire (k : UintKind) (n : Z) (msg : list byte) (off : Z)
    (tail : list byte) :
  0 <= off -> uint_fits k n = true ->
  skipn (Z.to_nat off) msg = wire_uint k n ++ tail ->
  be_uint k msg off = n /\ off + uint_width k <= len msg.
Proof.
  intros H0 Hf E. destruct (uint_fits_range k n Hf) as (Hk & Hr).
  destruct k; cbn [wire_uint uint_width be_uint] in *; [| | |congruence].
  - pose proof (skipn_app_fit msg off _ [] tail H0 E) as Hl.
    pose proof (len_nonneg tail).
    pose proof (byte_at_skipn msg off [] _ _ H0 E) as B0.
    change (len (@nil byte)) with 0 in B0. rewrite Z.add_0_r in B0.
    rewrite B0, b2z_z2b_mod. change (len [z2b n]) with 1 in Hl.
    split; [apply Z.mod_small; simpl in Hr; lia|lia].
  - pose proof (skipn_app_fit msg off _ _ tail H0 E) as Hl.
    pose proof (len_nonneg tail).
    pose proof (byte_at_skipn msg off [] _ _ H0 E) as B0.
    pose proof (byte_at_skipn msg off [_] _ _ H0 E) as B1.
    change (len (@nil byte)) with 0 in B0. rewrite Z.add_0_r in B0.
    change (len [z2b (Z.shiftr n 8)]) with 1 in B1.
    unfold be16. rewrite B0, B1, !b2z_z2b_mod.
    rewrite Z.shiftr_div_pow2 by lia.
    change (len [z2b (Z.shiftr n 8); z2b n]) with 2 in Hl.
    change (2 ^ 8) with 256. change (2 ^ (8 * 2)) with 65536 in Hr.
    split; [|lia].
    rewrite (Z.mod_small (n / 256)) by (split; [apply Z.div_pos; lia|
      apply Z.div_lt_upper_bound; lia]).
    pose proof (Z.div_mod n 256 ltac:(lia)). lia.
  - pose proof (skipn_app_fit msg off _ _ tail H0 E) as Hl.
    pose proof (len_nonneg tail).
    pose proof (byte_at_skipn msg off [] _ _ H0 E) as B0.
    pose proof (byte_at_skipn msg off [_] _ _ H0 E) as B1.
    pose proof (byte_at_skipn msg off [_; _] _ _ H0 E) as B2.
    pose proof (byte_at_skipn msg off [_; _; _] _ _ H0 E) as B3.
    change (len (@nil byte)) with 0 in B0. rewrite Z.add_0_r in B0.
    change (len [z2b (Z.shiftr n 24)]) with 1 in B1.
    change (len [z2b (Z.shiftr n 24); z2b (Z.shiftr n 16)]) with 2 in B2.
    change (len [z2b (Z.shiftr n 24); z2b (Z.shiftr n 16); z2b (Z.shiftr n 8)])
      with 3 in B3.
    unfold be32. rewrite B0, B1, B2, B3, !b2z_z2b_mod.
    rewrite !Z.shiftr_div_pow2 by lia.
    change (len [z2b (Z.shiftr n 24); z2b (Z.shiftr n 16); z2b (Z.shiftr n 8);
                 z2b n]) with 4 in Hl.
    change (2 ^ 8) with 256. change (2 ^ 16) with 65536.
    change (2 ^ 24) with 16777216.
    change (2 ^ (8 * 4)) with 4294967296 in Hr.
    split; [|lia].
    pose proof (Z.div_mod n 256 ltac:(lia)).
    pose proof (Z.mod_pos_bound n 256 ltac:(lia)).
    pose proof (Z.div_mod (n / 256) 256 ltac:(lia)).
    pose proof (Z.mod_pos_bound (n / 256) 256 ltac:(lia)).
    pose proof (Z.div_mod (n / 256 / 256) 256 ltac:(lia)).
    pose proof (Z.mod_pos_bound (n / 256 / 256) 256 ltac:(lia)).
    assert (E16 : n / 65536 = n / 256 / 256)
      by (rewrite Z.div_div by lia; reflexivity).
    assert (E24 : n / 16777216 = n / 256 / 256 / 256)
      by (rewrite !Z.div_div by lia; reflexivity).
    rewrite E16, E24.
    assert (0 <= n / 256 / 256 / 256 < 256).
    { split; [repeat apply Z.div_pos; lia|].
      rewrite <- E24. apply Z.div_lt_upper_bound; lia. }
    rewrite (Z.mod_small (n / 256 / 256 / 256)) by lia.
    lia.
Qed.

Lemma unpack_uint_wire (k : UintKind) (n old : Z) (msg : list byte) (off : Z)
    (tail : list byte) :
  0 <= off -> uint_fits k n = true ->
  skipn (Z.to_nat off) msg = wire_uint k n ++ tail ->
  unpack_uint k old msg off = Ret (n, off + uint_width k, true).
Proof.
  intros H0 Hf E. destruct (be_uint_wire k n msg off tail H0 Hf E) as (Hb & Hl).
  rewrite unpack_uint_spec; [rewrite Hb; reflexivity|assumption| |assumption].
  apply (uint_fits_range k n Hf).
Qed.

(** *** Counted strings *)

Lemma pack_string_counted (lib : GoLib) (s : gostring) (msg : list byte)
    (off : Z) :
  0 <= off -> len s <= 255 -> off + 1 + len s <= len msg ->
  pack_string lib "" s msg off
  = Ret (write msg off (z2b (len s) :: s), off + 1 + len s, true).
Proof.
  intros H0 Hs Hfit. unfold pack_string. cbn [String.eqb].
  pose proof (len_nonneg s) as Hn.
  destruct (Z.gtb_spec (len s) 255); [lia|].
  destruct (Z.gtb_spec (off + 1 + len s) (len msg)); [lia|]. cbn [orb].
  rewrite store_write by lia. cbn [lift bind].
  assert (L : len (write msg off [z2b (len s)]) = len msg).
  { apply len_write; [lia|]. change (len [z2b (len s)]) with 1. lia. }
  rewrite store_bytes_write by lia. cbn [bind].
  do 3 f_equal.
  apply (write_write msg off [z2b (len s)] s); [lia|].
  change (len [z2b (len s)]) with 1. lia.
Qed.

Lemma unpack_string_counted (lib : GoLib) (name : string) (cur : list field)
    (old s : gostring) (msg : list byte) (off : Z) (tail : list byte) :
  0 <= off -> len s <= 255 ->
  skipn (Z.to_nat off) msg = (z2b (len s) :: s) ++ tail ->
  unpack_string lib name cur "" old msg off = Ret (s, off + 1 + len s, true).
Proof.
  intros H0 Hs E. unfold unpack_string. cbn [String.eqb].
  pose proof (len_nonneg s) as Hn. pose proof (len_nonneg tail) as Ht.
  pose proof (skipn_app_fit msg off _ _ tail H0 E) as Hl.
  rewrite len_cons in Hl.
  destruct (Z.geb_spec off (len msg)); [lia|].
  rewrite (index_skipn msg off _ _ H0 E). cbn [lift bind].
  rewrite b2z_z2b by lia.
  destruct (Z.gtb_spec (off + 1 + len s) (len msg)); [lia|].
  assert (E1 : skipn (Z.to_nat (off + 1)) msg = s ++ tail).
  { rewrite (skipn_Z msg off 1) by lia. rewrite E. reflexivity. }
  unfold slice.
  destruct (Z.leb_spec 0 (off + 1)); [|lia].
  destruct (Z.leb_spec (off + 1) (off + 1 + len s)); [|lia].
  destruct (Z.leb_spec (off + 1 + len s) (len msg)); [|lia].
  cbn [andb lift bind]. rewrite E1.
  replace (Z.to_nat (off + 1 + len s - (off + 1))) with (length s)
    by (unfold len; lia).
  rewrite firstn_length_app. reflexivity.
Qed.

(** *** Domain names *)

Lemma good_name_spec (s : gostring) :
  good_name s = true ->
  canon s = s
  /\ Forall (fun l => 0 < len l <= 63) (labels s)
  /\ wire_name s = encode_labels (labels s) ++ [z2b 0]
  /\ len (wire_name s) = len s + 1.
Proof.
  unfold good_name. intros H. apply andb_prop in H. destruct H as [Hc Hl].
  destruct (list_eq_dec ascii_dec (canon s) s) as [Hcs|]; [|discriminate].
  assert (Hall : Forall (fun l => 0 < len l <= 63) (labels s)).
  { apply Forall_forall. intros l Hin.
    rewrite forallb_forall in Hl. specialize (Hl l Hin).
    apply andb_prop in Hl. destruct Hl as [H1 H2].
    apply Z.ltb_lt in H1. apply Z.leb_le in H2. lia. }
  assert (Hroot : canon s <> [dot]).
  { intros Hd. unfold labels in Hall. rewrite Hd in Hall. cbn in Hall.
    inversion Hall as [|? ? Hx _]. unfold len in Hx. simpl in Hx. lia. }
  assert (Hw : wire_name s = encode_labels (labels s) ++ [z2b 0]).
  { unfold wire_name.
    destruct (list_eq_dec ascii_dec (canon s) [dot]); [contradiction|].
    reflexivity. }
  split; [exact Hcs|]. split; [exact Hall|]. split; [exact Hw|].
  rewrite Hw, len_app, wire_len_canon, Hcs. reflexivity.
Qed.

Lemma pack_string_name (lib : GoLib) (s : gostring) (msg : list byte) (off : Z) :
  0 <= off -> good_name s = true -> off + len (wire_name s) <= len msg ->
  pack_string lib "domain-name" s msg off
  = Ret (write msg off (wire_name s), off + len (wire_name s), true).
Proof.
  intros H0 Hg Hfit. destruct (good_name_spec s Hg) as (Hc & Hall & Hw & Hl).
  unfold pack_string. cbn [String.eqb Ascii.eqb Bool.eqb].
  rewrite packDomainName_ok; [reflexivity|exact H0|rewrite Hc; lia|].
  apply forallb_short_true. eapply Forall_impl; [|exact Hall].
  cbn beta. intros l Hx. lia.
Qed.

Lemma unpackDomainName_wire (s : gostring) (msg : list byte) (off : Z)
    (tail : list byte) :
  0 <= off -> good_name s = true ->
  skipn (Z.to_nat off) msg = wire_name s ++ tail ->
  unpackDomainName msg off = Ret (s, off + len (wire_name s), true).
Proof.
  intros H0 Hg E. destruct (good_name_spec s Hg) as (Hc & Hall & Hw & Hl).
  assert (Hsk : skipn (Z.to_nat off) msg
                = encode_labels (labels s) ++ z2b 0 :: tail).
  { rewrite E, Hw, <- app_assoc. reflexivity. }
  assert (Hfit : (length (encode_labels (labels s)) < length msg)%nat).
  { pose proof (f_equal (@length byte) Hsk) as Hx.
    rewrite length_skipn, length_app in Hx. cbn [length] in Hx. lia. }
  unfold unpackDomainName, name_init.
  erewrite unpack_labels; [| |exact H0|exact Hsk|].
  - cbn [app Z.eqb]. rewrite join_labels_canon, Hc.
    rewrite Hw, len_app. change (len [z2b 0]) with 1.
    rewrite Z.add_assoc. reflexivity.
  - eapply Forall_impl; [|exact Hall]. cbn beta. intros l Hx. lia.
  - pose proof (encode_labels_count (labels s)) as Hcnt.
    unfold name_fuel, gostring in *. lia.
Qed.

Lemma unpack_string_name (lib : GoLib) (name : string) (cur : list field)
    (old s : gostring) (msg : list byte) (off : Z) (tail : list byte) :
  0 <= off -> good_name s = true ->
  skipn (Z.to_nat off) msg = wire_name s ++ tail ->
  unpack_string lib name cur "domain-name" old msg off
  = Ret (s, off + len (wire_name s), true).
Proof.
  intros H0 Hg E. unfold unpack_string. cbn [String.eqb Ascii.eqb Bool.eqb].
  rewrite (unpackDomainName_wire s msg off tail H0 Hg E). reflexivity.
Qed.

(** *** IPv6 addresses *)

Lemma is_byte_value_spec (e : value) :
  is_byte_value e = true -> exists n, e = UintValue Uint8 n /\ 0 <= n < 256.
Proof.
  destruct e as [k n| | | |]; try discriminate.
  destruct k; try discriminate. cbn [is_byte_value]. intros H.
  apply andb_prop in H. destruct H as [H1 H2].
  apply Z.leb_le in H1. apply Z.ltb_lt in H2. exists n. split; [reflexivity|lia].
Qed.

Lemma byte_values_elem_byte (elems : list value) :
  forallb is_byte_value elems = true ->
  byte_values (map elem_byte elems) = elems.
Proof.
  induction elems as [|e r IH]; [reflexivity|]. cbn [forallb]. intros H.
  apply andb_prop in H. destruct H as [He Hr].
  destruct (is_byte_value_spec e He) as (n & -> & Hn).
  unfold byte_values in *. cbn [map elem_byte].
  rewrite b2z_z2b by lia. rewrite IH by assumption. reflexivity.
Qed.

Lemma pack_ip6_spec :
  forall rest done msg off,
    forallb is_byte_value rest = true ->
    0 <= off -> off + len rest <= len msg ->
    pack_ip6 (length rest) (done ++ rest) (len done) msg off
    = Ret (write msg off (map elem_byte rest), off + len rest).
Proof.
  induction rest as [|e r IH]; intros done msg off Hall H0 Hfit.
  - cbn [length pack_ip6 map]. rewrite write_nil.
    change (len (@nil value)) with 0. rewrite Z.add_0_r. reflexivity.
  - cbn [forallb] in Hall. apply andb_prop in Hall. destruct Hall as [He Hr].
    destruct (is_byte_value_spec e He) as (n & -> & Hn).
    rewrite len_cons in Hfit. pose proof (len_nonneg r) as Hnr.
    cbn [length pack_ip6]. unfold elem_uint.
    rewrite index_app_here. cbn [bind].
    rewrite store_write by lia. cbn [lift bind].
    assert (L : len (write msg off [z2b n]) = len msg).
    { apply len_write; [lia|]. change (len [z2b n]) with 1. lia. }
    replace (done ++ UintValue Uint8 n :: r)
      with ((done ++ [UintValue Uint8 n]) ++ r)
      by (rewrite <- app_assoc; reflexivity).
    replace (len done + 1) with (len (done ++ [UintValue Uint8 n]))
      by (rewrite len_app; reflexivity).
    rewrite IH by (try assumption; lia).
    rewrite len_cons. cbn [map elem_byte].
    f_equal. f_equal; [|lia].
    apply (write_write msg off [z2b n] (map elem_byte r)); [lia|].
    change (len [z2b n]) with 1. lia.
Qed.

Lemma pack_slice_ip6 (elems : list value) (msg : list byte) (off : Z) :
  0 <= off -> len elems = 16 -> forallb is_byte_value elems = true ->
  off + 16 <= len msg ->
  pack_slice "AAAA" elems msg off
  = Ret (write msg off (map elem_byte elems), off + 16, true).
Proof.
  intros H0 Hl Hall Hfit. unfold pack_slice.
  cbn [String.eqb Ascii.eqb Bool.eqb]. rewrite Hl.
  destruct (Z.gtb_spec 16 16); [lia|].
  destruct (Z.gtb_spec (off + 16) (len msg)); [lia|]. cbn [orb].
  assert (Hn : 16%nat = length elems) by (unfold len in Hl; lia).
  rewrite Hn.
  pose proof (pack_ip6_spec elems [] msg off Hall H0 ltac:(lia)) as Hp.
  cbn [app] in Hp. change (len (@nil value)) with 0 in Hp.
  rewrite Hp. cbn [bind]. rewrite Hl. reflexivity.
Qed.

Lemma unpack_slice_ip6 (lib : GoLib) (old elems : list value)
    (msg : list byte) (off : Z) (tail : list byte) :
  0 <= off -> len elems = 16 -> forallb is_byte_value elems = true ->
  skipn (Z.to_nat off) msg = map elem_byte elems ++ tail ->
  unpack_slice lib "AAAA" old msg off = Ret (elems, off + 16, true).
Proof.
  intros H0 Hl Hall E. unfold unpack_slice.
  cbn [String.eqb Ascii.eqb Bool.eqb].
  assert (Hlen : off + 16 <= len msg).
  { pose proof (f_equal (@length byte) E) as Hx.
    rewrite length_skipn, length_app, length_map in Hx.
    unfold len in *. lia. }
  destruct (Z.gtb_spec (off + 16) (len msg)); [lia|].
  unfold slice.
  destruct (Z.leb_spec 0 off); [|lia].
  destruct (Z.leb_spec off (off + 16)); [|lia].
  destruct (Z.leb_spec (off + 16) (len msg)); [|lia].
  cbn [andb lift bind]. rewrite E.
  replace (Z.to_nat (off + 16 - off)) with (length (map elem_byte elems))
    by (rewrite length_map; unfold len in Hl; lia).
  rewrite firstn_length_app, byte_values_elem_byte by assumption.
  reflexivity.
Qed.

(** *** Records, field by field *)

Lemma pack_fields_cons (lib : GoLib) (fn tag : string) (fv : value)
    (rest : list field) (msg : list byte) (off : Z) :
  pack_fields lib (Field fn tag fv :: rest) msg off
  = (r <- pack_field lib tag fv msg off ;;
     let '(msg, off, ok) := r in
     if ok then pack_fields lib rest msg off else Ret (msg, len msg, false)).
Proof. reflexivity. Qed.

Lemma unpack_fields_cons (lib : GoLib) (msg : list byte) (name : string)
    (done : list field) (fn tag : string) (fv : value) (rest : list field)
    (off : Z) :
  unpack_fields lib msg name done (Field fn tag fv :: rest) off
  = (r <- unpack_field lib msg name (rev done ++ Field fn tag fv :: rest)
            tag fv off ;;
     let '(v, off, ok) := r in
     if ok then unpack_fields lib msg name (Field fn tag v :: done) rest off
     else Ret (StructValue name (rev done ++ Field fn tag v :: rest),
               len msg, false)).
Proof. reflexivity. Qed.

Lemma pack_field_plain (lib : GoLib) (fn tag : string) (fv : value) :
  plain_field (Field fn tag fv) = true ->
  packs_to_wire lib fv ->
  forall msg off,
    0 <= off -> off + len (wire_field (Field fn tag fv)) <= len msg ->
    pack_field lib tag fv msg off
    = Ret (write msg off (wire_field (Field fn tag fv)),
           off + len (wire_field (Field fn tag fv)), true).
Proof.
  intros Hp IH msg off H0 Hfit.
  destruct fv as [k n|s|elems|n' fs'|]; cbn [plain_field wire_field pack_field] in *.
  - destruct (uint_fits_range k n Hp) as (Hk & _).
    rewrite wire_uint_len in *. apply pack_uint_wire; assumption.
  - destruct (String.eqb_spec tag "domain-name") as [->|_].
    + apply pack_string_name; assumption.
    + destruct (String.eqb_spec tag "") as [->|_]; [|discriminate].
      apply Z.leb_le in Hp. rewrite len_cons in *.
      rewrite pack_string_counted by lia.
      do 3 f_equal. lia.
  - apply andb_prop in Hp. destruct Hp as [Hp Hall].
    apply andb_prop in Hp. destruct Hp as [Ht Hl].
    apply String.eqb_eq in Ht. subst tag. apply Z.eqb_eq in Hl.
    assert (Hw : len (map elem_byte elems) = 16).
    { unfold len in *. rewrite length_map. exact Hl. }
    rewrite Hw in *. apply pack_slice_ip6; assumption.
  - rewrite (IH Hp msg off H0 Hfit). reflexivity.
  - discriminate.
Qed.

Lemma unpack_field_plain (lib : GoLib) (name : string) (cur : list field)
    (fn tag : string) (fv fv0 : value) :
  plain_field (Field fn tag fv) = true ->
  unpacks_from_wire lib fv ->
  blank fv0 = blank fv ->
  forall msg off tail,
    0 <= off ->
    skipn (Z.to_nat off) msg = wire_field (Field fn tag fv) ++ tail ->
    unpack_field lib msg name cur tag fv0 off
    = Ret (fv, off + len (wire_field (Field fn tag fv)), true).
Proof.
  intros Hp IH Hb msg off tail H0 E.
  destruct fv as [k n|s|elems|n' fs'|]; cbn [plain_field wire_field] in *.
  - destruct fv0 as [k0 old| | | |]; cbn [blank] in Hb; try discriminate.
    injection Hb as ->. cbn [unpack_field].
    rewrite (unpack_uint_wire k n old msg off tail H0 Hp E).
    rewrite wire_uint_len. reflexivity.
  - destruct fv0 as [|old| | |]; cbn [blank] in Hb; try discriminate.
    cbn [unpack_field].
    destruct (String.eqb_spec tag "domain-name") as [->|_].
    + rewrite (unpack_string_name lib name cur old s msg off tail H0 Hp E).
      reflexivity.
    + destruct (String.eqb_spec tag "") as [->|_]; [|discriminate].
      apply Z.leb_le in Hp.
      rewrite (unpack_string_counted lib name cur old s msg off tail H0 Hp E).
      cbn [bind]. rewrite len_cons. do 3 f_equal. lia.
  - destruct fv0 as [| |old| |]; cbn [blank] in Hb; try discriminate.
    cbn [unpack_field].
    apply andb_prop in Hp. destruct Hp as [Hp Hall].
    apply andb_prop in Hp. destruct Hp as [Ht Hl].
    apply String.eqb_eq in Ht. subst tag. apply Z.eqb_eq in Hl.
    rewrite (unpack_slice_ip6 lib old elems msg off tail H0 Hl Hall E).
    cbn [bind].
    assert (Hw : len (map elem_byte elems) = 16).
    { unfold len in *. rewrite length_map. exact Hl. }
    rewrite Hw. reflexivity.
  - destruct fv0 as [| | |n0 fs0|]; try discriminate.
    unfold unpack_field.
    rewrite (IH Hp (StructValue n0 fs0) msg off tail Hb H0 E). reflexivity.
  - discriminate.
Qed.

Lemma pack_fields_plain (lib : GoLib) :
  forall fs,
    Forall (fun f => packs_to_wire lib (field_value f)) fs ->
    forallb plain_field fs = true ->
    forall msg off,
      0 <= off -> off + len (flat_map wire_field fs) <= len msg ->
      pack_fields lib fs msg off
      = Ret (write msg off (flat_map wire_field fs),
             off + len (flat_map wire_field fs), true).
Proof.
  induction 1 as [|[fn tag fv] rest Hf _ IH]; intros Hp msg off H0 Hfit.
  - cbn [flat_map pack_fields]. rewrite write_nil.
    change (len (@nil byte)) with 0. rewrite Z.add_0_r. reflexivity.
  - cbn [forallb] in Hp. apply andb_prop in Hp. destruct Hp as [Hp Hr].
    cbn [flat_map] in *. rewrite len_app in *.
    pose proof (len_nonneg (wire_field (Field fn tag fv))) as Hn1.
    pose proof (len_nonneg (flat_map wire_field rest)) as Hn2.
    rewrite pack_fields_cons.
    rewrite (pack_field_plain lib fn tag fv Hp Hf msg off H0) by lia.
    cbn [bind].
    rewrite IH; [|exact Hr|lia|rewrite len_write by lia; lia].
    rewrite write_write by lia. rewrite Z.add_assoc. reflexivity.
Qed.

Lemma unpack_fields_plain (lib : GoLib) :
  forall fs,
    Forall (fun f => unpacks_from_wire lib (field_value f)) fs ->
    forallb plain_field fs = true ->
    forall fs0 name done msg off tail,
      map blank_field fs0 = map blank_field fs ->
      0 <= off ->
      skipn (Z.to_nat off) msg = flat_map wire_field fs ++ tail ->
      unpack_fields lib msg name done fs0 off
      = Ret (StructValue name (rev done ++ fs),
             off + len (flat_map wire_field fs), true).
Proof.
  induction 1 as [|[fn tag fv] rest Hf _ IH];
    intros Hp fs0 name done msg off tail Hb H0 E.
  - destruct fs0; [|discriminate]. cbn [unpack_fields flat_map].
    rewrite app_nil_r. change (len (@nil byte)) with 0. rewrite Z.add_0_r.
    reflexivity.
  - destruct fs0 as [|[fn0 tag0 fv0] rest0]; [discriminate|].
    cbn [map blank_field] in Hb. injection Hb as -> -> Hbv Hbr.
    cbn [forallb] in Hp. apply andb_prop in Hp. destruct Hp as [Hp Hr].
    cbn [flat_map] in *. rewrite len_app. rewrite <- app_assoc in E.
    pose proof (len_nonneg (wire_field (Field fn tag fv))) as Hn1.
    rewrite unpack_fields_cons.
    rewrite (unpack_field_plain lib name _ fn tag fv fv0 Hp Hf Hbv msg off
               _ H0 E).
    cbn [bind].
    rewrite (IH Hr rest0 name _ msg _ tail Hbr); [| lia |].
    + cbn [rev]. rewrite <- app_assoc. cbn [app]. rewrite Z.add_assoc.
      reflexivity.
    + apply (skipn_skip_app msg off _ _ H0 E).
Qed.

Lemma packs_plain (lib : GoLib) (v : value) : packs_to_wire lib v.
Proof.
  induction v as [k n|s|elems| |name fs IH] using value_fields_ind;
    try (intros Hp; discriminate).
  intros Hp msg off H0 Hfit.
  rewrite packStructValue_eq. rewrite wire_value_struct in *.
  rewrite plain_struct in Hp.
  apply pack_fields_plain; assumption.
Qed.

Lemma unpacks_plain (lib : GoLib) (v : value) : unpacks_from_wire lib v.
Proof.
  induction v as [k n|s|elems| |name fs IH] using value_fields_ind;
    try (intros Hp; discriminate).
  intros Hp v0 msg off tail Hb H0 E.
  destruct v0 as [| | |name0 fs0|]; try discriminate.
  rewrite blank_struct in Hb. rewrite (blank_struct name fs) in Hb.
  injection Hb as -> Hb.
  rewrite unpackStructValue_eq. rewrite wire_value_struct in *.
  rewrite plain_struct in Hp.
  rewrite (unpack_fields_plain lib fs IH Hp fs0 name [] msg off tail Hb H0 E).
  reflexivity.
Qed.

(** X11: a plain record (unsigned integers that fit their width, names
    in canonical form with labels of 1 to 63 bytes, counted strings of
    at most 255 bytes, IPv6 addresses of 16 bytes, and records of these)
    packed into a buffer with room is written as the concatenation of
    its fields' encodings, and [unpackStructValue] on a zero value of
    the same type reads back the same record and stops at the same
    offset. *)
Theorem X11_record_roundtrip :
  forall lib v v0 msg off,
    plain v = true ->
    blank v0 = blank v ->
    0 <= off ->
    off + len (wire_value v) <= len msg ->
    packStructValue lib v msg off
    = Ret (write msg off (wire_value v), off + len (wire_value v), true)
    /\ unpackStructValue lib v0 (write msg off (wire_value v)) off
       = Ret (v, off + len (wire_value v), true).
Proof.
  intros lib v v0 msg off Hp Hb H0 Hfit. split.
  - apply packs_plain; assumption.
  - pose proof (len_nonneg (wire_value v)) as Hn.
    apply (unpacks_plain lib v Hp v0 _ off
             (skipn (Z.to_nat off + length (wire_value v)) msg) Hb H0).
    apply skipn_write. lia.
Qed.

Lemma X11_witness :
  packStructValue golib mx_record_packed (zero_buf 64) 12
  = Ret (write (zero_buf 64) 12 (wire_value mx_record_packed),
         12 + len (wire_value mx_record_packed), true)
  /\ unpackStructValue golib
       (rr_struct "RR_MX" [u16 "Pref"; name_field "Mx"])
       (write (zero_buf 64) 12 (wire_value mx_record_packed)) 12
     = Ret (mx_record_packed, 12 + len (wire_value mx_record_packed), true).
Proof.
  apply X11_record_roundtrip.
  - vm_compute. reflexivity.
  - vm_compute. reflexivity.
  - lia.
  - vm_compute. discriminate.
Defined.

(** ** Records through [packRR] and [unpackRR] *)

Lemma write_at (P X S bs : list byte) (off : Z) :
  length P = Z.to_nat off -> length X = length bs ->
  write (P ++ X ++ S) off bs = P ++ bs ++ S.
Proof.
  intros HP HX. unfold write. rewrite <- HP.
  rewrite firstn_length_app. rewrite skipn_length_app.
  rewrite <- HX. rewrite <- (Nat.add_0_r (length X)).
  rewrite skipn_length_app. reflexivity.
Qed.

Lemma split_at (m : list byte) (off n : Z) :
  0 <= off -> 0 <= n -> off + n <= len m ->
  exists P X S,
    m = P ++ X ++ S /\ length P = Z.to_nat off /\ length X = Z.to_nat n.
Proof.
  intros H0 Hn Hfit.
  exists (firstn (Z.to_nat off) m),
    (firstn (Z.to_nat n) (skipn (Z.to_nat off) m)),
    (skipn (Z.to_nat n) (skipn (Z.to_nat off) m)).
  rewrite !firstn_skipn. split; [reflexivity|].
  unfold len in Hfit. split.
  - rewrite length_firstn. lia.
  - rewrite length_firstn, length_skipn. lia.
Qed.

(** Writing over what was written: the longer write wins. *)
Lemma write_over (msg : list byte) (off : Z) (a b : list byte) :
  0 <= off -> len a <= len b -> off + len b <= len msg ->
  write (write msg off a) off b = write msg off b.
Proof.
  intros H0 Hab Hfit.
  destruct (split_at msg off (len b) H0 (len_nonneg b) Hfit)
    as (P & X & S & -> & HP & HX).
  unfold len in HX, Hab. rewrite Nat2Z.id in HX.
  assert (EX : X = firstn (length a) X ++ skipn (length a) X)
    by (symmetry; apply firstn_skipn).
  assert (HXa : length (firstn (length a) X) = length a)
    by (rewrite length_firstn; lia).
  revert EX HXa.
  generalize (firstn (length a) X) as Xa, (skipn (length a) X) as Xr.
  intros Xa Xr -> HXa. rewrite length_app in HX.
  rewrite (write_at P (Xa ++ Xr) S b off HP)
    by (rewrite length_app; exact HX).
  rewrite <- (app_assoc Xa Xr S).
  rewrite (write_at P Xa (Xr ++ S) a off HP HXa).
  replace (P ++ a ++ Xr ++ S) with (P ++ (a ++ Xr) ++ S)
    by (rewrite <- app_assoc; reflexivity).
  apply write_at; [exact HP|]. rewrite length_app. lia.
Qed.

(** Writing a new beginning of the same length over what was written. *)
Lemma write_prefix (msg : list byte) (off : Z) (a a' c : list byte) :
  0 <= off -> len a' = len a -> off + len (a ++ c) <= len msg ->
  write (write msg off (a ++ c)) off a' = write msg off (a' ++ c).
Proof.
  intros H0 Haa Hfit.
  destruct (split_at msg off (len (a ++ c)) H0 (len_nonneg _) Hfit)
    as (P & X & S & -> & HP & HX).
  unfold len in HX, Haa. rewrite Nat2Z.id in HX.
  rewrite (write_at P X S (a ++ c) off HP HX).
  rewrite (write_at P X S (a' ++ c) off HP)
    by (rewrite HX, !length_app; lia).
  rewrite <- !app_assoc.
  apply write_at; [exact HP|lia].
Qed.

Lemma plain_rr_header (owner : gostring) (t c ttl rd : Z) :
  plain (rr_header owner t c ttl rd)
  = good_name owner
    && (uint_fits Uint16 t
        && (uint_fits Uint16 c
            && (uint_fits Uint32 ttl && (uint_fits Uint16 rd && true)))).
Proof. reflexivity. Qed.

Lemma wire_rr_header (owner : gostring) (t c ttl rd : Z) :
  wire_value (rr_header owner t c ttl rd)
  = wire_name owner
    ++ wire_uint Uint16 t ++ wire_uint Uint16 c ++ wire_uint Uint32 ttl
    ++ wire_uint Uint16 rd ++ [].
Proof. reflexivity. Qed.

Lemma wire_rr_header_len (owner : gostring) (t c ttl rd : Z) :
  len (wire_value (rr_header owner t c ttl rd)) = len (wire_name owner) + 10.
Proof.
  rewrite wire_rr_header, !len_app, !wire_uint_len. cbn [uint_width].
  change (len (@nil byte)) with 0. lia.
Qed.

Lemma wire_rr_record (sname : string) (owner : gostring) (t c ttl rd : Z)
    (payload : list field) :
  wire_value (rr_record sname (rr_header owner t c ttl rd) payload)
  = wire_value (rr_header owner t c ttl rd) ++ flat_map wire_field payload.
Proof. reflexivity. Qed.

Lemma plain_rr_record (sname : string) (owner : gostring) (t c ttl rd : Z)
    (payload : list field) :
  plain (rr_record sname (rr_header owner t c ttl rd) payload)
  = plain (rr_header owner t c ttl rd) && forallb plain_field payload.
Proof. reflexivity. Qed.

Lemma plain_refill (sname : string) (owner : gostring) (t c ttl rd n : Z)
    (payload : list field) :
  plain (rr_record sname (rr_header owner t c ttl rd) payload) = true ->
  0 <= n < 65536 ->
  plain (rr_header owner t c ttl rd) = true
  /\ plain (rr_header owner t c ttl n) = true
  /\ plain (rr_record sname (rr_header owner t c ttl n) payload) = true.
Proof.
  intros Hp Hn. rewrite plain_rr_record in Hp.
  apply andb_prop in Hp. destruct Hp as [Hh Hpl].
  assert (Hh' : plain (rr_header owner t c ttl n) = true).
  { rewrite plain_rr_header in *.
    apply andb_prop in Hh. destruct Hh as [Hg Hh].
    apply andb_prop in Hh. destruct Hh as [Ht Hh].
    apply andb_prop in Hh. destruct Hh as [Hc Hh].
    apply andb_prop in Hh. destruct Hh as [Hl _].
    rewrite Hg, Ht, Hc, Hl. cbn [andb uint_fits uint_width].
    destruct (Z.leb_spec 0 n); [|lia].
    change (2 ^ (8 * 2)) with 65536.
    destruct (Z.ltb_spec n 65536); [reflexivity|lia]. }
  split; [exact Hh|]. split; [exact Hh'|].
  rewrite plain_rr_record, Hh', Hpl. reflexivity.
Qed.

Lemma packRR_filled (lib : GoLib) (rr_mk : Z -> option value)
    (rr rr' : option value) (msg : list byte) (off : Z) :
  rdlength_filled rr_mk rr rr' ->
  0 <= off -> off + len (wire_rr rr') <= len msg ->
  packRR lib rr msg off
  = Ret (rr', write msg off (wire_rr rr'), off + len (wire_rr rr'), true).
Proof.
  intros Hf H0 Hfit.
  destruct Hf as [sname owner t c ttl rd payload mk Hs Hp Hn Hmk Hb].
  cbn [wire_rr] in *.
  set (n := len (flat_map wire_field payload)) in *.
  assert (Hn0 : 0 <= n < 65536) by (pose proof (len_nonneg (flat_map wire_field payload)); lia).
  destruct (plain_refill sname owner t c ttl rd n payload Hp Hn0)
    as (Hh & Hh' & Hp').
  pose proof (wire_rr_header_len owner t c ttl rd) as Lh.
  pose proof (wire_rr_header_len owner t c ttl n) as Lh'.
  pose proof (len_nonneg (wire_name owner)) as Ln.
  rewrite wire_rr_record, len_app in Hfit. fold n in Hfit.
  assert (Lr : len (wire_value (rr_record sname (rr_header owner t c ttl rd) payload))
               = len (wire_name owner) + 10 + n).
  { rewrite wire_rr_record, len_app, Lh. reflexivity. }
  assert (Lr' : len (wire_value (rr_record sname (rr_header owner t c ttl n) payload))
                = len (wire_name owner) + 10 + n).
  { rewrite wire_rr_record, len_app, Lh'. reflexivity. }
  unfold packRR, packStruct.
  assert (Hd : forall x,
             Header (rr_record sname (rr_header owner t c ttl x) payload)
             = Ret (rr_header owner t c ttl x)).
  { intros x. unfold Header, rr_record.
    destruct (String.eqb_spec sname "RR_Header"); [contradiction|].
    reflexivity. }
  rewrite Hd. cbn [bind].
  rewrite (packs_plain lib _ Hh msg off H0) by lia. cbn [bind].
  set (wh := wire_value (rr_header owner t c ttl rd)) in *.
  assert (L1 : len (write msg off wh) = len msg) by (apply len_write; lia).
  rewrite (packs_plain lib _ Hp (write msg off wh) off H0) by lia.
  cbn [bind negb].
  assert (Es : set_rdlength (rr_record sname (rr_header owner t c ttl rd) payload)
                 (uint16
                    (off + len (wire_value
                                  (rr_record sname (rr_header owner t c ttl rd)
                                     payload))
                     - (off + len wh)))
               = rr_record sname (rr_header owner t c ttl n) payload).
  { rewrite Lr, Lh.
    replace (off + (len (wire_name owner) + 10 + n)
             - (off + (len (wire_name owner) + 10))) with n by lia.
    unfold uint16. rewrite Z.mod_small by lia.
    unfold set_rdlength, rr_record.
    destruct (String.eqb_spec sname "RR_Header"); [contradiction|].
    reflexivity. }
  rewrite Es, Hd. cbn [bind].
  rewrite wire_rr_record. fold wh.
  rewrite write_over;
    [|exact H0|rewrite len_app; pose proof (len_nonneg (flat_map wire_field payload)); lia
     |rewrite len_app; fold n; lia].
  assert (L2 : len (write msg off (wh ++ flat_map wire_field payload)) = len msg).
  { apply len_write; [lia|]. rewrite len_app. fold n. lia. }
  rewrite (packs_plain lib _ Hh' _ off H0) by lia. cbn [bind].
  rewrite write_prefix; [|exact H0|lia|rewrite len_app; fold n; lia].
  rewrite wire_rr_record, !len_app. fold n. rewrite Lh', Lh. reflexivity.
Qed.

Lemma unpackRR_filled (lib : GoLib) (rr_mk : Z -> option value)
    (rr rr' : option value) (msg : list byte) (off : Z) (tail : list byte) :
  rdlength_filled rr_mk rr rr' ->
  0 <= off ->
  skipn (Z.to_nat off) msg = wire_rr rr' ++ tail ->
  unpackRR lib rr_mk msg off = Ret (rr', off + len (wire_rr rr'), true).
Proof.
  intros Hf H0 E.
  destruct Hf as [sname owner t c ttl rd payload mk Hs Hp Hn Hmk Hb].
  cbn [wire_rr] in *.
  set (n := len (flat_map wire_field payload)) in *.
  assert (Hn0 : 0 <= n < 65536) by (pose proof (len_nonneg (flat_map wire_field payload)); lia).
  destruct (plain_refill sname owner t c ttl rd n payload Hp Hn0)
    as (Hh & Hh' & Hp').
  pose proof (wire_rr_header_len owner t c ttl n) as Lh'.
  unfold unpackRR, unpackStruct.
  assert (E1 : skipn (Z.to_nat off) msg
               = wire_value (rr_header owner t c ttl n)
                   ++ (flat_map wire_field payload ++ tail)).
  { rewrite E, wire_rr_record, <- app_assoc. reflexivity. }
  rewrite (unpacks_plain lib _ Hh' RR_Header_zero msg off _ eq_refl H0 E1).
  cbn [bind negb].
  change (uint_field (rr_header owner t c ttl n) "Rrtype") with t.
  change (uint_field (rr_header owner t c ttl n) "Rdlength") with n.
  rewrite Hmk.
  rewrite (unpacks_plain lib _ Hp' mk msg off tail Hb H0 E).
  cbn [bind].
  rewrite wire_rr_record, len_app. fold n.
  rewrite Z.add_assoc, Z.eqb_refl. reflexivity.
Qed.

(** X12: a plain record of a registered type, with its header in [Hdr],
    is packed by [packRR] with the length of its payload written over
    whatever [Rdlength] held, in the record and on the wire; [unpackRR]
    on those bytes makes the record of that type, reads back the record
    as [packRR] left it and stops where [packRR] stopped. *)
Theorem X12_rr_roundtrip :
  forall lib rr_mk sname owner t c ttl rd payload mk msg off,
    let r := rr_record sname (rr_header owner t c ttl rd) payload in
    let r' := rr_record sname
                (rr_header owner t c ttl (len (flat_map wire_field payload)))
                payload in
    sname <> "RR_Header"%string ->
    plain r = true ->
    len (flat_map wire_field payload) < 65536 ->
    rr_mk t = Some mk ->
    blank mk = blank r ->
    0 <= off ->
    off + len (wire_value r) <= len msg ->
    packRR lib (Some r) msg off
    = Ret (Some r', write msg off (wire_value r'), off + len (wire_value r), true)
    /\ unpackRR lib rr_mk (write msg off (wire_value r')) off
       = Ret (Some r', off + len (wire_value r), true).
Proof.
  intros lib rr_mk sname owner t c ttl rd payload mk msg off r r'
    Hs Hp Hn Hmk Hb H0 Hfit.
  assert (Hf : rdlength_filled rr_mk (Some r) (Some r'))
    by (apply (rdlength_filled_intro rr_mk sname owner t c ttl rd payload mk);
        assumption).
  assert (L : len (wire_value r) = len (wire_value r')).
  { unfold r, r'. rewrite !wire_rr_record, !len_app, !wire_rr_header_len.
    reflexivity. }
  rewrite L in *. split.
  - apply (packRR_filled lib rr_mk (Some r) (Some r') msg off Hf H0 Hfit).
  - pose proof (len_nonneg (wire_value r')) as Hl.
    apply (unpackRR_filled lib rr_mk (Some r) (Some r') _ off
             (skipn (Z.to_nat off + length (wire_value r')) msg) Hf H0).
    apply skipn_write. lia.
Qed.

Lemma X12_witness :
  packRR golib (Some mx_record) (zero_buf 64) 12
  = Ret (Some mx_record_packed,
         write (zero_buf 64) 12 (wire_value mx_record_packed),
         12 + len (wire_value mx_record), true)
  /\ unpackRR golib rr_mk_spec
       (write (zero_buf 64) 12 (wire_value mx_record_packed)) 12
     = Ret (Some mx_record_packed, 12 + len (wire_value mx_record), true).
Proof.
  apply (X12_rr_roundtrip golib rr_mk_spec "RR_MX" (str "example.com.")
           15 1 3600 0
           [Field "Pref" "" (UintValue Uint16 10);
            Field "Mx" "domain-name" (StringValue (str "mail.example.com."))]
           (rr_struct "RR_MX" [u16 "Pref"; name_field "Mx"])
           (zero_buf 64) 12).
  - discriminate.
  - vm_compute. reflexivity.
  - vm_compute. reflexivity.
  - reflexivity.
  - vm_compute. reflexivity.
  - lia.
  - vm_compute. discriminate.
Defined.

(** ** Messages through [Pack] and [Unpack] *)

Lemma lor_lt_pow2 (a b n : Z) :
  0 <= a < 2 ^ n -> 0 <= b < 2 ^ n -> 0 <= Z.lor a b < 2 ^ n.
Proof.
  intros Ha Hb.
  assert (Hl : 0 <= Z.lor a b) by (apply Z.lor_nonneg; lia).
  split; [exact Hl|].
  destruct (Z.eq_dec (Z.lor a b) 0) as [E|E]; [lia|].
  destruct (Z_lt_le_dec n 0) as [Hn|Hn].
  { rewrite Z.pow_neg_r in Ha by lia. lia. }
  apply Z.log2_lt_pow2; [lia|].
  rewrite Z.log2_lor by lia.
  assert (Hz : 0 < n).
  { destruct (Z.eq_dec n 0) as [->|]; [|lia].
    change (2 ^ 0) with 1 in *.
    assert (a = 0) by lia. assert (b = 0) by lia. subst. contradiction. }
  apply Z.max_lub_lt.
  - destruct (Z.eq_dec a 0) as [->|]; [exact Hz|apply Z.log2_lt_pow2; lia].
  - destruct (Z.eq_dec b 0) as [->|]; [exact Hz|apply Z.log2_lt_pow2; lia].
Qed.

(** The flag word is a 16-bit word, whatever the header holds. *)
Lemma pack_bits_range (h : MsgHdr) : 0 <= pack_bits h < 65536.
Proof.
  unfold pack_bits, _QR, _AA, _TC, _RD, _RA, _Z, _AD, _CD.
  cbv zeta. rewrite !or_if_lor.
  change 65536 with (2 ^ 16).
  repeat (apply lor_lt_pow2;
          [|match goal with
            | |- context [if ?b then _ else _] => destruct b; simpl; lia
            end]).
  apply lor_lt_pow2; unfold uint16; change (2 ^ 16) with 65536;
    apply Z.mod_pos_bound; lia.
Qed.

(** The flag word, decoded for every opcode, response code and setting
    of the flags. *)
Lemma flag_word_table :
  forallb (fun op => forallb (fun rc =>
  forallb (fun qr => forallb (fun aa => forallb (fun tc => forallb (fun rd =>
  forallb (fun ra => forallb (fun z => forallb (fun ad => forallb (fun cd =>
    let u := unpack_hdr MsgHdr_zero 0
               (pack_bits (mkMsgHdr 0 qr op aa tc rd ra z ad cd rc)) in
    Bool.eqb (Response u) qr && (Opcode u =? op)
    && Bool.eqb (Authoritative u) aa && Bool.eqb (Truncated u) tc
    && Bool.eqb (RecursionDesired u) rd && Bool.eqb (RecursionAvailable u) ra
    && (Rcode u =? rc))
  [true; false]) [true; false]) [true; false]) [true; false])
  [true; false]) [true; false]) [true; false]) [true; false])
  (map Z.of_nat (seq 0 16))) (map Z.of_nat (seq 0 16)) = true.
Proof. vm_compute. reflexivity. Qed.

Lemma In_bools (b : bool) : In b [true; false].
Proof. destruct b; simpl; auto. Qed.

Lemma In_nibble (z : Z) : 0 <= z < 16 -> In z (map Z.of_nat (seq 0 16)).
Proof.
  intros H. apply in_map_iff. exists (Z.to_nat z).
  split; [lia|]. apply in_seq. lia.
Qed.

(** What [Unpack] reads from the flag word that [Pack] builds. *)
Lemma unpack_hdr_pack_bits (old h : MsgHdr) :
  0 <= Opcode h < 16 -> 0 <= Rcode h < 16 ->
  unpack_hdr old (Id h) (pack_bits h)
  = mkMsgHdr (Id h) (Response h) (Opcode h) (Authoritative h) (Truncated h)
      (RecursionDesired h) (RecursionAvailable h) (Zero old)
      (AuthenticatedData old) (CheckingDisabled old) (Rcode h).
Proof.
  destruct h as [id qr op aa tc rd ra z ad cd rc].
  cbn [Id Response Opcode Authoritative Truncated RecursionDesired
       RecursionAvailable Zero AuthenticatedData CheckingDisabled Rcode].
  intros Hop Hrc.
  pose proof flag_word_table as T.
  rewrite forallb_forall in T. specialize (T op (In_nibble op Hop)).
  rewrite forallb_forall in T. specialize (T rc (In_nibble rc Hrc)).
  rewrite forallb_forall in T. specialize (T qr (In_bools qr)).
  rewrite forallb_forall in T. specialize (T aa (In_bools aa)).
  rewrite forallb_forall in T. specialize (T tc (In_bools tc)).
  rewrite forallb_forall in T. specialize (T rd (In_bools rd)).
  rewrite forallb_forall in T. specialize (T ra (In_bools ra)).
  rewrite forallb_forall in T. specialize (T z (In_bools z)).
  rewrite forallb_forall in T. specialize (T ad (In_bools ad)).
  rewrite forallb_forall in T. specialize (T cd (In_bools cd)).
  cbv zeta in T.
  assert (Eb : pack_bits (mkMsgHdr id qr op aa tc rd ra z ad cd rc)
               = pack_bits (mkMsgHdr 0 qr op aa tc rd ra z ad cd rc))
    by reflexivity.
  rewrite Eb.
  set (bits := pack_bits (mkMsgHdr 0 qr op aa tc rd ra z ad cd rc)) in *.
  unfold unpack_hdr in *.
  cbn [Id Response Opcode Authoritative Truncated RecursionDesired
       RecursionAvailable Zero AuthenticatedData CheckingDisabled Rcode] in T.
  repeat (apply andb_prop in T; destruct T as [T ?]).
  repeat match goal with
         | H : Bool.eqb _ _ = true |- _ => apply Bool.eqb_prop in H
         | H : (_ =? _) = true |- _ => apply Z.eqb_eq in H
         end.
  congruence.
Qed.

Lemma pack_questions_plain (lib : GoLib) :
  forall qs msg off,
    Forall (fun q => plain q = true /\ blank q = Question_zero) qs ->
    0 <= off -> off + len (flat_map wire_value qs) <= len msg ->
    pack_questions lib qs msg off true
    = Ret (write msg off (flat_map wire_value qs),
           off + len (flat_map wire_value qs), true).
Proof.
  induction qs as [|q qs IH]; intros msg off Hall H0 Hfit.
  - cbn [pack_questions flat_map]. rewrite write_nil.
    change (len (@nil byte)) with 0. rewrite Z.add_0_r. reflexivity.
  - inversion Hall as [|? ? [Hq _] Hqs]; subst.
    cbn [flat_map] in *. rewrite len_app in *.
    pose proof (len_nonneg (wire_value q)) as Hn1.
    pose proof (len_nonneg (flat_map wire_value qs)) as Hn2.
    cbn [pack_questions]. unfold packStruct.
    rewrite (packs_plain lib q Hq msg off H0) by lia. cbn [bind].
    rewrite IH; [|exact Hqs|lia|rewrite len_write by lia; lia].
    rewrite write_write by lia. rewrite Z.add_assoc. reflexivity.
Qed.

Lemma wire_rr_filled_len (rr_mk : Z -> option value) (rr rr' : option value) :
  rdlength_filled rr_mk rr rr' -> 10 <= len (wire_rr rr').
Proof.
  intros [sname owner t c ttl rd payload mk _ _ _ _ _]. cbn [wire_rr].
  rewrite wire_rr_record, len_app, wire_rr_header_len.
  pose proof (len_nonneg (wire_name owner)).
  pose proof (len_nonneg (flat_map wire_field payload)). lia.
Qed.

Lemma pack_rrs_filled (lib : GoLib) (rr_mk : Z -> option value) :
  forall rrs rrs',
    Forall2 (rdlength_filled rr_mk) rrs rrs' ->
    forall msg off,
      0 <= off -> off + len (flat_map wire_rr rrs') <= len msg ->
      pack_rrs lib rrs msg off true
      = Ret (rrs', write msg off (flat_map wire_rr rrs'),
             off + len (flat_map wire_rr rrs'), true).
Proof.
  induction 1 as [|rr rr' rrs rrs' Hf _ IH]; intros msg off H0 Hfit.
  - cbn [pack_rrs flat_map]. rewrite write_nil.
    change (len (@nil byte)) with 0. rewrite Z.add_0_r. reflexivity.
  - cbn [flat_map] in *. rewrite len_app in *.
    pose proof (len_nonneg (wire_rr rr')) as Hn1.
    pose proof (len_nonneg (flat_map wire_rr rrs')) as Hn2.
    cbn [pack_rrs].
    rewrite (packRR_filled lib rr_mk rr rr' msg off Hf H0) by lia.
    cbn [bind].
    rewrite IH; [|lia|rewrite len_write by lia; lia]. cbn [bind].
    rewrite write_write by lia. rewrite Z.add_assoc. reflexivity.
Qed.

Lemma unpack_questions_plain (lib : GoLib) :
  forall qs msg off tail,
    Forall (fun q => plain q = true /\ blank q = Question_zero) qs ->
    0 <= off ->
    skipn (Z.to_nat off) msg = flat_map wire_value qs ++ tail ->
    unpack_questions lib (repeat Question_zero (length qs)) msg off true
    = Ret (qs, off + len (flat_map wire_value qs), true).
Proof.
  induction qs as [|q qs IH]; intros msg off tail Hall H0 E.
  - cbn [length repeat unpack_questions flat_map].
    change (len (@nil byte)) with 0. rewrite Z.add_0_r. reflexivity.
  - inversion Hall as [|? ? [Hq Hb] Hqs]; subst.
    cbn [flat_map] in *. rewrite len_app. rewrite <- app_assoc in E.
    pose proof (len_nonneg (wire_value q)) as Hn1.
    cbn [length repeat unpack_questions]. unfold unpackStruct.
    rewrite (unpacks_plain lib q Hq Question_zero msg off _
               (eq_sym Hb) H0 E).
    cbn [bind].
    rewrite (IH msg (off + len (wire_value q)) tail Hqs); [|lia|].
    + cbn [bind]. rewrite Z.add_assoc. reflexivity.
    + apply (skipn_skip_app msg off _ _ H0 E).
Qed.

Lemma unpack_rrs_filled (lib : GoLib) (rr_mk : Z -> option value) :
  forall rrs rrs',
    Forall2 (rdlength_filled rr_mk) rrs rrs' ->
    forall msg off tail,
      0 <= off ->
      skipn (Z.to_nat off) msg = flat_map wire_rr rrs' ++ tail ->
      unpack_rrs lib rr_mk (length rrs') msg off true
      = Ret (rrs', off + len (flat_map wire_rr rrs'), true).
Proof.
  induction 1 as [|rr rr' rrs rrs' Hf _ IH]; intros msg off tail H0 E.
  - cbn [length unpack_rrs flat_map].
    change (len (@nil byte)) with 0. rewrite Z.add_0_r. reflexivity.
  - cbn [flat_map] in *. rewrite len_app. rewrite <- app_assoc in E.
    pose proof (len_nonneg (wire_rr rr')) as Hn1.
    cbn [length unpack_rrs].
    rewrite (unpackRR_filled lib rr_mk rr rr' msg off _ Hf H0 E).
    cbn [bind].
    rewrite (IH msg (off + len (wire_rr rr')) tail); [|lia|].
    + cbn [bind]. rewrite Z.add_assoc. reflexivity.
    + apply (skipn_skip_app msg off _ _ H0 E).
Qed.

Lemma len_le_flat_map {A : Type} (f : A -> list byte) (l : list A) :
  Forall (fun x => 1 <= len (f x)) l -> len l <= len (flat_map f l).
Proof.
  induction 1 as [|x l Hx _ IH]; [reflexivity|].
  cbn [flat_map]. rewrite len_cons, len_app. lia.
Qed.

Lemma question_wire_len (q : value) :
  plain q = true /\ blank q = Question_zero -> 1 <= len (wire_value q).
Proof.
  intros [_ Hb].
  destruct q as [| | |name fs|]; try discriminate.
  rewrite blank_struct in Hb. unfold Question_zero in Hb.
  injection Hb as _ Hb.
  destruct fs as [|[fn1 t1 v1] [|[fn2 t2 v2] fs]]; try discriminate.
  cbn [map blank_field] in Hb. injection Hb as _ _ _ _ _ H2 _.
  destruct v2 as [k n| | | |]; try discriminate.
  cbn [blank] in H2. injection H2 as ->.
  rewrite wire_value_struct. cbn [flat_map].
  rewrite !len_app.
  change (len (wire_field (Field fn2 t2 (UintValue Uint16 n)))) with 2.
  pose proof (len_nonneg (wire_field (Field fn1 t1 v1))).
  pose proof (len_nonneg (flat_map wire_field fs)). lia.
Qed.

Lemma section_len (rr_mk : Z -> option value) (rrs rrs' : list (option value)) :
  Forall2 (rdlength_filled rr_mk) rrs rrs' ->
  len rrs = len rrs' /\ len rrs' <= len (flat_map wire_rr rrs').
Proof.
  intros H. split.
  - unfold len. f_equal. eapply Forall2_length. exact H.
  - apply len_le_flat_map.
    induction H as [|rr rr' rrs rrs' Hf _ IH]; constructor; [|exact IH].
    pose proof (wire_rr_filled_len rr_mk rr rr' Hf). lia.
Qed.

Lemma plain_wire_header (id bits qd an ns ar : Z) :
  0 <= id < 65536 -> 0 <= bits < 65536 -> 0 <= qd < 65536 ->
  0 <= an < 65536 -> 0 <= ns < 65536 -> 0 <= ar < 65536 ->
  plain (wire_header id bits qd an ns ar) = true.
Proof.
  intros. unfold wire_header. rewrite plain_struct.
  cbn [forallb plain_field uint_fits uint_width].
  change (2 ^ (8 * 2)) with 65536.
  repeat match goal with
         | |- context [?a <=? ?b] => destruct (Z.leb_spec a b); [|lia]
         | |- context [?a <? ?b] => destruct (Z.ltb_spec a b); [|lia]
         end.
  reflexivity.
Qed.

Lemma wire_header_len (id bits qd an ns ar : Z) :
  len (wire_value (wire_header id bits qd an ns ar)) = 12.
Proof. reflexivity. Qed.

Section MessageRoundTrip.

Variable lib : GoLib.
Variable rr_mk : Z -> option value.
Variable M : Msg.
Variables an ns ex : list (option value).

Hypothesis Id_range : 0 <= Id (hdr M) < 65536.
Hypothesis questions_plain :
  Forall (fun q => plain q = true /\ blank q = Question_zero) (Question M).
Hypothesis answer_filled : Forall2 (rdlength_filled rr_mk) (Answer M) an.
Hypothesis ns_filled : Forall2 (rdlength_filled rr_mk) (Ns M) ns.
Hypothesis extra_filled : Forall2 (rdlength_filled rr_mk) (Extra M) ex.
Hypothesis fits :
  len (Msg_wire (hdr M) (Question M) an ns ex) <= 4096.

Lemma section_counts :
  0 <= len (Question M) < 65536
  /\ 0 <= len an < 65536 /\ 0 <= len ns < 65536 /\ 0 <= len ex < 65536
  /\ len (Answer M) = len an /\ len (Ns M) = len ns /\ len (Extra M) = len ex.
Proof.
  pose proof fits as Hf. unfold Msg_wire in Hf.
  rewrite !len_app, wire_header_len in Hf.
  assert (Hq : len (Question M) <= len (flat_map wire_value (Question M))).
  { apply len_le_flat_map. eapply Forall_impl; [|exact questions_plain].
    intros q Hq. apply question_wire_len. exact Hq. }
  destruct (section_len rr_mk _ _ answer_filled) as [Ea La].
  destruct (section_len rr_mk _ _ ns_filled) as [En Ln].
  destruct (section_len rr_mk _ _ extra_filled) as [Ee Le].
  pose proof (len_nonneg (Question M)). pose proof (len_nonneg an).
  pose proof (len_nonneg ns). pose proof (len_nonneg ex).
  pose proof (len_nonneg (flat_map wire_value (Question M))).
  pose proof (len_nonneg (flat_map wire_rr an)).
  pose proof (len_nonneg (flat_map wire_rr ns)).
  pose proof (len_nonneg (flat_map wire_rr ex)).
  repeat split; lia.
Qed.

Lemma header_plain :
  plain (wire_header (Id (hdr M)) (pack_bits (hdr M)) (len (Question M))
           (len an) (len ns) (len ex)) = true.
Proof.
  destruct section_counts as (Hq & Ha & Hn & He & _).
  apply plain_wire_header; try assumption. apply pack_bits_range.
Qed.

Lemma Pack_wire :
  Pack lib M
  = Ret (mkMsg (hdr M) (Question M) an ns ex,
         Msg_wire (hdr M) (Question M) an ns ex, true).
Proof.
  destruct section_counts as (Hq & Ha & Hn & He & Ea & En & Ee).
  pose proof header_plain as Hh. pose proof fits as Hf.
  unfold Msg_wire in Hf. rewrite !len_app, wire_header_len in Hf.
  unfold Pack, packStruct.
  rewrite Ea, En, Ee. unfold uint16. rewrite !Z.mod_small by lia.
  set (H := wire_header _ _ _ _ _ _) in *.
  set (m0 := repeat (z2b 0) (Z.to_nat DefaultMsgSize)).
  assert (L0 : len m0 = 4096).
  { unfold m0, len. rewrite repeat_length. reflexivity. }
  pose proof (len_nonneg (flat_map wire_value (Question M))) as Nq.
  pose proof (len_nonneg (flat_map wire_rr an)) as Na.
  pose proof (len_nonneg (flat_map wire_rr ns)) as Nn.
  pose proof (len_nonneg (flat_map wire_rr ex)) as Ne.
  assert (LH : len (wire_value H) = 12) by reflexivity.
  rewrite (packs_plain lib H Hh m0 0) by lia. cbn [bind].
  rewrite (pack_questions_plain lib (Question M) _ _ questions_plain);
    [|lia|rewrite len_write by lia; lia].
  cbn [bind]. rewrite write_write by lia.
  rewrite <- Z.add_assoc, <- len_app.
  rewrite (pack_rrs_filled lib rr_mk _ _ answer_filled);
    [|rewrite len_app; lia|rewrite len_write, !len_app by (rewrite ?len_app; lia); lia].
  cbn [bind]. rewrite write_write by (rewrite ?len_app; lia).
  rewrite <- Z.add_assoc, <- len_app.
  rewrite (pack_rrs_filled lib rr_mk _ _ ns_filled);
    [|rewrite !len_app; lia|rewrite len_write, !len_app by (rewrite ?len_app; lia); lia].
  cbn [bind]. rewrite write_write by (rewrite ?len_app; lia).
  rewrite <- Z.add_assoc, <- len_app.
  rewrite (pack_rrs_filled lib rr_mk _ _ extra_filled);
    [|rewrite !len_app; lia|rewrite len_write, !len_app by (rewrite ?len_app; lia); lia].
  cbn [bind negb]. rewrite write_write by (rewrite ?len_app; lia).
  rewrite <- Z.add_assoc, <- len_app.
  rewrite <- !app_assoc.
  change (wire_value H ++ flat_map wire_value (Question M)
            ++ flat_map wire_rr an ++ flat_map wire_rr ns
            ++ flat_map wire_rr ex)
    with (Msg_wire (hdr M) (Question M) an ns ex).
  set (W := Msg_wire (hdr M) (Question M) an ns ex).
  assert (LW : len W <= 4096) by exact fits.
  pose proof (len_nonneg W) as NW.
  unfold slice.
  rewrite len_write by lia.
  destruct (Z.leb_spec 0 0); [|lia].
  destruct (Z.leb_spec 0 (0 + len W)); [|lia].
  destruct (Z.leb_spec (0 + len W) (len m0)); [|lia].
  cbn [andb lift bind Z.to_nat skipn].
  replace (Z.to_nat (0 + len W - 0)) with (length W) by (unfold len; lia).
  unfold write. cbn [Z.to_nat firstn app].
  rewrite firstn_length_app. reflexivity.
Qed.

Lemma Unpack_wire (R : Msg) (tail : list byte) :
  0 <= Opcode (hdr M) < 16 -> 0 <= Rcode (hdr M) < 16 ->
  Unpack lib rr_mk R (Msg_wire (hdr M) (Question M) an ns ex ++ tail)
  = Ret (mkMsg
           (mkMsgHdr (Id (hdr M)) (Response (hdr M)) (Opcode (hdr M))
              (Authoritative (hdr M)) (Truncated (hdr M))
              (RecursionDesired (hdr M)) (RecursionAvailable (hdr M))
              (Zero (hdr R)) (AuthenticatedData (hdr R))
              (CheckingDisabled (hdr R)) (Rcode (hdr M)))
           (Question M) an ns ex,
         true, negb (len tail =? 0)).
Proof.
  intros Hop Hrc.
  pose proof header_plain as Hh.
  unfold Msg_wire.
  set (H := wire_header _ _ _ _ _ _) in *.
  set (msg := (wire_value H ++ _) ++ tail).
  assert (E0 : skipn (Z.to_nat 0) msg
               = wire_value H
                   ++ (flat_map wire_value (Question M)
                         ++ (flat_map wire_rr an
                               ++ (flat_map wire_rr ns
                                     ++ (flat_map wire_rr ex ++ tail))))).
  { unfold msg. cbn [Z.to_nat skipn]. rewrite <- !app_assoc. reflexivity. }
  assert (LH : len (wire_value H) = 12) by reflexivity.
  pose proof (len_nonneg (flat_map wire_value (Question M))) as Nq.
  pose proof (len_nonneg (flat_map wire_rr an)) as Na.
  pose proof (len_nonneg (flat_map wire_rr ns)) as Nn.
  pose proof (len_nonneg (flat_map wire_rr ex)) as Ne.
  set (o1 := 0 + len (wire_value H)).
  set (o2 := o1 + len (flat_map wire_value (Question M))).
  set (o3 := o2 + len (flat_map wire_rr an)).
  set (o4 := o3 + len (flat_map wire_rr ns)).
  assert (P1 : 0 <= o1) by (unfold o1; lia).
  assert (P2 : 0 <= o2) by (unfold o2; lia).
  assert (P3 : 0 <= o3) by (unfold o3; lia).
  assert (P4 : 0 <= o4) by (unfold o4; lia).
  pose proof (skipn_skip_app msg 0 _ _ (Z.le_refl 0) E0) as E1.
  pose proof (skipn_skip_app msg o1 _ _ P1 E1) as E2.
  pose proof (skipn_skip_app msg o2 _ _ P2 E2) as E3.
  pose proof (skipn_skip_app msg o3 _ _ P3 E3) as E4.
  unfold Unpack, unpackStruct.
  rewrite (unpacks_plain lib H Hh Header_zero msg 0 _ eq_refl (Z.le_refl 0) E0).
  cbn [bind negb].
  change (uint_field H "Id") with (Id (hdr M)).
  change (uint_field H "Bits") with (pack_bits (hdr M)).
  change (uint_field H "Qdcount") with (len (Question M)).
  change (uint_field H "Ancount") with (len an).
  change (uint_field H "Nscount") with (len ns).
  change (uint_field H "Arcount") with (len ex).
  rewrite (unpack_hdr_pack_bits (hdr R) (hdr M) Hop Hrc).
  replace (Z.to_nat (len (Question M))) with (length (Question M))
    by (unfold len; lia).
  replace (Z.to_nat (len an)) with (length an) by (unfold len; lia).
  replace (Z.to_nat (len ns)) with (length ns) by (unfold len; lia).
  replace (Z.to_nat (len ex)) with (length ex) by (unfold len; lia).
  fold o1.
  rewrite (unpack_questions_plain lib (Question M) msg o1 _ questions_plain
             P1 E1).
  cbn [bind]. fold o2.
  rewrite (unpack_rrs_filled lib rr_mk _ _ answer_filled msg o2 _ P2 E2).
  cbn [bind]. fold o3.
  rewrite (unpack_rrs_filled lib rr_mk _ _ ns_filled msg o3 _ P3 E3).
  cbn [bind]. fold o4.
  rewrite (unpack_rrs_filled lib rr_mk _ _ extra_filled msg o4 _ P4 E4).
  cbn [bind negb].
  do 2 f_equal.
  unfold msg, o4, o3, o2, o1. rewrite !len_app.
  pose proof (len_nonneg tail) as Nt.
  destruct (Z.eqb_spec (len tail) 0);
    match goal with
    | |- context [?a =? ?b] => destruct (Z.eqb_spec a b)
    end; try reflexivity; exfalso; lia.
Qed.

End MessageRoundTrip.

(** X13: a message made of a header whose [Id], [Opcode] and [Rcode] fit
    16, 4 and 4 bits, of plain questions and of plain records of
    registered types, whose encoding takes at most 4096 bytes, is packed
    to exactly that encoding: header, questions, answers, authority and
    additional records one after the other, every record with the length
    of its payload in [Rdlength].  [Unpack] on those bytes, followed by
    any bytes [tail], returns true and rebuilds the message as [Pack]
    left it, except that [Zero], [AuthenticatedData] and
    [CheckingDisabled] are those of the receiver; the "extra bytes" line
    is printed exactly when [tail] is not empty. *)
Theorem X13_message_roundtrip :
  forall lib rr_mk M an ns ex R tail,
    0 <= Id (hdr M) < 65536 ->
    0 <= Opcode (hdr M) < 16 ->
    0 <= Rcode (hdr M) < 16 ->
    Forall (fun q => plain q = true /\ blank q = Question_zero) (Question M) ->
    Forall2 (rdlength_filled rr_mk) (Answer M) an ->
    Forall2 (rdlength_filled rr_mk) (Ns M) ns ->
    Forall2 (rdlength_filled rr_mk) (Extra M) ex ->
    let W := Msg_wire (hdr M) (Question M) an ns ex in
    len W <= 4096 ->
    Pack lib M = Ret (mkMsg (hdr M) (Question M) an ns ex, W, true)
    /\ Unpack lib rr_mk R (W ++ tail)
       = Ret (mkMsg
                (mkMsgHdr (Id (hdr M)) (Response (hdr M)) (Opcode (hdr M))
                   (Authoritative (hdr M)) (Truncated (hdr M))
                   (RecursionDesired (hdr M)) (RecursionAvailable (hdr M))
                   (Zero (hdr R)) (AuthenticatedData (hdr R))
                   (CheckingDisabled (hdr R)) (Rcode (hdr M)))
                (Question M) an ns ex,
              true, negb (len tail =? 0)).
Proof.
  intros lib rr_mk M an ns ex R tail Hid Hop Hrc Hq Ha Hn He W Hfit. split.
  - apply (Pack_wire lib rr_mk M an ns ex Hid Hq Ha Hn He Hfit).
  - apply (Unpack_wire lib rr_mk M an ns ex Hid Hq Ha Hn He Hfit R tail Hop Hrc).
Qed.

Lemma X13_witness :
  Pack golib mx_msg
  = Ret (mx_msg_packed,
         Msg_wire (hdr mx_msg) (Question mx_msg) [Some mx_record_packed] [] [],
         true)
  /\ Unpack golib rr_mk_spec Msg_zero
       (Msg_wire (hdr mx_msg) (Question mx_msg) [Some mx_record_packed] [] []
          ++ [])
     = Ret (mx_msg_packed, true, false).
Proof.
  apply (X13_message_roundtrip golib rr_mk_spec mx_msg
           [Some mx_record_packed] [] [] Msg_zero []).
  - simpl. lia.
  - simpl. lia.
  - simpl. lia.
  - constructor; [|constructor]. split; vm_compute; reflexivity.
  - constructor; [|constructor].
    apply (rdlength_filled_intro rr_mk_spec "RR_MX" (str "example.com.")
             15 1 3600 0
             [Field "Pref" "" (UintValue Uint16 10);
              Field "Mx" "domain-name" (StringValue (str "mail.example.com."))]
             (rr_struct "RR_MX" [u16 "Pref"; name_field "Mx"])).
    + discriminate.
    + vm_compute. reflexivity.
    + vm_compute. reflexivity.
    + reflexivity.
    + vm_compute. reflexivity.
  - constructor.
  - constructor.
  - vm_compute. discriminate.
Defined.

(** ** Integer fields wider than their type *)

Lemma z2b_mod_eq (a b : Z) : a mod 256 = b mod 256 -> z2b a = z2b b.
Proof. intros E. unfold z2b. rewrite E. reflexivity. Qed.

Lemma wire_uint_mod (k : UintKind) (n : Z) :
  wire_uint k n = wire_uint k (n mod 2 ^ (8 * uint_width k)).
Proof.
  destruct k; cbn [wire_uint uint_width]; [| | |reflexivity].
  - change (2 ^ (8 * 1)) with 256.
    f_equal. apply z2b_mod_eq. Z.to_euclidean_division_equations. lia.
  - change (2 ^ (8 * 2)) with 65536.
    rewrite !Z.shiftr_div_pow2 by lia. change (2 ^ 8) with 256.
    f_equal; [|f_equal]; apply z2b_mod_eq;
      Z.to_euclidean_division_equations; lia.
  - change (2 ^ (8 * 4)) with 4294967296.
    rewrite !Z.shiftr_div_pow2 by lia.
    change (2 ^ 8) with 256. change (2 ^ 16) with 65536.
    change (2 ^ 24) with 16777216.
    f_equal; [|f_equal; [|f_equal; [|f_equal]]]; apply z2b_mod_eq;
      Z.to_euclidean_division_equations; lia.
Qed.

Lemma uint_fits_mod (k : UintKind) (n : Z) :
  k <> UintOther -> uint_fits k (n mod 2 ^ (8 * uint_width k)) = true.
Proof.
  intros Hk.
  assert (H : 0 <= n mod 2 ^ (8 * uint_width k) < 2 ^ (8 * uint_width k)).
  { apply Z.mod_pos_bound. destruct k; simpl; lia. }
  unfold uint_fits.
  destruct k; try congruence;
    match goal with
    | |- (?a <=? ?b) && (?c <? ?d) = true =>
        destruct (Z.leb_spec a b); [|lia];
        destruct (Z.ltb_spec c d); [reflexivity|lia]
    end.
Qed.

(** X9: an unsigned field of 8, 16 or 32 bits is written high byte
    first, and only its low bytes are written: whatever number the field
    holds, reading the bytes back gives that number modulo 2^8, 2^16 or
    2^32.  Without room for the whole field nothing is written and the
    call fails at [len(msg)]. *)
Theorem X9_uint_field_roundtrip :
  forall lib name fn tag k n old msg off,
    k <> UintOther ->
    0 <= off ->
    let w := uint_width k in
    (off + w <= len msg ->
     packStructValue lib (StructValue name [Field fn tag (UintValue k n)]) msg off
     = Ret (write msg off (wire_uint k n), off + w, true)
     /\ unpackStructValue lib (StructValue name [Field fn tag (UintValue k old)])
          (write msg off (wire_uint k n)) off
        = Ret (StructValue name [Field fn tag (UintValue k (n mod 2 ^ (8 * w)))],
               off + w, true))
    /\ (len msg < off + w ->
        packStructValue lib (StructValue name [Field fn tag (UintValue k n)])
          msg off
        = Ret (msg, len msg, false)).
Proof.
  intros lib name fn tag k n old msg off Hk H0 w. split.
  - intros Hfit. rewrite packStructValue_eq, unpackStructValue_eq.
    cbn [pack_fields unpack_fields].
    rewrite pack_uint_wire by assumption. cbn [bind]. split; [reflexivity|].
    assert (E : skipn (Z.to_nat off) (write msg off (wire_uint k n))
                = wire_uint k (n mod 2 ^ (8 * w))
                    ++ skipn (Z.to_nat off + length (wire_uint k n)) msg).
    { rewrite skipn_write by (pose proof (wire_uint_len k n);
                              destruct k; cbn [uint_width] in *; lia).
      rewrite <- wire_uint_mod. reflexivity. }
    rewrite (unpack_uint_wire k _ old _ off _ H0 (uint_fits_mod k n Hk) E).
    reflexivity.
  - intros Hshort. rewrite packStructValue_eq. cbn [pack_fields].
    unfold pack_uint. fold w.
    destruct k; cbn [uint_width] in *; try congruence; subst w;
      match goal with
      | |- context [if ?a >? ?b then _ else _] =>
          destruct (Z.gtb_spec a b); [reflexivity|lia]
      end.
Qed.

Lemma X9_witness :
  packStructValue golib
    (StructValue "T" [Field "F" "" (UintValue Uint16 0x12345)]) (zero_buf 8) 3
  = Ret (write (zero_buf 8) 3 (wire_uint Uint16 0x12345),
         3 + uint_width Uint16, true)
  /\ unpackStructValue golib
       (StructValue "T" [Field "F" "" (UintValue Uint16 0)])
       (write (zero_buf 8) 3 (wire_uint Uint16 0x12345)) 3
     = Ret (StructValue "T"
              [Field "F" "" (UintValue Uint16 (0x12345 mod 2 ^ (8 * uint_width Uint16)))],
            3 + uint_width Uint16, true).
Proof.
  apply (proj1 (X9_uint_field_roundtrip golib "T" "F" "" Uint16 0x12345 0
                  (zero_buf 8) 3 ltac:(discriminate) ltac:(lia))).
  vm_compute. discriminate.
Defined.

(** ** Fields that the two directions treat differently *)

Lemma unpack_fields_shape (lib : GoLib) (msg : list byte) (name : string) :
  forall todo done off v o ok,
    unpack_fields lib msg name done todo off = Ret (v, o, ok) ->
    exists todo', v = StructValue name (rev done ++ todo').
Proof.
  induction todo as [|[fn tag fv] rest IH]; intros done off v o ok E.
  - cbn [unpack_fields] in E. injection E as <- _ _.
    exists []. rewrite app_nil_r. reflexivity.
  - rewrite unpack_fields_cons in E.
    destruct (unpack_field lib msg name _ tag fv off) as [[[v1 o1] k1]| |];
      cbn [bind] in E; try discriminate.
    destruct k1.
    + apply IH in E. destruct E as (t' & ->).
      exists (Field fn tag v1 :: t'). cbn [rev]. rewrite <- app_assoc.
      reflexivity.
    + injection E as <- _ _. exists (Field fn tag v1 :: rest). reflexivity.
Qed.

Lemma unpack_fields_A (lib : GoLib) (msg : list byte) (name fn : string)
    (old : list value) (post : list field) :
  (forall a b c d, len (net_IPv4 lib a b c d) = 16) ->
  forall pre done off v o,
    unpack_fields lib msg name done
      (pre ++ Field fn "A" (SliceValue old) :: post) off
    = Ret (v, o, true) ->
    exists pre' e post',
      v = StructValue name (rev done ++ pre' ++ Field fn "A" (SliceValue e) :: post')
      /\ len e = 16.
Proof.
  intros Hip.
  induction pre as [|[fn1 tag1 fv1] pre IH]; intros done off v o E.
  - cbn [app] in E. rewrite unpack_fields_cons in E.
    unfold unpack_field, unpack_slice in E.
    cbn [String.eqb Ascii.eqb Bool.eqb] in E.
    destruct (off + 4 >? len msg); [discriminate|].
    destruct (index msg off) as [b0|]; [|discriminate].
    destruct (index msg (off + 1)) as [b1|]; [|discriminate].
    destruct (index msg (off + 2)) as [b2|]; [|discriminate].
    destruct (index msg (off + 3)) as [b3|]; [|discriminate].
    cbn [lift bind] in E.
    apply unpack_fields_shape in E. destruct E as (post' & ->).
    exists [], (byte_values (net_IPv4 lib b0 b1 b2 b3)), post'.
    split.
    + cbn [rev app]. rewrite <- app_assoc. reflexivity.
    + unfold byte_values, len. rewrite length_map. apply Hip.
  - cbn [app] in E. rewrite unpack_fields_cons in E.
    destruct (unpack_field lib msg name _ tag1 fv1 off) as [[[v1 o1] k1]| |];
      cbn [bind] in E; try discriminate.
    destruct k1; [|discriminate].
    apply IH in E. destruct E as (pre' & e & post' & -> & He).
    exists (Field fn1 tag1 v1 :: pre'), e, post'. split; [|exact He].
    cbn [rev app]. rewrite <- app_assoc. reflexivity.
Qed.

Lemma pack_fields_A_false (lib : GoLib) (fn : string) (e : list value)
    (post : list field) :
  4 < len e ->
  forall pre m off m' o' ok,
    pack_fields lib (pre ++ Field fn "A" (SliceValue e) :: post) m off
    = Ret (m', o', ok) ->
    ok = false.
Proof.
  intros He.
  induction pre as [|[fn1 tag1 fv1] pre IH]; intros m off m' o' ok E.
  - cbn [app] in E. rewrite pack_fields_cons in E.
    unfold pack_field, pack_slice in E.
    cbn [String.eqb Ascii.eqb Bool.eqb] in E.
    destruct (Z.gtb_spec (len e) 4); [|lia]. cbn [orb bind] in E.
    injection E as _ _ <-. reflexivity.
  - cbn [app] in E. rewrite pack_fields_cons in E.
    destruct (pack_field lib tag1 fv1 m off) as [[[m1 o1] k1]| |];
      cbn [bind] in E; try discriminate.
    destruct k1.
    + eapply IH. exact E.
    + injection E as _ _ <-. reflexivity.
Qed.

(** X14: an IPv4 address does not survive unpacking.  The ["A"] case of
    [unpackStructValue] stores what [net.IPv4] returns, and that is the
    16-byte form of the address; the ["A"] case of [packStructValue]
    refuses a slice of more than four elements.  So a record with a
    field tagged ["A"], once unpacked with success, is never packed with
    success, whatever the buffer and the offset. *)
Theorem X14_unpacked_A_record_is_not_packed :
  forall lib,
    (forall a b c d, len (net_IPv4 lib a b c d) = 16) ->
    forall name pre fn old post msg off v o,
      unpackStructValue lib
        (StructValue name (pre ++ Field fn "A" (SliceValue old) :: post)) msg off
      = Ret (v, o, true) ->
      forall m off2 m' o' ok,
        packStructValue lib v m off2 = Ret (m', o', ok) -> ok = false.
Proof.
  intros lib Hip name pre fn old post msg off v o E m off2 m' o' ok P.
  rewrite unpackStructValue_eq in E.
  destruct (unpack_fields_A lib msg name fn old post Hip pre [] off v o E)
    as (pre' & e & post' & -> & He).
  cbn [rev app] in P. rewrite packStructValue_eq in P.
  apply (pack_fields_A_false lib fn e post' ltac:(lia) pre' m off2 m' o' ok P).
Qed.

Lemma X14_witness :
  unpackStructValue golib (StructValue "RR_A" [Field "A" "A" (SliceValue [])])
    (hexbytes [1; 2; 3; 4]) 0
  = Ret (StructValue "RR_A"
           [Field "A" "A"
              (SliceValue (byte_values (IPv4 (z2b 1) (z2b 2) (z2b 3) (z2b 4))))],
         4, true)
  /\ packStructValue golib
       (StructValue "RR_A"
          [Field "A" "A"
             (SliceValue (byte_values (IPv4 (z2b 1) (z2b 2) (z2b 3) (z2b 4))))])
       (zero_buf 32) 0
     = Ret (zero_buf 32, 32, false)
  /\ false = false.
Proof.
  assert (U : unpackStructValue golib
                (StructValue "RR_A" ([] ++ Field "A" "A" (SliceValue []) :: []))
                (hexbytes [1; 2; 3; 4]) 0
              = Ret (StructValue "RR_A"
                       [Field "A" "A"
                          (SliceValue
                             (byte_values (IPv4 (z2b 1) (z2b 2) (z2b 3) (z2b 4))))],
                     4, true)) by (vm_compute; reflexivity).
  assert (P : packStructValue golib
                (StructValue "RR_A"
                   [Field "A" "A"
                      (SliceValue
                         (byte_values (IPv4 (z2b 1) (z2b 2) (z2b 3) (z2b 4))))])
                (zero_buf 32) 0
              = Ret (zero_buf 32, 32, false)) by (vm_compute; reflexivity).
  split; [exact U|]. split; [exact P|].
  apply (X14_unpacked_A_record_is_not_packed golib
           (fun a b c d => eq_refl) "RR_A" [] "A" [] []
           (hexbytes [1; 2; 3; 4]) 0 _ 4 U (zero_buf 32) 0 _ _ false P).
Defined.

Lemma pack_fields_app (lib : GoLib) :
  forall a b msg off,
    pack_fields lib (a ++ b) msg off
    = (r <- pack_fields lib a msg off ;;
       let '(m, o, ok) := r in
       if ok then pack_fields lib b m o else Ret (m, o, false)).
Proof.
  induction a as [|[fn tag fv] a IH]; intros b msg off.
  - reflexivity.
  - cbn [app]. rewrite !pack_fields_cons.
    destruct (pack_field lib tag fv msg off) as [[[m1 o1] k1]| |];
      cbn [bind]; try reflexivity.
    destruct k1; [apply IH|reflexivity].
Qed.

(** X15: three kinds of field leave the offset where it was when they
    are packed.  A string tagged ["hex"] is decoded and copied into the
    buffer, but the offset is not moved past it: the call returns the
    offset it would return without the field, so the bytes lie beyond
    what the caller takes to be written.  A slice tagged ["NSEC"] or
    ["NSEC3"] is not written at all: the call returns the buffer and the
    offset of the record without the field. *)
Theorem X15_fields_that_do_not_advance :
  forall lib name pre fn msg off m o,
    (forall s,
        packStructValue lib
          (StructValue name (pre ++ [Field fn "hex" (StringValue s)])) msg off
        = Ret (m, o, true) ->
        exists m1, packStructValue lib (StructValue name pre) msg off
                   = Ret (m1, o, true))
    /\ (forall tag e,
           tag = "NSEC"%string \/ tag = "NSEC3"%string ->
           packStructValue lib
             (StructValue name (pre ++ [Field fn tag (SliceValue e)])) msg off
           = Ret (m, o, true) ->
           packStructValue lib (StructValue name pre) msg off = Ret (m, o, true)).
Proof.
  intros lib name pre fn msg off m o. split.
  - intros s E. rewrite packStructValue_eq in *.
    rewrite pack_fields_app in E.
    destruct (pack_fields lib pre msg off) as [[[m1 o1] k1]| |];
      cbn [bind] in E; try discriminate.
    destruct k1; [|discriminate].
    rewrite pack_fields_cons in E. unfold pack_field, pack_string in E.
    cbn [String.eqb Ascii.eqb Bool.eqb] in E.
    destruct (hex_DecodeString lib s) as [h|]; [|discriminate].
    destruct (copy_into m1 o1 _ h) as [m2|]; [|discriminate].
    cbn [lift bind pack_fields] in E. injection E as _ <-.
    exists m1. reflexivity.
  - intros tag e Ht E. rewrite packStructValue_eq in *.
    rewrite pack_fields_app in E.
    destruct (pack_fields lib pre msg off) as [[[m1 o1] k1]| |];
      cbn [bind] in E; try discriminate.
    destruct k1; [|discriminate].
    rewrite pack_fields_cons in E. unfold pack_field, pack_slice in E.
    destruct Ht as [-> | ->]; cbn [String.eqb Ascii.eqb Bool.eqb] in E;
      cbn [bind pack_fields] in E; injection E as <- <-; reflexivity.
Qed.

Lemma X15_witness :
  exists m1,
    packStructValue golib
      (StructValue "RR_DS"
         [Field "KeyTag" "" (UintValue Uint16 1);
          Field "Algorithm" "" (UintValue Uint8 5);
          Field "DigestType" "" (UintValue Uint8 1)])
      (zero_buf 16) 0
    = Ret (m1, 4, true).
Proof.
  eapply (proj1 (X15_fields_that_do_not_advance golib "RR_DS"
                   [Field "KeyTag" "" (UintValue Uint16 1);
                    Field "Algorithm" "" (UintValue Uint8 5);
                    Field "DigestType" "" (UintValue Uint8 1)]
                   "Digest" (zero_buf 16) 0 _ 4) (str "abcdef")).
  vm_compute. reflexivity.
Defined.

(** ** What [Pack] returns *)

Lemma pack_fields_uints (lib : GoLib) :
  forall fs msg off,
    Forall (fun f => exists k n, field_value f = UintValue k n /\ k <> UintOther)
      fs ->
    0 <= off -> off + len (flat_map wire_field fs) <= len msg ->
    pack_fields lib fs msg off
    = Ret (write msg off (flat_map wire_field fs),
           off + len (flat_map wire_field fs), true).
Proof.
  induction fs as [|[fn tag fv] rest IH]; intros msg off Hall H0 Hfit.
  - cbn [flat_map pack_fields]. rewrite write_nil.
    change (len (@nil byte)) with 0. rewrite Z.add_0_r. reflexivity.
  - inversion Hall as [|? ? (k & n & Hv & Hk) Hr]; subst.
    cbn [field_value] in Hv. subst fv.
    cbn [flat_map wire_field] in *. rewrite len_app, wire_uint_len in *.
    pose proof (len_nonneg (flat_map wire_field rest)) as Hn2.
    assert (Hw : 0 <= uint_width k) by (destruct k; cbn; lia).
    rewrite pack_fields_cons. cbn [pack_field].
    rewrite pack_uint_wire by (try assumption; lia). cbn [bind].
    rewrite IH; [|exact Hr|lia
                 |rewrite len_write by (rewrite ?wire_uint_len; lia); lia].
    rewrite <- (wire_uint_len k n) at 1 3.
    rewrite write_write by (rewrite ?wire_uint_len; lia).
    rewrite wire_uint_len, Z.add_assoc. reflexivity.
Qed.

Lemma be16_wire (msg : list byte) (off n : Z) (tail : list byte) :
  0 <= off ->
  skipn (Z.to_nat off) msg = wire_uint Uint16 n ++ tail ->
  be16 msg off = n mod 65536.
Proof.
  intros H0 E. rewrite (wire_uint_mod Uint16 n) in E.
  apply (be_uint_wire Uint16 _ msg off tail H0 (uint_fits_mod Uint16 n ltac:(discriminate)) E).
Qed.

Lemma be16_same_below (lim i : Z) (m m' : list byte) :
  same_below lim m m' -> 0 <= i -> i + 1 < lim -> be16 m' i = be16 m i.
Proof.
  intros Hs H0 Hi. unfold be16, byte_at.
  rewrite !(same_below_index lim _ m m' Hs) by lia. reflexivity.
Qed.

Lemma be16_firstn (n : nat) (m : list byte) (i : Z) :
  0 <= i -> i + 1 < Z.of_nat n -> be16 (firstn n m) i = be16 m i.
Proof.
  intros H0 Hi. unfold be16, byte_at, index.
  destruct (Z.ltb_spec i 0); [lia|]. destruct (Z.ltb_spec (i + 1) 0); [lia|].
  rewrite !nth_error_firstn_lt by lia. reflexivity.
Qed.

(** X7: whatever the message holds, the bytes that [Pack] returns with
    [ok = true] are at least the 12 bytes of a header and at most the
    4096 bytes of its buffer; they begin with [Id] at bytes 0-1 and carry
    at bytes 4-11 the numbers of questions and of answer, authority and
    additional records, each reduced modulo 65536. *)
Theorem X7_Pack_output :
  forall lib dns dns' out,
    Pack lib dns = Ret (dns', out, true) ->
    12 <= len out <= 4096
    /\ be16 out 0 = Id (hdr dns) mod 65536
    /\ be16 out 4 = len (Question dns) mod 65536
    /\ be16 out 6 = len (Answer dns) mod 65536
    /\ be16 out 8 = len (Ns dns) mod 65536
    /\ be16 out 10 = len (Extra dns) mod 65536.
Proof.
  intros lib dns dns' out. unfold Pack, packStruct.
  set (m0 := repeat (z2b 0) (Z.to_nat DefaultMsgSize)).
  assert (L0 : len m0 = 4096).
  { unfold m0, len. rewrite repeat_length. reflexivity. }
  set (H := wire_header _ _ _ _ _ _).
  assert (EH : packStructValue lib H m0 0 = Ret (write m0 0 (wire_value H), 12, true)).
  { unfold H, wire_header. rewrite packStructValue_eq.
    rewrite pack_fields_uints; [reflexivity| |lia|rewrite L0; cbn; lia].
    repeat constructor; eexists; eexists; (split; [reflexivity|discriminate]). }
  rewrite EH. cbn [bind].
  set (m1 := write m0 0 (wire_value H)).
  assert (L1 : len m1 = 4096).
  { unfold m1. rewrite len_write; [exact L0|lia|rewrite L0; cbn; lia]. }
  destruct (pack_questions lib (Question dns) m1 12 true)
    as [[[m4 o4] ok4]| |] eqn:E4; cbn [bind]; try discriminate.
  destruct (pack_questions_frame lib _ m1 12 true ltac:(lia) _ _ _ E4) as [S4 O4].
  destruct (pack_rrs lib (Answer dns) m4 o4 ok4)
    as [[[[r5 m5] o5] ok5]| |] eqn:E5; cbn [bind]; try discriminate.
  destruct (pack_rrs_frame lib _ m4 o4 ok4 ltac:(lia) _ _ _ _ E5) as [S5 O5].
  destruct (pack_rrs lib (Ns dns) m5 o5 ok5)
    as [[[[r6 m6] o6] ok6]| |] eqn:E6; cbn [bind]; try discriminate.
  destruct (pack_rrs_frame lib _ m5 o5 ok5 ltac:(lia) _ _ _ _ E6) as [S6 O6].
  destruct (pack_rrs lib (Extra dns) m6 o6 ok6)
    as [[[[r7 m7] o7] ok7]| |] eqn:E7; cbn [bind]; try discriminate.
  destruct (pack_rrs_frame lib _ m6 o6 ok6 ltac:(lia) _ _ _ _ E7) as [S7 O7].
  destruct ok7; cbn [negb]; [|discriminate].
  destruct (slice m7 0 o7) as [o|] eqn:Esl; cbn [lift bind]; [|discriminate].
  intros Hinj. injection Hinj as _ <-.
  assert (S : same_below 12 m1 m7).
  { apply (same_below_trans 12 m1 m4 m7); [exact S4|].
    apply (same_below_trans 12 m4 m5 m7); [apply (same_below_le 12 o4); [lia|exact S5]|].
    apply (same_below_trans 12 m5 m6 m7); [apply (same_below_le 12 o5); [lia|exact S6]|].
    apply (same_below_le 12 o6); [lia|exact S7]. }
  pose proof (proj1 S4) as L4. pose proof (proj1 S5) as L5.
  pose proof (proj1 S6) as L6. pose proof (proj1 S7) as L7.
  destruct (slice_len _ _ _ _ Esl) as (Lo & _ & Ho7).
  unfold slice in Esl.
  destruct ((0 <=? 0) && (0 <=? o7) && (o7 <=? len m7)); [|discriminate].
  injection Esl as <-. cbn [skipn Z.to_nat] in *.
  replace (Z.to_nat (o7 - 0)) with (Z.to_nat o7) in * by lia.
  split; [lia|].
  assert (B : forall i n tail,
             0 <= i -> i + 1 < 12 ->
             skipn (Z.to_nat i) (wire_value H) = wire_uint Uint16 n ++ tail ->
             be16 (firstn (Z.to_nat o7) m7) i = n mod 65536).
  { intros i n tail Hi0 Hi E.
    rewrite be16_firstn by lia.
    rewrite (be16_same_below 12 i m1 m7 S) by lia.
    apply (be16_wire m1 i n (tail ++ skipn (Z.to_nat 0 + length (wire_value H)) m0) Hi0).
    unfold m1, write. cbn [Z.to_nat firstn app].
    rewrite skipn_app.
    replace (Z.to_nat i - length (wire_value H))%nat with 0%nat
      by (change (length (wire_value H)) with 12%nat; lia).
    rewrite E, <- app_assoc. reflexivity. }
  unfold uint16 in H.
  split; [apply (B 0 _ _ ltac:(lia) ltac:(lia) eq_refl)|].
  split; [rewrite (B 4 _ _ ltac:(lia) ltac:(lia) eq_refl); apply Z.mod_mod; lia|].
  split; [rewrite (B 6 _ _ ltac:(lia) ltac:(lia) eq_refl); apply Z.mod_mod; lia|].
  split; [rewrite (B 8 _ _ ltac:(lia) ltac:(lia) eq_refl); apply Z.mod_mod; lia|].
  rewrite (B 10 _ _ ltac:(lia) ltac:(lia) eq_refl); apply Z.mod_mod; lia.
Qed.

Lemma X7_witness :
  12 <= len s1_bytes <= 4096
  /\ be16 s1_bytes 0 = Id (hdr s1_msg) mod 65536
  /\ be16 s1_bytes 4 = len (Question s1_msg) mod 65536
  /\ be16 s1_bytes 6 = len (Answer s1_msg) mod 65536
  /\ be16 s1_bytes 8 = len (Ns s1_msg) mod 65536
  /\ be16 s1_bytes 10 = len (Extra s1_msg) mod 65536.
Proof.
  apply (X7_Pack_output golib s1_msg s1_msg s1_bytes).
  vm_compute. reflexivity.
Defined.

(** ** Names: a pointer stands for the name at its target *)

Lemma loop_rebase (msg : list byte) :
  forall fuel st st2 s o1,
    unpackDomainName_loop fuel msg st = Ret (s, o1, true) ->
    st_off st2 = st_off st ->
    st_ptr st2 <= st_ptr st ->
    exists t o2,
      s = st_s st ++ t
      /\ unpackDomainName_loop fuel msg st2 = Ret (st_s st2 ++ t, o2, true).
Proof.
  induction fuel as [|fuel IH]; intros st st2 s o1 E Hoff Hptr;
    [discriminate|].
  cbn [unpackDomainName_loop] in *.
  destruct (unpackDomainName_body msg st) as [st'|r] eqn:Eb.
  - destruct (body_inl msg st st' Eb) as (cb & Hcb & [Hlit | Hp]).
    + destruct Hlit as (Hc & Hfit & l & Hl & ->).
      rewrite <- Hoff in Hcb, Hfit, Hl.
      destruct (body_literal msg st2 cb Hcb Hc Hfit) as (l2 & Hl2 & ->).
      rewrite Hl in Hl2. injection Hl2 as <-.
      destruct (IH _ (mkNState (st_s st2 ++ l ++ [dot])
                        (st_off st2 + 1 + b2z cb) (st_off1 st2) (st_ptr st2))
                  s o1 E) as (t & o2 & -> & E2).
      * cbn [st_off]. rewrite Hoff. reflexivity.
      * exact Hptr.
      * cbn [st_s] in *. exists (l ++ [dot] ++ t), o2.
        rewrite <- !app_assoc in *. split; [reflexivity|exact E2].
    + destruct Hp as (Hip & Hlim & c1 & Hc1 & ->).
      rewrite <- Hoff in Hcb, Hc1.
      rewrite (body_pointer msg st2 cb c1 Hcb Hip Hc1 ltac:(lia)).
      destruct (IH _ (mkNState (st_s st2) ((b2z cb - 192) * 256 + b2z c1)
                        (if st_ptr st2 =? 0 then st_off st2 + 2 else st_off1 st2)
                        (st_ptr st2 + 1))
                  s o1 E) as (t & o2 & -> & E2).
      * reflexivity.
      * cbn [st_ptr]. lia.
      * cbn [st_s] in *. exists t, o2. split; [reflexivity|exact E2].
  - subst r. destruct (body_inr_ok msg st s o1 Eb) as (-> & _ & Hz).
    rewrite <- Hoff in Hz. rewrite (body_zero msg st2 Hz).
    exists [], (if st_ptr st2 =? 0 then st_off st2 + 1 else st_off1 st2).
    rewrite !app_nil_r. split; reflexivity.
Qed.


(** ** The claim on compression pointers *)



(** X10: a compression pointer stands for the name at its target.  When
    decoding at a pointer succeeds, it consumes the two bytes of the
    pointer and returns the very name that decoding at the target of
    the pointer returns. *)
Theorem X10_pointer_stands_for_target :
  forall msg off cb c1 s o,
    index msg off = Some cb ->
    is_pointer cb ->
    index msg (off + 1) = Some c1 ->
    unpackDomainName msg off = Ret (s, o, true) ->
    o = off + 2
    /\ exists o',
         unpackDomainName msg ((b2z cb - 192) * 256 + b2z c1) = Ret (s, o', true).
Proof.
  intros msg off cb c1 s o Hcb Hp Hc1. unfold unpackDomainName.
  remember (name_fuel msg) as fuel eqn:Hf.
  destruct fuel as [|fuel]; [discriminate|].
  cbn [unpackDomainName_loop].
  rewrite (body_pointer msg (mkNState [] off 0 0) cb c1 Hcb Hp Hc1 ltac:(cbn; lia)).
  cbn [st_s st_off st_off1 st_ptr Z.eqb Z.add].
  set (st1 := mkNState [] ((b2z cb - 192) * 256 + b2z c1) (off + 2) 1).
  intros E.
  assert (P1 : 1 <= st_ptr st1) by (cbn; lia).
  assert (P2 : st_ptr (mkNState [] ((b2z cb - 192) * 256 + b2z c1) 0 0)
               <= st_ptr st1) by (cbn; lia).
  split.
  - apply (loop_keeps_off1 msg fuel st1 s o P1 E).
  - destruct (loop_rebase msg fuel st1
                (mkNState [] ((b2z cb - 192) * 256 + b2z c1) 0 0) s o E
                eq_refl P2) as (t & o2 & -> & E2).
    unfold st1 in *. cbn [st_s app] in *. exists o2.
    transitivity (unpackDomainName_loop fuel msg
                    (mkNState [] ((b2z cb - 192) * 256 + b2z c1) 0 0));
      [|exact E2].
    apply (loop_more_fuel msg fuel
             (mkNState [] ((b2z cb - 192) * 256 + b2z c1) 0 0) (S fuel));
      [|lia].
    rewrite E2. discriminate.
Qed.

Lemma X10_witness :
  11 = 9 + 2
  /\ exists o',
       unpackDomainName
         (hexbytes [3; 0x63; 0x6f; 0x6d; 0; 3; 0x66; 0x6f; 0x6f; 0xC0; 0; 0xC0; 5])
         ((b2z (z2b 0xC0) - 192) * 256 + b2z (z2b 0))
       = Ret (str "com.", o', true).
Proof.
  apply (X10_pointer_stands_for_target
           (hexbytes [3; 0x63; 0x6f; 0x6d; 0; 3; 0x66; 0x6f; 0x6f; 0xC0; 0; 0xC0; 5])
           9 (z2b 0xC0) (z2b 0) (str "com.") 11).
  - reflexivity.
  - reflexivity.
  - reflexivity.
  - vm_compute. reflexivity.
Defined.

(** ** [Unpack] on arbitrary bytes *)

Lemma safe_tags_struct (name : string) (fs : list field) :
  safe_tags (StructValue name fs) = forallb safe_field fs.
Proof. reflexivity. Qed.

Lemma unpack_slice_safe (lib : GoLib) (tag : string) (elems : list value)
    (msg : list byte) (off : Z) :
  0 <= off ->
  exists e o ok, unpack_slice lib tag elems msg off = Ret (e, o, ok) /\ 0 <= o.
Proof.
  intros H0. unfold unpack_slice. pose proof (len_nonneg msg) as Hl.
  destruct (String.eqb tag "A").
  { destruct (Z.gtb_spec (off + 4) (len msg));
      [do 3 eexists; split; [reflexivity|lia]|].
    destruct (index_in_range msg off) as (b0 & ->); [lia|].
    destruct (index_in_range msg (off + 1)) as (b1 & ->); [lia|].
    destruct (index_in_range msg (off + 2)) as (b2 & ->); [lia|].
    destruct (index_in_range msg (off + 3)) as (b3 & ->); [lia|].
    cbn [lift bind]. do 3 eexists; split; [reflexivity|lia]. }
  destruct (String.eqb tag "AAAA").
  { destruct (Z.gtb_spec (off + 16) (len msg));
      [do 3 eexists; split; [reflexivity|lia]|].
    destruct (slice_in_range msg off (off + 16)) as (p & ->); [lia|lia|].
    cbn [lift bind]. do 3 eexists; split; [reflexivity|lia]. }
  destruct (String.eqb tag "OPT");
    do 3 eexists; (split; [reflexivity|lia]).
Qed.

Lemma unpack_string_safe (lib : GoLib) (name : string) (cur : list field)
    (tag : string) (old : gostring) (msg : list byte) (off : Z) :
  negb (String.eqb tag "hex") && negb (String.eqb tag "base64") = true ->
  0 <= off ->
  exists s o ok,
    unpack_string lib name cur tag old msg off = Ret (s, o, ok) /\ 0 <= o.
Proof.
  intros Ht H0. unfold unpack_string. pose proof (len_nonneg msg) as Hl.
  apply andb_prop in Ht. destruct Ht as [Hh Hb].
  destruct (String.eqb tag "hex"); [discriminate|].
  destruct (String.eqb tag "base64"); [discriminate|].
  destruct (String.eqb tag "domain-name").
  { destruct (unpackDomainName_cases msg off H0) as [-> | (s & o1 & -> & Ho1)];
      cbn [name_fail bind negb]; do 3 eexists; (split; [reflexivity|lia]). }
  destruct (String.eqb tag ""); [|do 3 eexists; split; [reflexivity|lia]].
  destruct (Z.geb_spec off (len msg));
    [do 3 eexists; split; [reflexivity|lia]|].
  destruct (index_in_range msg off) as (nb & ->); [lia|].
  cbn [lift bind]. pose proof (b2z_range nb) as Hn.
  destruct (Z.gtb_spec (off + 1 + b2z nb) (len msg));
    [do 3 eexists; split; [reflexivity|lia]|].
  destruct (slice_in_range msg (off + 1) (off + 1 + b2z nb)) as (b & ->);
    [lia|lia|].
  cbn [lift bind]. do 3 eexists; split; [reflexivity|lia].
Qed.

Lemma unpack_field_safe (lib : GoLib) (msg : list byte) (name : string)
    (cur : list field) (fn tag : string) (fv : value) (off : Z) :
  safe_field (Field fn tag fv) = true ->
  (safe_tags fv = true ->
   forall off, 0 <= off ->
     exists v' o ok, unpackStructValue lib fv msg off = Ret (v', o, ok) /\ 0 <= o) ->
  0 <= off ->
  exists v o ok,
    unpack_field lib msg name cur tag fv off = Ret (v, o, ok) /\ 0 <= o.
Proof.
  intros Hs IH H0. pose proof (len_nonneg msg) as Hl.
  destruct fv as [k old|old|elems|n' fs'|]; cbn [safe_field unpack_field] in *.
  - destruct (unpack_uint_cases k old msg off H0) as [(i & -> & Hi) | ->];
      cbn [bind]; do 3 eexists; (split; [reflexivity|]);
      [destruct k; cbn [uint_width]; lia|lia].
  - destruct (unpack_string_safe lib name cur tag old msg off Hs H0)
      as (s & o & ok & -> & Ho).
    cbn [bind]. do 3 eexists; split; [reflexivity|exact Ho].
  - destruct (unpack_slice_safe lib tag elems msg off H0)
      as (e & o & ok & -> & Ho).
    cbn [bind]. do 3 eexists; split; [reflexivity|exact Ho].
  - destruct (IH Hs off H0) as (v' & o & ok & E & Ho).
    unfold unpack_field. rewrite E. cbn [bind].
    do 3 eexists; split; [reflexivity|exact Ho].
  - do 3 eexists; split; [reflexivity|lia].
Qed.

Lemma unpack_fields_safe (lib : GoLib) (msg : list byte) (name : string) :
  forall todo,
    Forall (fun f =>
              safe_tags (field_value f) = true ->
              forall off, 0 <= off ->
                exists v' o ok,
                  unpackStructValue lib (field_value f) msg off = Ret (v', o, ok)
                  /\ 0 <= o) todo ->
    forallb safe_field todo = true ->
    forall done off,
      0 <= off ->
      exists v o ok,
        unpack_fields lib msg name done todo off = Ret (v, o, ok) /\ 0 <= o.
Proof.
  induction 1 as [|[fn tag fv] rest Hf _ IH]; intros Hs done off H0.
  - cbn [unpack_fields]. do 3 eexists; split; [reflexivity|exact H0].
  - cbn [forallb] in Hs. apply andb_prop in Hs. destruct Hs as [Hs Hr].
    rewrite unpack_fields_cons.
    destruct (unpack_field_safe lib msg name
                (rev done ++ Field fn tag fv :: rest) fn tag fv off Hs Hf H0)
      as (v & o & ok & -> & Ho).
    cbn [bind]. destruct ok.
    + apply IH; assumption.
    + do 3 eexists; split; [reflexivity|apply len_nonneg].
Qed.

Lemma unpackStructValue_safe (lib : GoLib) (msg : list byte) (v : value) :
  safe_tags v = true ->
  forall off, 0 <= off ->
    exists v' o ok, unpackStructValue lib v msg off = Ret (v', o, ok) /\ 0 <= o.
Proof.
  induction v as [k n|s|elems| |name fs IH] using value_fields_ind;
    try (intros Hs; discriminate).
  intros Hs off H0. rewrite unpackStructValue_eq.
  rewrite safe_tags_struct in Hs.
  apply unpack_fields_safe; assumption.
Qed.

Section UnpackReturns.

Variable lib : GoLib.
Variable rr_mk : Z -> option value.
Hypothesis registry_safe : forall t mk, rr_mk t = Some mk -> safe_tags mk = true.

Lemma unpackRR_safe (msg : list byte) (off : Z) :
  0 <= off ->
  exists rr o ok, unpackRR lib rr_mk msg off = Ret (rr, o, ok) /\ 0 <= o.
Proof.
  intros H0. unfold unpackRR, unpackStruct.
  destruct (unpackStructValue_safe lib msg RR_Header_zero eq_refl off H0)
    as (h & oh & k & Eh & Hoh).
  rewrite Eh. cbn [bind]. destruct k; cbn [negb].
  2:{ do 3 eexists; split; [reflexivity|apply len_nonneg]. }
  destruct (unpack_RR_Header_ok lib msg off h oh H0 Eh)
    as (s & on & _ & Hon & -> & _ & ->).
  match goal with
  | |- context [uint_field ?v "Rdlength"] =>
      change (uint_field v "Rdlength") with (be16 msg (on + 8))
  end.
  pose proof (be_uint_range Uint16 msg (on + 8)) as Hr. cbn in Hr.
  match goal with |- context [rr_mk ?t] => destruct (rr_mk t) as [mk|] eqn:Emk end.
  - destruct (unpackStructValue_safe lib msg mk (registry_safe _ _ Emk) off H0)
      as (r & o & k & -> & Ho).
    cbn [bind].
    destruct (negb (o =? on + 10 + be16 msg (on + 8)));
      do 3 eexists; (split; [reflexivity|lia]).
  - do 3 eexists; split; [reflexivity|lia].
Qed.

Lemma unpack_questions_safe (msg : list byte) :
  forall n off ok,
    0 <= off ->
    exists qs o ok',
      unpack_questions lib (repeat Question_zero n) msg off ok = Ret (qs, o, ok')
      /\ 0 <= o.
Proof.
  induction n as [|n IH]; intros off ok H0; cbn [repeat unpack_questions].
  - do 3 eexists; split; [reflexivity|exact H0].
  - unfold unpackStruct.
    destruct (unpackStructValue_safe lib msg Question_zero eq_refl off H0)
      as (q & o & k & -> & Ho).
    cbn [bind]. destruct (IH o k Ho) as (qs & o2 & k2 & -> & Ho2).
    cbn [bind]. do 3 eexists; split; [reflexivity|exact Ho2].
Qed.

Lemma unpack_rrs_safe (msg : list byte) :
  forall n off ok,
    0 <= off ->
    exists rrs o ok',
      unpack_rrs lib rr_mk n msg off ok = Ret (rrs, o, ok') /\ 0 <= o.
Proof.
  induction n as [|n IH]; intros off ok H0; cbn [unpack_rrs].
  - do 3 eexists; split; [reflexivity|exact H0].
  - destruct (unpackRR_safe msg off H0) as (rr & o & k & -> & Ho).
    cbn [bind]. destruct (IH o k Ho) as (rrs & o2 & k2 & -> & Ho2).
    cbn [bind]. do 3 eexists; split; [reflexivity|exact Ho2].
Qed.

Lemma Unpack_safe (dns : Msg) (msg : list byte) :
  exists dns' ok lg, Unpack lib rr_mk dns msg = Ret (dns', ok, lg).
Proof.
  unfold Unpack, unpackStruct.
  destruct (unpackStructValue_safe lib msg Header_zero eq_refl 0 (Z.le_refl 0))
    as (dh & o0 & k0 & -> & Ho0).
  cbn [bind]. destruct k0; cbn [negb]; [|do 3 eexists; reflexivity].
  destruct (unpack_questions_safe msg (Z.to_nat (uint_field dh "Qdcount")) o0 true Ho0)
    as (qs & o1 & k1 & -> & Ho1).
  cbn [bind].
  destruct (unpack_rrs_safe msg (Z.to_nat (uint_field dh "Ancount")) o1 k1 Ho1)
    as (an & o2 & k2 & -> & Ho2).
  cbn [bind].
  destruct (unpack_rrs_safe msg (Z.to_nat (uint_field dh "Nscount")) o2 k2 Ho2)
    as (ns & o3 & k3 & -> & Ho3).
  cbn [bind].
  destruct (unpack_rrs_safe msg (Z.to_nat (uint_field dh "Arcount")) o3 k3 Ho3)
    as (ex & o4 & k4 & -> & Ho4).
  cbn [bind]. destruct k4; cbn [negb]; do 3 eexists; reflexivity.
Qed.

End UnpackReturns.

Lemma rr_mk_plain_safe :
  forall t mk, rr_mk_plain t = Some mk -> safe_tags mk = true.
Proof.
  intros t mk. unfold rr_mk_plain, rr_mk_spec.
  repeat match goal with
         | |- context [?a =? ?b] => destruct (Z.eqb_spec a b); [subst|]
         end; cbn [orb]; try discriminate;
    intros E; injection E as <-; reflexivity.
Qed.

(** X20: when no record that the registry makes has a field tagged
    ["hex"] or ["base64"], [Unpack] returns on every buffer, of any
    length and content, with any receiver: it never panics and never
    loops.  The slices of raw record data are the only unguarded reads
    of the unpacking code. *)
Theorem X20_Unpack_returns_without_raw_data :
  forall lib rr_mk,
    (forall t mk, rr_mk t = Some mk -> safe_tags mk = true) ->
    forall dns msg,
      exists dns' ok logged, Unpack lib rr_mk dns msg = Ret (dns', ok, logged).
Proof.
  intros lib rr_mk Hs dns msg. apply (Unpack_safe lib rr_mk Hs).
Qed.

Lemma X20_witness :
  exists dns' ok logged,
    Unpack golib rr_mk_plain Msg_zero ds_bytes = Ret (dns', ok, logged).
Proof.
  apply (X20_Unpack_returns_without_raw_data golib rr_mk_plain rr_mk_plain_safe).
Defined.

(** ** Addresses shorter than their type *)

Lemma pack_ip6_short :
  forall n elems j msg off,
    0 <= j <= len elems -> len elems < j + Z.of_nat n ->
    pack_ip6 n elems j msg off = Panic.
Proof.
  induction n as [|n IH]; intros elems j msg off Hj Hn; [lia|].
  cbn [pack_ip6]. unfold elem_uint.
  destruct (Z.eq_dec j (len elems)) as [->|Hne].
  - assert (E : index elems (len elems) = None).
    { unfold index. destruct (Z.ltb_spec (len elems) 0); [reflexivity|].
      apply nth_error_None. unfold len. lia. }
    rewrite E. reflexivity.
  - destruct (index elems j) as [[k x| | | |]|]; cbn [bind]; try reflexivity.
    destruct (store msg off (z2b x)) as [m|]; cbn [lift bind];
      [|reflexivity].
    apply IH; lia.
Qed.

Lemma elem_uint_out (elems : list value) (j : Z) :
  len elems <= j -> elem_uint elems j = Panic.
Proof.
  intros H. unfold elem_uint.
  assert (E : index elems j = None).
  { unfold index. destruct (Z.ltb_spec j 0); [reflexivity|].
    apply nth_error_None. unfold len in H. lia. }
  rewrite E. reflexivity.
Qed.

Lemma elem_uint_cases (elems : list value) (j : Z) :
  elem_uint elems j = Panic \/ exists x, elem_uint elems j = Ret x.
Proof.
  unfold elem_uint.
  destruct (index elems j) as [[k x| | | |]|]; try (left; reflexivity).
  right. exists x. reflexivity.
Qed.

Lemma pack_slice_short (tag : string) (elems : list value) (msg : list byte)
    (off : Z) :
  (tag = "A"%string /\ len elems < 4) \/ (tag = "AAAA"%string /\ len elems < 16) ->
  off + len elems <= len msg ->
  pack_slice tag elems msg off = Panic.
Proof.
  intros Ht Hfit. pose proof (len_nonneg elems) as Hl. unfold pack_slice.
  destruct Ht as [[-> Hs] | [-> Hs]]; cbn [String.eqb Ascii.eqb Bool.eqb];
    match goal with
    | |- context [(?a >? ?b) || (?c >? ?d)] =>
        destruct (Z.gtb_spec a b); [lia|]; destruct (Z.gtb_spec c d); [lia|]
    end; cbn [orb].
  - destruct (elem_uint_cases elems 0) as [-> | (x0 & ->)]; [reflexivity|].
    cbn [bind].
    destruct (store msg off (z2b x0)) as [m0|]; cbn [lift bind]; [|reflexivity].
    destruct (elem_uint_cases elems 1) as [-> | (x1 & ->)]; [reflexivity|].
    cbn [bind].
    destruct (store m0 (off + 1) (z2b x1)) as [m1|]; cbn [lift bind];
      [|reflexivity].
    destruct (elem_uint_cases elems 2) as [-> | (x2 & ->)]; [reflexivity|].
    cbn [bind].
    destruct (store m1 (off + 2) (z2b x2)) as [m2|]; cbn [lift bind];
      [|reflexivity].
    rewrite (elem_uint_out elems 3) by lia. reflexivity.
  - rewrite (pack_ip6_short 16 elems 0 msg off); [reflexivity|lia|lia].
Qed.

(** X21: an address shorter than its type makes packing panic.  The
    ["A"] and ["AAAA"] cases check that the slice is not longer than 4
    or 16 elements and then read 4 or 16 elements from it; so a record
    with a field tagged ["A"] of fewer than 4 elements, or tagged
    ["AAAA"] of fewer than 16, for instance the empty address of a
    freshly made record, panics when the fields before it are packed
    and the buffer has room for the elements it has. *)
Theorem X21_short_address_panics :
  forall lib name pre fn tag elems post msg off m1 o1,
    (tag = "A"%string /\ len elems < 4)
    \/ (tag = "AAAA"%string /\ len elems < 16) ->
    packStructValue lib (StructValue name pre) msg off = Ret (m1, o1, true) ->
    o1 + len elems <= len m1 ->
    packStructValue lib
      (StructValue name (pre ++ Field fn tag (SliceValue elems) :: post)) msg off
    = Panic.
Proof.
  intros lib name pre fn tag elems post msg off m1 o1 Ht E Hfit.
  rewrite packStructValue_eq in *. rewrite pack_fields_app, E. cbn [bind].
  rewrite pack_fields_cons. cbn [pack_field].
  rewrite (pack_slice_short tag elems m1 o1 Ht Hfit). reflexivity.
Qed.

Lemma X21_witness :
  packStructValue golib
    (StructValue "RR_A" ([] ++ [Field "A" "A" (SliceValue [])])) (zero_buf 8) 0
  = Panic.
Proof.
  apply (X21_short_address_panics golib "RR_A" [] "A" "A" [] []
           (zero_buf 8) 0 (zero_buf 8) 0).
  - left. split; [reflexivity|]. vm_compute. reflexivity.
  - reflexivity.
  - vm_compute. discriminate.
Defined.

(** ** Base64 data: how far the offset moves *)

Lemma index_write_above (msg : list byte) (off i : Z) (bs : list byte) :
  0 <= off -> off + len bs <= len msg -> off + len bs <= i ->
  index (write msg off bs) i = index msg i.
Proof.
  intros H0 Hfit Hi. pose proof (len_nonneg bs) as Hn.
  unfold index. destruct (Z.ltb_spec i 0); [lia|].
  unfold write, len in *.
  rewrite nth_error_app2 by (rewrite length_firstn; lia).
  rewrite length_firstn.
  rewrite nth_error_app2 by lia.
  rewrite nth_error_skipn_add. f_equal. lia.
Qed.

(** X22: a field tagged ["base64"] moves the offset by
    [DecodedLen(len(s))], the most that [s] can decode to, and not by
    the number of bytes that [Decode] wrote.  When the text ends in
    padding the two differ, and the bytes in between are whatever the
    buffer held before the call. *)
Theorem X22_base64_advances_by_DecodedLen :
  forall lib name fn s msg off m o,
    packStructValue lib (StructValue name [Field fn "base64" (StringValue s)])
      msg off
    = Ret (m, o, true) ->
    let written := fst (base64_Decode lib s) in
    o = off + base64_DecodedLen lib (len s)
    /\ len written <= base64_DecodedLen lib (len s)
    /\ m = write msg off written
    /\ (forall i, off + len written <= i < o -> index m i = index msg i).
Proof.
  intros lib name fn s msg off m o. rewrite packStructValue_eq.
  cbn [pack_fields]. unfold pack_string.
  cbn [String.eqb Ascii.eqb Bool.eqb].
  destruct (slice msg off (off + base64_DecodedLen lib (len s))) as [x|] eqn:Es;
    [|discriminate].
  destruct (slice_len _ _ _ _ Es) as (_ & (H0 & Hle) & Hfit).
  cbn [lift bind].
  destruct (base64_Decode lib s) as [written err]. cbn [fst].
  destruct (Z.gtb_spec (len written) (base64_DecodedLen lib (len s)));
    [discriminate|].
  pose proof (len_nonneg written) as Hn.
  unfold copy_into.
  destruct (slice_in_range msg off (off + len written)) as (y & ->); [lia|lia|].
  cbn [lift bind].
  replace (Z.to_nat (len written)) with (length written) by (unfold len; lia).
  rewrite firstn_all. fold (write msg off written).
  destruct err; [discriminate|]. cbn [bind pack_fields].
  intros E. injection E as <- <-.
  split; [reflexivity|]. split; [lia|]. split; [reflexivity|].
  intros i Hi. apply index_write_above; lia.
Qed.

Lemma X22_witness :
  let written := fst (base64_Decode golib (str "AQ==")) in
  3 = 0 + base64_DecodedLen golib (len (str "AQ=="))
  /\ len written <= base64_DecodedLen golib (len (str "AQ=="))
  /\ hexbytes [1; 0xAA; 0xAA; 0xAA]
     = write (hexbytes [0xAA; 0xAA; 0xAA; 0xAA]) 0 written
  /\ (forall i, 0 + len written <= i < 3 ->
        index (hexbytes [1; 0xAA; 0xAA; 0xAA]) i
        = index (hexbytes [0xAA; 0xAA; 0xAA; 0xAA]) i).
Proof.
  apply (X22_base64_advances_by_DecodedLen golib "RR_DNSKEY" "PubKey"
           (str "AQ==") (hexbytes [0xAA; 0xAA; 0xAA; 0xAA]) 0
           (hexbytes [1; 0xAA; 0xAA; 0xAA]) 3).
  vm_compute. reflexivity.
Defined.

(** ** Names: from the wire and back *)

Lemma split_dots_label (l : gostring) :
  forall cur rest,
    Forall (fun c => c <> dot) l ->
    split_dots cur (l ++ dot :: rest) = (cur ++ l) :: split_dots [] rest.
Proof.
  induction l as [|c l IH]; intros cur rest Hl.
  - cbn [app split_dots]. rewrite is_dot_dot, app_nil_r. reflexivity.
  - inversion Hl as [|? ? Hc Hr]; subst. cbn [app split_dots].
    destruct (is_dot c) eqn:Ec; [apply is_dot_true in Ec; contradiction|].
    rewrite IH by assumption. rewrite <- app_assoc. reflexivity.
Qed.

Lemma split_dots_join (ls : list gostring) :
  Forall (fun l => Forall (fun c => c <> dot) l) ls ->
  split_dots [] (join_labels ls) = ls.
Proof.
  induction 1 as [|l ls Hl _ IH]; [reflexivity|].
  unfold join_labels in *. cbn [flat_map]. rewrite <- app_assoc.
  cbn [app]. rewrite split_dots_label by assumption.
  rewrite IH. reflexivity.
Qed.

(** X23: what [unpackDomainName] reads, [packDomainName] writes back.
    For an uncompressed name on the wire, made of at least one label,
    each of 1 to 63 bytes none of which is a dot, and ended by a zero
    byte, decoding returns the labels joined by dots, and packing that
    text into a buffer with room reproduces the bytes of the name, zero
    byte included. *)
Theorem X23_decoded_name_packs_back :
  forall ls msg off tail buf off2,
    ls <> [] ->
    Forall (fun l => 0 < len l <= 63 /\ Forall (fun c => c <> dot) l) ls ->
    0 <= off ->
    skipn (Z.to_nat off) msg = encode_labels ls ++ z2b 0 :: tail ->
    0 <= off2 ->
    off2 + len (encode_labels ls) + 1 <= len buf ->
    unpackDomainName msg off
    = Ret (join_labels ls, off + len (encode_labels ls) + 1, true)
    /\ packDomainName (join_labels ls) buf off2
       = Ret (write buf off2 (encode_labels ls ++ [z2b 0]),
              off2 + len (encode_labels ls) + 1, true).
Proof.
  intros ls msg off tail buf off2 Hne Hall H0 E H2 Hroom.
  assert (Hlen : Forall (fun l => 0 < len l < 64) ls).
  { eapply Forall_impl; [|exact Hall]. cbn beta. intros l [Hl _]. lia. }
  assert (Hdots : Forall (fun l => Forall (fun c => c <> dot) l) ls).
  { eapply Forall_impl; [|exact Hall]. cbn beta. intros l [_ Hl]. exact Hl. }
  split.
  - unfold unpackDomainName, name_init.
    erewrite unpack_labels; [| exact Hlen | exact H0 | exact E |].
    + reflexivity.
    + pose proof (encode_labels_count ls) as Hcnt.
      pose proof (f_equal (@length byte) E) as Hx.
      rewrite length_skipn, length_app in Hx. cbn [length] in Hx.
      unfold name_fuel, gostring in *. lia.
  - set (s := join_labels ls).
    destruct (join_labels_ends ls Hne) as (q & Hq).
    assert (Hc : canon s = s).
    { destruct (canon_cases s) as [(Hc & _) | (_ & Hn)]; [exact Hc|].
      exfalso. apply (Hn q). exact Hq. }
    assert (Hl : labels s = ls).
    { unfold labels. rewrite Hc. apply split_dots_join. exact Hdots. }
    assert (Hroot : canon s <> [dot]).
    { rewrite Hc. unfold s. destruct ls as [|l ls']; [contradiction|].
      inversion Hall as [|? ? [Hl0 _] _]; subst.
      unfold join_labels. cbn [flat_map].
      destruct l as [|c l]; [unfold len in Hl0; simpl in Hl0; lia|].
      cbn [app]. intros Hx. injection Hx as _ Hx.
      destruct l; discriminate. }
    rewrite packDomainName_ok.
    + unfold wire_name.
      destruct (list_eq_dec ascii_dec (canon s) [dot]); [contradiction|].
      rewrite Hl, len_app. change (len [z2b 0]) with 1.
      rewrite Z.add_assoc. reflexivity.
    + exact H2.
    + rewrite Hc. unfold s. rewrite <- encode_join_len. lia.
    + rewrite Hl. apply forallb_short_true.
      eapply Forall_impl; [|exact Hall]. cbn beta. intros l [Hx _]. lia.
Qed.

Lemma X23_witness :
  unpackDomainName s1_bytes 12
  = Ret (join_labels [str "example"; str "com"],
         12 + len (encode_labels [str "example"; str "com"]) + 1, true)
  /\ packDomainName (join_labels [str "example"; str "com"]) (zero_buf 32) 5
     = Ret (write (zero_buf 32) 5
              (encode_labels [str "example"; str "com"] ++ [z2b 0]),
            5 + len (encode_labels [str "example"; str "com"]) + 1, true).
Proof.
  apply (X23_decoded_name_packs_back [str "example"; str "com"] s1_bytes 12
           (hexbytes [0; 1; 0; 1]) (zero_buf 32) 5).
  - discriminate.
  - repeat constructor; try (vm_compute; congruence); discriminate.
  - lia.
  - vm_compute. reflexivity.
  - lia.
  - vm_compute. discriminate.
Defined.

(** ** EDNS options that do not fit *)

Lemma store_bytes_short :
  forall bs msg off,
    0 <= off <= len msg -> len msg < off + len bs ->
    store_bytes msg off bs = Panic.
Proof.
  induction bs as [|b bs IH]; intros msg off H0 Hs.
  - change (len (@nil byte)) with 0 in Hs. lia.
  - rewrite len_cons in Hs. cbn [store_bytes].
    destruct (Z.eq_dec off (len msg)) as [->|Hne].
    + unfold store. destruct (Z.ltb_spec (len msg) (len msg)); [lia|].
      rewrite andb_false_r. reflexivity.
    + rewrite store_write by lia. cbn [lift bind].
      apply IH; rewrite len_write; try lia; change (len [b]) with 1; lia.
Qed.

Lemma copy_into_write (msg : list byte) (off : Z) (src : list byte) :
  0 <= off -> off + len src <= len msg ->
  copy_into msg off (len src) src = Some (write msg off src).
Proof.
  intros H0 Hfit. pose proof (len_nonneg src) as Hn. unfold copy_into.
  destruct (slice_in_range msg off (off + len src)) as (y & ->); [lia|lia|].
  replace (Z.to_nat (len src)) with (length src) by (unfold len; lia).
  rewrite firstn_all. reflexivity.
Qed.

Lemma option_len_nonneg (e : value) : 0 <= option_len e.
Proof.
  destruct e as [| | |n [|[? ? [| | | |]] [|[? ? [|d| | |]] ?]]|];
    cbn [option_len]; try lia.
  pose proof (len_nonneg d). lia.
Qed.

Lemma options_len_nonneg (elems : list value) : 0 <= options_len elems.
Proof.
  induction elems as [|e r IH]; cbn [options_len fold_right]; [lia|].
  fold (options_len r). pose proof (option_len_nonneg e). lia.
Qed.

Lemma pack_options_overflow :
  forall elems msg off,
    forallb is_option elems = true ->
    0 <= off <= len msg ->
    len msg < off + options_len elems ->
    pack_options elems msg off = Panic.
Proof.
  induction elems as [|e rest IH]; intros msg off Hall H0 Hs.
  - cbn [options_len fold_right] in Hs. lia.
  - cbn [forallb] in Hall. apply andb_prop in Hall. destruct Hall as [He Hr].
    cbn [options_len fold_right] in Hs. fold (options_len rest) in Hs.
    destruct e as [| | |n [|[f1 t1 [k c| | | |]] [|[f2 t2 [|data| | |]] more]]|];
      try discriminate.
    cbn [option_len] in Hs. cbn [pack_options].
    pose proof (len_nonneg data) as Hd.
    destruct (Z_lt_le_dec (len msg) (off + 4)) as [Hshort|Hroom].
    { rewrite store_bytes_short; [reflexivity|lia|].
      change (len [_; _; _; _]) with 4. lia. }
    rewrite store_bytes_write by (try (change (len [_; _; _; _]) with 4); lia).
    cbn [bind].
    set (m1 := write msg off _).
    assert (L1 : len m1 = len msg).
    { unfold m1. apply len_write; [lia|]. change (len [_; _; _; _]) with 4. lia. }
    destruct (Z_lt_le_dec (len msg) (off + 4 + len data)) as [Hshort|Hroom2].
    { unfold copy_into, slice.
      destruct (Z.leb_spec (off + 4 + len data) (len m1)); [lia|].
      rewrite andb_false_r. reflexivity. }
    rewrite copy_into_write by lia. cbn [lift bind].
    apply IH; [exact Hr| |]; rewrite len_write by lia; lia.
Qed.

(** X24: EDNS options are packed with no check of the room left.  A
    slice tagged ["OPT"] whose elements are options (a struct with an
    unsigned code, then a string of data: 4 bytes plus the data each)
    that together need more bytes than the buffer has after an offset
    inside the buffer makes [packStructValue] panic. *)
Theorem X24_options_overflow_panics :
  forall lib name fn elems msg off,
    forallb is_option elems = true ->
    0 <= off <= len msg ->
    len msg < off + options_len elems ->
    packStructValue lib (StructValue name [Field fn "OPT" (SliceValue elems)])
      msg off
    = Panic.
Proof.
  intros lib name fn elems msg off Hall H0 Hs.
  rewrite packStructValue_eq. cbn [pack_fields]. unfold pack_slice.
  cbn [String.eqb Ascii.eqb Bool.eqb].
  rewrite (pack_options_overflow elems msg off Hall H0 Hs). reflexivity.
Qed.

Lemma X24_witness :
  packStructValue golib
    (StructValue "RR_OPT"
       [Field "Option" "OPT"
          (SliceValue
             [StructValue "Option"
                [Field "Code" "" (UintValue Uint16 3);
                 Field "Data" "" (StringValue (str "abcdef"))]])])
    (zero_buf 8) 0
  = Panic.
Proof.
  apply X24_options_overflow_panics.
  - reflexivity.
  - vm_compute. split; discriminate.
  - vm_compute. reflexivity.
Defined.

(** ** The claim on what [Unpack] returns *)







